(** * The memcached file logger (extensions/loggers/file_logger.c)

    A shallow embedding of the logger extension: the record formatter
    ([logger_log]), the de-duplicator ([add_log_entry], [flush_last_log]),
    the two log buffers ([do_add_log_entry]), the flusher thread
    ([flush_pending_io], [open_logfile], [logger_thead_main]), the
    shutdown entry point ([logger_shutdown]), the initialisation
    ([memcached_extensions_initialize]) and the callbacks ([on_log_level],
    [exit_handler]).

    C data is kept the way the source has it: [size_t], [int] and
    [unsigned int] values are integers of [Z] with their wrap-around written
    out, [char] arrays are lists of [ascii], the file-scope variables of the
    translation unit are the fields of one record. *)

From Stdlib Require Import ZArith Lia Ascii String List Bool.
From stdpp Require Import base tactics option list gmap strings.

Local Open Scope Z_scope.

(** ** Machine integers *)

(** [size_t] on the 64-bit targets the server is built for. *)
Definition size_t (x : Z) : Z := x mod 2 ^ 64.

(** [unsigned int]. *)
Definition uint (x : Z) : Z := x mod 2 ^ 32.

(** [int]: the two's complement reading of the low 32 bits. *)
Definition int (x : Z) : Z := (x + 2 ^ 31) mod 2 ^ 32 - 2 ^ 31.

(** ** Characters and the pieces of [printf] the logger uses *)

Definition NUL : ascii := "000"%char.
Definition LF : ascii := "010"%char.

Definition chars (s : string) : list ascii := list_ascii_of_string s.

Definition len {A} (l : list A) : Z := Z.of_nat (length l).

(** The bytes of a C string: everything before the first NUL. *)
Fixpoint c_str (s : list ascii) : list ascii :=
  match s with
  | [] => []
  | c :: t => if Ascii.eqb c NUL then [] else c :: c_str t
  end.

Definition digit (d : Z) : ascii := ascii_of_nat (48 + Z.to_nat d).

(** Decimal digits of a non-negative number, most significant first; ten
    digits are enough for any 32-bit value. *)
Fixpoint utoa (fuel : nat) (n : Z) (acc : list ascii) : list ascii :=
  match fuel with
  | O => acc
  | S f =>
      let acc' := digit (n mod 10) :: acc in
      if n / 10 =? 0 then acc' else utoa f (n / 10) acc'
  end.

(** ["%u"] applied to an [unsigned int]. *)
Definition fmt_u (v : Z) : list ascii := utoa 10 (uint v) [].

(** ["%06u"]: at least six digits, padded with zeros on the left. *)
Definition fmt_06u (v : Z) : list ascii :=
  let d := fmt_u v in repeat "0"%char (6 - length d)%nat ++ d.

(** ["%d"] applied to the bits of a 32-bit value. *)
Definition fmt_d (v : Z) : list ascii :=
  let s := int v in
  if s <? 0 then "-"%char :: utoa 10 (- s) [] else utoa 10 s [].

(** [memcmp(s1, s2, n)]: zero when the first [n] bytes agree, otherwise the
    difference of the first pair of bytes that differ (as [unsigned char]).
    The lists are the memory the model knows behind the two pointers.  When
    one of them ends before [n] bytes are compared and no difference was
    found so far, the call reads memory the model does not have, and its
    answer is not known: there is none. *)
Fixpoint memcmp (s1 s2 : list ascii) (n : nat) {struct n} : option Z :=
  match n with
  | O => Some 0
  | S n' =>
      match s1, s2 with
      | c1 :: t1, c2 :: t2 =>
          if Ascii.eqb c1 c2 then memcmp t1 t2 n'
          else Some (Z.of_nat (nat_of_ascii c1) - Z.of_nat (nat_of_ascii c2))
      | _, _ => None
      end
  end.

(** [memcpy(dst + off, src, length src)] on an array held as a list. *)
Definition memcpy (dst : list ascii) (off : Z) (src : list ascii) : list ascii :=
  firstn (Z.to_nat off) dst ++ src ++ skipn (Z.to_nat off + length src) dst.

(** ** The logger's variables *)

(** Modelled from the spec: the enumeration [EXTENSION_LOG_LEVEL] of
    memcached/extension_loggers.h, which is not under src/.  The spec lists
    the levels as warning/info/debug/detail and compares a severity with a
    threshold by [>=]; the values follow that order, detail lowest. *)
Definition EXTENSION_LOG_DETAIL : Z := 0.
Definition EXTENSION_LOG_DEBUG : Z := 1.
Definition EXTENSION_LOG_INFO : Z := 2.
Definition EXTENSION_LOG_WARNING : Z := 3.

(** [struct logbuffer]: the data segment and the current offset. *)
Record logbuffer := mk_logbuffer {
  data : list ascii;
  offset : Z
}.

(** The anonymous struct [lastlog]. *)
Record lastlog_t := mk_lastlog {
  lastlog_buffer : list ascii;
  lastlog_count : Z;
  lastlog_offset : Z
}.

(** The four bytes of an [int] in memory, least significant first: the
    server's targets are little-endian, with [int] of 32 bits. *)
Definition le32 (x : Z) : list ascii :=
  let byte v := ascii_of_nat (Z.to_nat (v mod 256)) in
  [byte (uint x); byte (uint x / 2 ^ 8); byte (uint x / 2 ^ 16);
   byte (uint x / 2 ^ 24)].

(** The memory of [lastlog] from [lastlog.buffer] on: the 512 bytes of the
    array, then [count] and [offset] (512 is a multiple of the alignment of
    [int], so nothing stands between).  What follows the struct is not
    known. *)
Definition lastlog_memory (ll : lastlog_t) : list ascii :=
  lastlog_buffer ll ++ le32 (lastlog_count ll) ++ le32 (lastlog_offset ll).

(** The file-scope variables that the producers and the flusher share,
    together with what has been written to the standard error stream. *)
Record logger := mk_logger {
  current_log_level : Z;
  output_level : Z;
  cyclesz : Z;
  buffers0 : logbuffer;
  buffers1 : logbuffer;
  currbuffer : Z;
  prettyprint : bool;
  unit_test : bool;
  buffersz : Z;
  sleeptime : Z;
  lastlog : lastlog_t;
  run : Z;
  stderr : list ascii
}.

(** [buffers[i]] *)
Definition buffers (s : logger) (i : Z) : logbuffer :=
  if i =? 0 then buffers0 s else buffers1 s.

Definition set_buffer (s : logger) (i : Z) (b : logbuffer) : logger :=
  if i =? 0 then
    mk_logger (current_log_level s) (output_level s) (cyclesz s) b (buffers1 s)
      (currbuffer s) (prettyprint s) (unit_test s) (buffersz s) (sleeptime s)
      (lastlog s) (run s) (stderr s)
  else
    mk_logger (current_log_level s) (output_level s) (cyclesz s) (buffers0 s) b
      (currbuffer s) (prettyprint s) (unit_test s) (buffersz s) (sleeptime s)
      (lastlog s) (run s) (stderr s).

Definition set_currbuffer (s : logger) (i : Z) : logger :=
  mk_logger (current_log_level s) (output_level s) (cyclesz s) (buffers0 s)
    (buffers1 s) i (prettyprint s) (unit_test s) (buffersz s) (sleeptime s)
    (lastlog s) (run s) (stderr s).

Definition set_lastlog (s : logger) (l : lastlog_t) : logger :=
  mk_logger (current_log_level s) (output_level s) (cyclesz s) (buffers0 s)
    (buffers1 s) (currbuffer s) (prettyprint s) (unit_test s) (buffersz s)
    (sleeptime s) l (run s) (stderr s).

Definition set_run (s : logger) (r : Z) : logger :=
  mk_logger (current_log_level s) (output_level s) (cyclesz s) (buffers0 s)
    (buffers1 s) (currbuffer s) (prettyprint s) (unit_test s) (buffersz s)
    (sleeptime s) (lastlog s) r (stderr s).

(** [fprintf(stderr, ...)], [fputs(..., stderr)] *)
Definition eprint (s : logger) (text : list ascii) : logger :=
  mk_logger (current_log_level s) (output_level s) (cyclesz s) (buffers0 s)
    (buffers1 s) (currbuffer s) (prettyprint s) (unit_test s) (buffersz s)
    (sleeptime s) (lastlog s) (run s) (stderr s ++ text).

(** The bytes a buffer holds: the first [offset] bytes of its data. *)
Definition contents (b : logbuffer) : list ascii :=
  firstn (Z.to_nat (offset b)) (data b).

(** ** Calls that may have to wait

    A producer runs under the mutex.  A call either returns ([Done]) or
    reaches [cb_cond_wait(&space_cond, &mutex)] with no room in the current
    buffer ([Waiting]): it gives the mutex up there and goes no further until
    the flusher has swapped the buffers (how it goes on from there is told
    by the relations of the section on calls that wait and go on).  A call
    whose [memcmp] reads past the memory of [lastlog] without having found
    a difference is followed no further either ([Undefined]): what it
    does depends on memory that is not the logger's. *)
Inductive outcome :=
| Done (s : logger)
| Waiting (s : logger)
| Undefined (s : logger).

Definition state_of (o : outcome) : logger :=
  match o with Done s | Waiting s | Undefined s => s end.

Definition and_then (o : outcome) (k : logger -> outcome) : outcome :=
  match o with
  | Done s => k s
  | Waiting s => Waiting s
  | Undefined s => Undefined s
  end.

Notation "o >>> k" := (and_then o k) (at level 61, left associativity).

(** ** Producer side *)

Definition space_warning : list ascii :=
  chars "WARNING: waiting for log space to be available" ++ [LF].

(** [do_add_log_entry(msg, size)] with [size = length msg].  The
    [cb_cond_signal(&cond)] sent once the buffer is three quarters full
    changes no variable; the flusher's wake-up is a step of its own (see
    [step] below). *)
Definition do_add_log_entry (s : logger) (msg : list ascii) : outcome :=
  let b := buffers s (currbuffer s) in
  if size_t (offset b + len msg) >=? buffersz s then
    Waiting (if unit_test s then s else eprint s space_warning)
  else
    Done (set_buffer s (currbuffer s)
            (mk_logbuffer (memcpy (data b) (offset b) msg)
                          (size_t (offset b + len msg)))).

(** The line written by [flush_last_log]: the 80-byte scratch buffer is
    never filled (see [repeated_line_fits]), so [snprintf] returns the
    length of exactly this text. *)
Definition repeated_line (count : Z) : list ascii :=
  chars "message repeated " ++ fmt_u count ++ chars " times" ++ [LF].

Definition flush_last_log (s : logger) : outcome :=
  if lastlog_count (lastlog s) >? 1 then
    do_add_log_entry s (repeated_line (lastlog_count (lastlog s)))
  else Done s.

(** [add_log_entry(msg, prefixlen, size)] with [size = length msg]; the
    mutex is held from entry to exit.  The comparison starts at
    [lastlog.buffer + lastlog.offset] and runs over [size - prefixlen]
    bytes, past the end of the array into [count] and [offset] when it is
    that long. *)
Definition add_log_entry (s : logger) (msg : list ascii) (prefixlen : Z) : outcome :=
  if len msg <? 512 then
    match memcmp (skipn (Z.to_nat (lastlog_offset (lastlog s)))
                    (lastlog_memory (lastlog s)))
                 (skipn (Z.to_nat prefixlen) msg)
                 (Z.to_nat (size_t (len msg - prefixlen))) with
    | None => Undefined s
    | Some r =>
        if r =? 0 then
          Done (set_lastlog s
                  (mk_lastlog (lastlog_buffer (lastlog s))
                              (int (lastlog_count (lastlog s) + 1))
                              (lastlog_offset (lastlog s))))
        else
          flush_last_log s >>> fun s =>
          do_add_log_entry s msg >>> fun s =>
          Done (set_lastlog s
                  (mk_lastlog (memcpy (lastlog_buffer (lastlog s)) 0 msg) 0
                     prefixlen))
    end
  else
    flush_last_log s >>> fun s =>
    do_add_log_entry
      (set_lastlog s
         (mk_lastlog (memcpy (lastlog_buffer (lastlog s)) 0 [NUL]) 0 0))
      msg.

(** [severity2string] *)
Definition severity2string (sev : Z) : list ascii :=
  if sev =? EXTENSION_LOG_WARNING then chars "WARNING"
  else if sev =? EXTENSION_LOG_INFO then chars "INFO"
  else if sev =? EXTENSION_LOG_DEBUG then chars "DEBUG"
  else if sev =? EXTENSION_LOG_DETAIL then chars "DETAIL"
  else chars "????".

(** What the C library hands to one call of [logger_log]: either
    [cb_get_timeofday] fails (with the text of [strerror(errno)]), or it
    gives the time, [asctime_r] gives the calendar text (or fails), and the
    time zone abbreviation is [tz]. *)
Inductive timeofday :=
| TodFail (err : list ascii)
| TodOk (tv_sec tv_usec : Z) (str : option (list ascii)) (tz : list ascii).

(** The text of the first [snprintf] of [logger_log]. *)
Definition timestamp (tv_sec tv_usec : Z) (str : option (list ascii))
    (tz : list ascii) : list ascii :=
  match str with
  | None => fmt_u tv_sec ++ chars "." ++ fmt_06u tv_usec
  | Some str =>
      (* trim off ' YYYY\n' *)
      firstn (length (c_str str) - 6)%nat (c_str str)
        ++ chars "." ++ fmt_06u tv_usec ++ chars " " ++ c_str tz
  end.

(** The text of the second [snprintf]: the severity. *)
Definition severity_tag (pretty : bool) (severity : Z) : list ascii :=
  if pretty then chars " " ++ severity2string severity ++ chars ": "
  else chars " " ++ fmt_u severity ++ chars ": ".

Definition dropped_line : list ascii :=
  chars "Log message dropped... too big" ++ [LF].

Definition timeofday_line (err : list ascii) : list ascii :=
  chars "gettimeofday failed: " ++ c_str err ++ [LF].

(** The line as it stands in the scratch buffer once a newline has been
    added where the text does not end in one. *)
Definition terminate_line (buffer : list ascii) : list ascii :=
  if Ascii.eqb (List.last buffer NUL) LF then buffer else buffer ++ [LF].

(** [logger_log(severity, client_cookie, fmt, ...)].  [msg] is the expansion
    of [fmt] with its arguments, whose length is what [vsnprintf] returns.
    The 2048-byte scratch buffer is followed through its three writes; when
    the test [len < avail] passes none of them was cut short, and the buffer
    holds the texts one after the other.  (A prefix of more than 2047 bytes
    would overrun the scratch buffer in C; the definition then follows the
    arithmetic of the source.) *)
Definition logger_log (s : logger) (severity : Z) (tod : timeofday)
    (msg : list ascii) : outcome :=
  if (severity >=? current_log_level s) || (severity >=? output_level s) then
    match tod with
    | TodFail err => Done (eprint s (timeofday_line err))
    | TodOk tv_sec tv_usec str tz =>
        let avail := 2048 - 1 in
        let buffer := timestamp tv_sec tv_usec str tz in
        let prefixlen := int (len buffer) in
        let tag := severity_tag (prettyprint s) severity in
        let buffer := buffer ++ tag in
        let prefixlen := int (prefixlen + len tag) in
        let avail := size_t (avail - prefixlen) in
        let buffer := buffer ++ msg in
        if len msg <? avail then
          let buffer := terminate_line buffer in
          let s := if severity >=? output_level s
                   then eprint s (c_str buffer) else s in
          if severity >=? current_log_level s
          then add_log_entry s buffer prefixlen
          else Done s
        else Done (eprint s dropped_line)
    end
  else Done s.

(** [logger_shutdown] up to the point where it leaves the mutex; the second
    component is [running], which decides whether the caller then joins the
    flusher thread. *)
Definition logger_shutdown (s : logger) : outcome * Z :=
  (flush_last_log s >>> fun s1 => Done (set_run s1 0),
   run (state_of (flush_last_log s))).

(** ** Storage

    The four operations behind [iops] are the C library's ([fopen],
    [fwrite], [fflush], [fclose]), not code of this file.  They are taken by
    their contract: a file has the bytes that reached the storage and the
    bytes written but not yet flushed; [write] takes some, all or none of
    the bytes it is given and says how many (or fails with a negative
    value); [flush] and [close] move what was written to the storage; [open]
    creates an empty file, or fails. *)
Record file := mk_file {
  stored : list ascii;
  unflushed : list ascii
}.

(** The directory, the files created through [iops.open] in the order of
    their creation, the handles that are open, and how many times [write]
    and [open] have been called. *)
Record storage := mk_storage {
  files : gmap string file;
  created : list string;
  open_handles : gset string;
  writes : nat;
  opens : nat
}.

(** What the device answers to the k-th call of [write] (the number of
    bytes it is ready to take, or a negative value when the call fails) and
    to the k-th call of [open]. *)
Record device := mk_device {
  write_result : nat -> Z;
  open_result : nat -> bool
}.

Definition flush_file (f : file) : file :=
  mk_file (stored f ++ unflushed f) [].

Definition write_file (bytes : list ascii) (f : file) : file :=
  mk_file (stored f) (unflushed f ++ bytes).

(** [access(fname, F_OK) == 0] *)
Definition access (st : storage) (fname : string) : bool :=
  bool_decide (is_Some (files st !! fname)).

(** [iops.open(path, "wb")]; a handle is the name of its file. *)
Definition iops_open (dev : device) (st : storage) (path : string)
    : option string * storage :=
  if open_result dev (opens st) then
    (Some path,
     mk_storage (<[path := mk_file [] []]> (files st)) (created st ++ [path])
       ({[path]} ∪ open_handles st) (writes st) (S (opens st)))
  else
    (None,
     mk_storage (files st) (created st) (open_handles st) (writes st)
       (S (opens st))).

(** [iops.close(handle)] *)
Definition iops_close (st : storage) (h : string) : storage :=
  mk_storage (alter flush_file h (files st)) (created st)
    (open_handles st ∖ {[h]}) (writes st) (opens st).

(** [iops.flush(handle)] *)
Definition iops_flush (st : storage) (h : string) : storage :=
  mk_storage (alter flush_file h (files st)) (created st) (open_handles st)
    (writes st) (opens st).

(** [iops.write(handle, ptr, nbytes)]: the value returned and the storage
    afterwards.  A call that fails returns -1, as [write(2)] does. *)
Definition iops_write (dev : device) (st : storage) (h : string)
    (ptr : list ascii) (nbytes : Z) : Z * storage :=
  let r := write_result dev (writes st) in
  if r >? 0 then
    let n := Z.min r nbytes in
    (n, mk_storage (alter (write_file (firstn (Z.to_nat n) ptr)) h (files st))
          (created st) (open_handles st) (S (writes st)) (opens st))
  else
    (if r <? 0 then -1 else 0,
     mk_storage (files st) (created st) (open_handles st) (S (writes st))
       (opens st)).

(** ** The flusher thread *)

(** Where [logger_thead_main] stands when it does not hold the mutex. *)
Inductive flusher_pc :=
| Starting               (* created; [open_logfile] not yet called *)
| Idle                   (* about to take the mutex and test [run]: on entry,
                            and in [cb_cond_timedwait] *)
| Flushing (this : Z)    (* writing [buffers[this]] with the mutex released *)
| Exited                 (* returned: [arg] and the [data] of both buffers
                            have been freed *).

(** The shared variables, the locals of [logger_thead_main] ([fp],
    [currsize], [arg]), the static [next_id] of [open_logfile], and the
    storage. *)
Record system := mk_system {
  shared : logger;
  pc : flusher_pc;
  fp : option string;
  currsize : Z;
  next_id : Z;
  arg : string;
  disk : storage
}.

Definition set_shared (s : system) (l : logger) : system :=
  mk_system l (pc s) (fp s) (currsize s) (next_id s) (arg s) (disk s).

Definition set_pc (s : system) (p : flusher_pc) : system :=
  mk_system (shared s) p (fp s) (currsize s) (next_id s) (arg s) (disk s).

Definition set_disk (s : system) (d : storage) : system :=
  mk_system (shared s) (pc s) (fp s) (currsize s) (next_id s) (arg s) d.

Definition set_file (s : system) (f : option string) (sz : Z) : system :=
  mk_system (shared s) (pc s) f sz (next_id s) (arg s) (disk s).

Definition extension : string := "txt".

(** ["%s.%d.%s"] of [fnm], the sequence number and [extension]. *)
Definition logfile_name (fnm : string) (id : Z) : string :=
  fnm +:+ "." +:+ string_of_list_ascii (fmt_d id) +:+ "." +:+ extension.

(** The [do ... while (access(fname, F_OK) == 0)] of [open_logfile]: the
    name settled on and [next_id] afterwards. *)
Fixpoint open_logfile_probe (fuel : nat) (st : storage) (fnm : string)
    (id : Z) : option (string * Z) :=
  match fuel with
  | O => None
  | S fuel =>
      let fname := logfile_name fnm id in
      let id := uint (id + 1) in
      if access st fname then open_logfile_probe fuel st fnm id
      else Some (fname, id)
  end.

Definition open_failed_line : list ascii :=
  chars "Failed to open memcached log file" ++ [LF].

(** [open_logfile(fnm)] with [fnm = arg s]. *)
Definition open_logfile (dev : device) (fuel : nat) (s : system)
    : option (option string * system) :=
  match open_logfile_probe fuel (disk s) (arg s) (next_id s) with
  | None => None
  | Some (fname, id) =>
      let '(ret, d) := iops_open dev (disk s) fname in
      let l := match ret with
               | None => eprint (shared s) open_failed_line
               | Some _ => shared s
               end in
      Some (ret, mk_system l (pc s) (fp s) (currsize s) id (arg s) d)
  end.

(** [close_logfile(fp)] *)
Definition close_logfile (s : system) (f : option string) : system :=
  match f with
  | Some h => set_disk s (iops_close (disk s) h)
  | None => s
  end.

(** [reopen_logfile(old, fnm)] *)
Definition reopen_logfile (dev : device) (fuel : nat) (s : system)
    (old : option string) : option (option string * system) :=
  open_logfile dev fuel (close_logfile s old).

(** The [while (towrite > 0)] of [flush_pending_io]. *)
Fixpoint write_pending (dev : device) (fuel : nat) (st : storage) (h : string)
    (ptr : list ascii) (towrite : Z) : option storage :=
  if towrite >? 0 then
    match fuel with
    | O => None
    | S fuel =>
        let '(ret, st) := iops_write dev st h ptr towrite in
        let nw := int ret in
        if nw >? 0 then
          write_pending dev fuel st h (skipn (Z.to_nat nw) ptr)
            (size_t (towrite - nw))
        else write_pending dev fuel st h ptr towrite
    end
  else Some st.

(** [flush_pending_io(file, buffers + this)]: the value returned and the
    system afterwards.  With a null [file] and bytes to write the call
    hands the null handle to [iops.write]; nothing is defined for that. *)
Definition flush_pending_io (dev : device) (fuel : nat) (s : system)
    (file : option string) (this : Z) : option (Z * system) :=
  let lb := buffers (shared s) this in
  if offset lb >? 0 then
    match file with
    | None => None
    | Some h =>
        match write_pending dev fuel (disk s) h (data lb) (offset lb) with
        | None => None
        | Some st =>
            Some (offset lb,
                  set_disk
                    (set_shared s
                       (set_buffer (shared s) this (mk_logbuffer (data lb) 0)))
                    (iops_flush st h))
        end
    end
  else Some (0, s).

(** [currbuffer = (currbuffer == 0) ? 1 : 0] *)
Definition flip (l : logger) : logger :=
  set_currbuffer l (if currbuffer l =? 0 then 1 else 0).

(** The test of the inner [while] of [logger_thead_main] and what follows
    it with the mutex held: either the buffers are swapped and the thread
    leaves the mutex to write [buffers[this]], or it goes to
    [cb_cond_timedwait].  [timer_due] is [(time_t)tp.tv_sec >= next]; the
    comparison [offset > buffersz * 0.75] is taken over the integers. *)
Definition inner_loop (timer_due : bool) (s : system) : system :=
  let l := shared s in
  if timer_due || (4 * offset (buffers l (currbuffer l)) >? 3 * buffersz l)
  then set_pc (set_shared s (flip l)) (Flushing (currbuffer l))
  else set_pc s Idle.

(** The part of the inner loop's body that runs without the mutex:
    [currsize += flush_pending_io(fp, buffers + this)] and the rotation. *)
Definition flush_cycle (dev : device) (fuel : nat) (s : system) (this : Z)
    : option system :=
  match flush_pending_io dev fuel s (fp s) this with
  | None => None
  | Some (n, s) =>
      let sz := size_t (currsize s + n) in
      if sz >? cyclesz (shared s) then
        match reopen_logfile dev fuel s (fp s) with
        | None => None
        | Some (f, s) => Some (set_file s f 0)
        end
      else Some (set_file s (fp s) sz)
  end.

(** The [while (buffers[currbuffer].offset)] that follows the main loop. *)
Fixpoint drain (dev : device) (fuel : nat) (s : system) (file : option string)
    : option system :=
  if offset (buffers (shared s) (currbuffer (shared s))) =? 0 then Some s
  else
    match fuel with
    | O => None
    | S fuel' =>
        let this := currbuffer (shared s) in
        match flush_pending_io dev fuel (set_shared s (flip (shared s))) file this with
        | None => None
        | Some (_, s) => drain dev fuel' s file
        end
    end.

(** What [logger_thead_main] does once [while (run)] fails. *)
Definition thread_exit (dev : device) (fuel : nat) (s : system) : option system :=
  match fp s with
  | Some h =>
      match drain dev fuel s (fp s) with
      | None => None
      | Some s => Some (set_pc (close_logfile s (fp s)) Exited)
      end
  | None => Some (set_pc s Exited)
  end.

(** ** The logger as a transition system

    Producers run under the mutex; the flusher holds it except while it
    writes and while it sleeps, so each stretch of the flusher between two
    releases of the mutex is one step.  The clock is not modelled: the
    timer may or may not be due when the flusher wakes up, and it is never
    due right after a pass ([next] was set one second ahead of [tp], which
    is not read again inside the inner loop).  What the thread frees at
    its end is not modelled either.  What a producer does to the shared
    variables is one of: an entry added by [do_add_log_entry], a wait in
    [do_add_log_entry], bookkeeping that leaves the buffers alone (the
    de-duplicator's [lastlog], the console, the level set by
    [on_log_level]), and the clearing of [run] by [logger_shutdown] and
    [exit_handler]. *)
Inductive event :=
| Appended (msg : list ascii)
| Quiet.

Definition bookkeeping (l : logger) (ll : lastlog_t) (level : Z)
    (text : list ascii) : logger :=
  mk_logger level (output_level l) (cyclesz l) (buffers0 l) (buffers1 l)
    (currbuffer l) (prettyprint l) (unit_test l) (buffersz l) (sleeptime l)
    ll (run l) (stderr l ++ text).

Inductive step (dev : device) : system -> event -> system -> Prop :=
| step_append s msg l :
    len msg < 2048 ->
    do_add_log_entry (shared s) msg = Done l ->
    step dev s (Appended msg) (set_shared s l)
| step_wait s msg l :
    do_add_log_entry (shared s) msg = Waiting l ->
    step dev s Quiet (set_shared s l)
| step_bookkeeping s ll level text :
    step dev s Quiet (set_shared s (bookkeeping (shared s) ll level text))
| step_stop s :
    step dev s Quiet (set_shared s (set_run (shared s) 0))
| step_start s fuel ret s1 :
    pc s = Starting ->
    open_logfile dev fuel s = Some (ret, s1) ->
    step dev s Quiet (set_pc (set_file s1 ret 0) Idle)
| step_wake s timer_due :
    pc s = Idle ->
    run (shared s) <> 0 ->
    step dev s Quiet (inner_loop timer_due s)
| step_flushed s this fuel s1 :
    pc s = Flushing this ->
    flush_cycle dev fuel s this = Some s1 ->
    step dev s Quiet (inner_loop false s1)
| step_exit s fuel s1 :
    pc s = Idle ->
    run (shared s) = 0 ->
    thread_exit dev fuel s = Some s1 ->
    step dev s Quiet s1.

(** The state [memcached_extensions_initialize] leaves behind when it
    succeeds: two buffers of [buffersz] bytes (both [malloc]s succeeded, so
    the size is below [PTRDIFF_MAX]), nothing logged, the thread created. *)
Definition initial (s : system) : Prop :=
  offset (buffers0 (shared s)) = 0 /\ offset (buffers1 (shared s)) = 0 /\
  len (data (buffers0 (shared s))) = buffersz (shared s) /\
  len (data (buffers1 (shared s))) = buffersz (shared s) /\
  0 <= buffersz (shared s) < 2 ^ 63 /\
  currbuffer (shared s) = 0 /\
  lastlog (shared s) = mk_lastlog (repeat NUL 512) 0 0 /\
  run (shared s) = 1 /\
  pc s = Starting /\ fp s = None /\ next_id s = 0 /\
  created (disk s) = [] /\ open_handles (disk s) = ∅.

Inductive reachable (dev : device) : system -> Prop :=
| reachable_initial s : initial s -> reachable dev s
| reachable_step s ev s' : reachable dev s -> step dev s ev s' -> reachable dev s'.

(** Runs, with the events in the order they happened. *)
Inductive exec (dev : device) : system -> list event -> system -> Prop :=
| exec_nil s : exec dev s [] s
| exec_step s evs s1 ev s2 :
    exec dev s evs s1 -> step dev s1 ev s2 -> exec dev s (evs ++ [ev]) s2.

Definition appended (evs : list event) : list ascii :=
  concat (map (fun ev => match ev with Appended m => m | Quiet => [] end) evs).

(** ** Notions the properties are stated with *)

(** The index of the buffer that is not the current one. *)
Definition other (l : logger) : Z := if currbuffer l =? 0 then 1 else 0.

(** Both buffers are arrays of [buffersz] bytes with an offset inside. *)
Definition buffers_ok (l : logger) : Prop :=
  (currbuffer l = 0 \/ currbuffer l = 1) /\
  0 <= buffersz l < 2 ^ 63 /\
  (0 <= offset (buffers0 l) <= buffersz l /\ len (data (buffers0 l)) = buffersz l) /\
  (0 <= offset (buffers1 l) <= buffersz l /\ len (data (buffers1 l)) = buffersz l).

(** The bytes of a file that have reached the storage. *)
Definition file_bytes (st : storage) (name : string) : list ascii :=
  match files st !! name with
  | Some f => stored f
  | None => []
  end.

(** The persisted output: the log files in the order of their creation. *)
Definition persisted (st : storage) : list ascii :=
  concat (map (file_bytes st) (created st)).

(** The bytes of the buffer the flusher is writing, if it is writing one. *)
Definition in_flight (s : system) : list ascii :=
  match pc s with
  | Flushing this => contents (buffers (shared s) this)
  | _ => []
  end.

(** Everything logged so far, in order: what is persisted, then what the
    flusher is writing, then what waits in the current buffer. *)
Definition stream (s : system) : list ascii :=
  persisted (disk s) ++ in_flight s
    ++ contents (buffers (shared s) (currbuffer (shared s))).

(** The files created so far have distinct names, exist, and hold nothing
    unflushed. *)
Definition disk_ok (st : storage) : Prop :=
  NoDup (created st) /\
  (forall n, n ∈ created st ->
     exists f, files st !! n = Some f /\ unflushed f = []).

(** What holds of the flusher's side between its steps: the buffer that is
    not current is the one being written, or else it is empty; the handle
    in [fp] is the newest file. *)
Definition flusher_ok (s : system) : Prop :=
  match pc s with
  | Flushing this => this = other (shared s)
  | _ => offset (buffers (shared s) (other (shared s))) = 0
  end /\
  (forall h, fp s = Some h -> last (created (disk s)) = Some h) /\
  (pc s = Starting -> fp s = None /\ created (disk s) = []) /\
  disk_ok (disk s).

(** What holds in every state the system reaches. *)
Definition system_ok (s : system) : Prop :=
  buffers_ok (shared s) /\ flusher_ok s /\ 0 <= next_id s < 2 ^ 32.

(** Two states of the variables with the same buffers. *)
Definition same_buffers (l l' : logger) : Prop :=
  buffers0 l' = buffers0 l /\ buffers1 l' = buffers1 l /\
  currbuffer l' = currbuffer l /\ buffersz l' = buffersz l.

(** The bytes the device is ready to take over [k] calls of [write], the
    first of them being call number [start]. *)
Fixpoint taken (dev : device) (start : nat) (k : nat) : Z :=
  match k with
  | O => 0
  | S k => Z.max 0 (write_result dev start) + taken dev (S start) k
  end.

(** A run of records that share their body: each is its own prefix followed
    by [body], handed to [add_log_entry] one after the other. *)
Fixpoint log_run (s : logger) (body : list ascii) (prefixes : list (list ascii))
    : outcome :=
  match prefixes with
  | [] => Done s
  | p :: ps => add_log_entry s (p ++ body) (len p) >>> fun s => log_run s body ps
  end.

(** The summary line pending in the de-duplicator, if any. *)
Definition pending_summary (l : logger) : list ascii :=
  if lastlog_count (lastlog l) >? 1 then repeated_line (lastlog_count (lastlog l))
  else [].

(** The number of newline characters a text ends in. *)
Fixpoint trailing_newlines_rev (r : list ascii) : nat :=
  match r with
  | c :: t => if Ascii.eqb c LF then S (trailing_newlines_rev t) else O
  | [] => O
  end.

Definition trailing_newlines (text : list ascii) : nat :=
  trailing_newlines_rev (rev text).

(** The prefix [logger_log] gives a record: time stamp and severity. *)
Definition prefix_of (l : logger) (severity : Z) (tv_sec tv_usec : Z)
    (str : option (list ascii)) (tz : list ascii) : list ascii :=
  timestamp tv_sec tv_usec str tz ++ severity_tag (prettyprint l) severity.

(** ** Sample inputs *)

(** The variables as their initialisers leave them, with two buffers of
    [bsz] bytes allocated and the rotation size set to [cyc]. *)
Definition configured (bsz cyc : Z) : logger :=
  mk_logger EXTENSION_LOG_WARNING EXTENSION_LOG_WARNING cyc
    (mk_logbuffer (repeat NUL (Z.to_nat bsz)) 0)
    (mk_logbuffer (repeat NUL (Z.to_nat bsz)) 0)
    0 false false bsz 60 (mk_lastlog (repeat NUL 512) 0 0) 1 [].

(** The same with the default rotation size of 100 MiB. *)
Definition startup (bsz : Z) : logger := configured bsz (100 * 1024 * 1024).

(** A reading of the clock. *)
Definition half_past_three : timeofday :=
  TodOk 1793374320 42 (Some (chars "Thu Oct 30 15:32:00 2026" ++ [LF]))
    (chars "UTC").

(** A device that takes up to 4096 bytes at each [write], one on which
    every [write] fails, one that takes three bytes at a time after a
    failed call and an empty one, and one on which no file can be opened. *)
Definition willing_device : device :=
  mk_device (fun _ => 4096) (fun _ => true).

Definition failing_device : device :=
  mk_device (fun _ => -1) (fun _ => true).

Definition slow_device : device :=
  mk_device (fun k => match k with O => -1 | S O => 0 | _ => 3 end)
            (fun _ => true).

Definition closed_device : device :=
  mk_device (fun _ => 4096) (fun _ => false).

Definition empty_disk : storage := mk_storage ∅ [] ∅ 0 0.

(** The system right after initialisation, with an empty directory. *)
Definition booted (l : logger) : system :=
  mk_system l Starting None 0 0 "memcached" empty_disk.

(** A directory that holds the two log files of an earlier run (this run
    has created none yet), and the system right after initialisation in
    it. *)
Definition used_disk : storage :=
  mk_storage
    (<["memcached.1.txt" := mk_file (chars "later") []]>
       (<["memcached.0.txt" := mk_file (chars "earlier") []]> ∅))
    [] ∅ 0 0.

Definition restarted (l : logger) : system :=
  mk_system l Starting None 0 0 "memcached" used_disk.

(** A body of one line: a newline at its end and nowhere else. *)
Definition single_line (body : list ascii) : Prop :=
  exists text, body = text ++ [LF] /\ ~ In LF text.

(** ** Replaying a schedule

    A schedule names the steps of a run one by one; [replay] carries them
    out, and gives nothing when a step is not possible where it stands. *)
Inductive action :=
| DoAppend (msg : list ascii)
| DoStop
| DoStart (fuel : nat)
| DoWake (timer_due : bool)
| DoFlush (fuel : nat)
| DoExit (fuel : nat).

Definition perform (dev : device) (a : action) (s : system) : option system :=
  match a with
  | DoAppend msg =>
      if len msg <? 2048 then
        match do_add_log_entry (shared s) msg with
        | Done l => Some (set_shared s l)
        | _ => None
        end
      else None
  | DoStop => Some (set_shared s (set_run (shared s) 0))
  | DoStart fuel =>
      match pc s with
      | Starting =>
          match open_logfile dev fuel s with
          | Some (ret, s1) => Some (set_pc (set_file s1 ret 0) Idle)
          | None => None
          end
      | _ => None
      end
  | DoWake timer_due =>
      match pc s with
      | Idle => if run (shared s) =? 0 then None else Some (inner_loop timer_due s)
      | _ => None
      end
  | DoFlush fuel =>
      match pc s with
      | Flushing this =>
          match flush_cycle dev fuel s this with
          | Some s1 => Some (inner_loop false s1)
          | None => None
          end
      | _ => None
      end
  | DoExit fuel =>
      match pc s with
      | Idle => if run (shared s) =? 0 then thread_exit dev fuel s else None
      | _ => None
      end
  end.

Definition event_of (a : action) : event :=
  match a with
  | DoAppend msg => Appended msg
  | _ => Quiet
  end.

Fixpoint replay (dev : device) (acts : list action) (s : system) : option system :=
  match acts with
  | [] => Some s
  | a :: acts =>
      match perform dev a s with
      | Some s1 => replay dev acts s1
      | None => None
      end
  end.

(** ** Initialisation, the level callback and the exit handler *)

(** The variables as their initialisers leave them before
    [memcached_extensions_initialize] runs: no buffer allocated yet (a null
    [data] pointer is the empty array). *)
Definition static_init : logger :=
  mk_logger EXTENSION_LOG_WARNING EXTENSION_LOG_WARNING (100 * 1024 * 1024)
    (mk_logbuffer [] 0) (mk_logbuffer [] 0) 0 false false (2048 * 1024) 60
    (mk_lastlog (repeat NUL 512) 0 0) 1 [].

Definition set_current_log_level (s : logger) (level : Z) : logger :=
  mk_logger level (output_level s) (cyclesz s) (buffers0 s) (buffers1 s)
    (currbuffer s) (prettyprint s) (unit_test s) (buffersz s) (sleeptime s)
    (lastlog s) (run s) (stderr s).

Definition set_output_level (s : logger) (level : Z) : logger :=
  mk_logger (current_log_level s) level (cyclesz s) (buffers0 s) (buffers1 s)
    (currbuffer s) (prettyprint s) (unit_test s) (buffersz s) (sleeptime s)
    (lastlog s) (run s) (stderr s).

(** [tolower] in the C locale. *)
Definition tolower (c : ascii) : ascii :=
  let n := nat_of_ascii c in
  if (65 <=? n)%nat && (n <=? 90)%nat then ascii_of_nat (n + 32) else c.

(** [strcasecmp(s1, s2)]: the two C strings are compared byte by byte with
    letters in lower case, up to the first difference or the terminator;
    the end of an array reads as a terminator. *)
Fixpoint strcasecmp (s1 s2 : list ascii) : Z :=
  match s1, s2 with
  | c1 :: t1, c2 :: t2 =>
      if Ascii.eqb (tolower c1) (tolower c2) then
        if Ascii.eqb c1 NUL then 0 else strcasecmp t1 t2
      else Z.of_nat (nat_of_ascii (tolower c1))
           - Z.of_nat (nat_of_ascii (tolower c2))
  | c1 :: _, [] => Z.of_nat (nat_of_ascii (tolower c1))
  | [], c2 :: _ => - Z.of_nat (nat_of_ascii (tolower c2))
  | [], [] => 0
  end.

(** The server API is not code of this file.  [parse_config] is taken by
    its contract: it stores, through the pointers of the [items] table, the
    values of the keys it finds, and says whether the whole text was
    accepted; [items] names the seven keys, so what it stored is one
    optional value per key. *)
Record config_items := mk_config_items {
  cfg_filename : option string;
  cfg_buffersize : option Z;
  cfg_cyclesize : option Z;
  cfg_loglevel : option (list ascii);
  cfg_prettyprint : option bool;
  cfg_sleeptime : option Z;
  cfg_unit_test : option bool
}.

(** [SERVER_HANDLE_V1]: [log->get_level()], [core->parse_config] (the
    values stored, and whether it returned [ENGINE_SUCCESS]) and
    [extension->register_extension]. *)
Record SERVER_HANDLE_V1 := mk_server {
  get_level : Z;
  parse_config : list ascii -> config_items * bool;
  register_extension : bool
}.

(** What the platform answers: the k-th [malloc] (a block of the size asked
    for, with whatever bytes it holds, or null), [strdup], and
    [cb_create_thread]. *)
Record platform := mk_platform {
  malloc : nat -> Z -> option (list ascii);
  strdup : string -> option string;
  cb_create_thread : bool
}.

Inductive EXTENSION_ERROR_CODE :=
| EXTENSION_SUCCESS
| EXTENSION_FATAL.

(** The assignments [parse_config] makes through [items]: [DT_SIZE] values
    to [buffersz], [cyclesz] and [sleeptime], [DT_BOOL] values to
    [prettyprint] and [unit_test] ([fname] and [loglevel] are locals). *)
Definition store_items (s : logger) (items : config_items) : logger :=
  mk_logger (current_log_level s) (output_level s)
    (from_option size_t (cyclesz s) (cfg_cyclesize items))
    (buffers0 s) (buffers1 s) (currbuffer s)
    (default (prettyprint s) (cfg_prettyprint items))
    (default (unit_test s) (cfg_unit_test items))
    (from_option size_t (buffersz s) (cfg_buffersize items))
    (from_option size_t (sleeptime s) (cfg_sleeptime items))
    (lastlog s) (run s) (stderr s).

(** The chain of [strcasecmp] tests on [loglevel]. *)
Definition match_loglevel (loglevel : list ascii) : option Z :=
  if strcasecmp (chars "warning") loglevel =? 0 then Some EXTENSION_LOG_WARNING
  else if strcasecmp (chars "info") loglevel =? 0 then Some EXTENSION_LOG_INFO
  else if strcasecmp (chars "debug") loglevel =? 0 then Some EXTENSION_LOG_DEBUG
  else if strcasecmp (chars "detail") loglevel =? 0 then Some EXTENSION_LOG_DETAIL
  else None.

Definition unknown_loglevel_line (loglevel : list ascii) : list ascii :=
  chars "Unknown loglevel: " ++ c_str loglevel
    ++ chars ". Use warning/info/debug/detail" ++ [LF].

Definition allocation_failed_line : list ascii :=
  chars "Failed to allocate memory for the logger" ++ [LF].

Definition thread_failed_line : list ascii :=
  chars "Failed to initialize the logger" ++ [LF].

(** What [memcached_extensions_initialize] leaves behind: the value
    returned, the variables, the static [sapi], and the argument of the
    flusher thread when one was created. *)
Record initialized := mk_initialized {
  code : EXTENSION_ERROR_CODE;
  vars : logger;
  sapi : option SERVER_HANDLE_V1;
  thread : option string
}.

Definition set_data (s : logger) (d0 d1 : list ascii) : logger :=
  mk_logger (current_log_level s) (output_level s) (cyclesz s)
    (mk_logbuffer d0 (offset (buffers0 s))) (mk_logbuffer d1 (offset (buffers1 s)))
    (currbuffer s) (prettyprint s) (unit_test s) (buffersz s) (sleeptime s)
    (lastlog s) (run s) (stderr s).

(** The [if (config != NULL)] block: the variables afterwards and the local
    [fname], or the variables at the [return EXTENSION_FATAL]. *)
Definition read_config (api : SERVER_HANDLE_V1) (config : option (list ascii))
    (s : logger) : logger * option string + logger :=
  match config with
  | None => inl (s, None)
  | Some config =>
      let '(items, success) := parse_config api config in
      let s := store_items s items in
      if success then
        match cfg_loglevel items with
        | None => inl (s, cfg_filename items)
        | Some loglevel =>
            match match_loglevel loglevel with
            | Some level => inl (set_output_level s level, cfg_filename items)
            | None => inr (eprint s (unknown_loglevel_line loglevel))
            end
        end
      else inr s
  end.

(** [memcached_extensions_initialize(config, get_server_api)];
    [get_server_api] is what the call of that function returns.  The blocks
    released on the way to a [return EXTENSION_FATAL] are not kept. *)
Definition memcached_extensions_initialize (pf : platform)
    (config : option (list ascii)) (get_server_api : option SERVER_HANDLE_V1)
    (s : logger) : initialized :=
  match get_server_api with
  | None => mk_initialized EXTENSION_FATAL s None None
  | Some api =>
      match read_config api config s with
      | inr s => mk_initialized EXTENSION_FATAL s (Some api) None
      | inl (s, fname) =>
          let fname := match fname with
                       | None => strdup pf "memcached"
                       | Some f => Some f
                       end in
          match malloc pf 0 (buffersz s), malloc pf 1 (buffersz s), fname with
          | Some d0, Some d1, Some fname =>
              let s := set_data s d0 d1 in
              if cb_create_thread pf then
                let s := set_current_log_level s (get_level api) in
                if register_extension api then
                  mk_initialized EXTENSION_SUCCESS s (Some api) (Some fname)
                else mk_initialized EXTENSION_FATAL s (Some api) (Some fname)
              else
                mk_initialized EXTENSION_FATAL (eprint s thread_failed_line)
                  (Some api) None
          | _, _, _ =>
              mk_initialized EXTENSION_FATAL (eprint s allocation_failed_line)
                (Some api) None
          end
      end
  end.

(** The system once the thread has been created, in a directory [d]:
    [next_id] has its initialiser, the thread has not run yet. *)
Definition spawned (r : initialized) (d : storage) : option system :=
  match thread r with
  | Some fname => Some (mk_system (vars r) Starting None 0 0 fname d)
  | None => None
  end.

(** [on_log_level]: the callback registered for [ON_LOG_LEVEL]. *)
Definition on_log_level (sapi : option SERVER_HANDLE_V1) (s : logger) : logger :=
  match sapi with
  | Some api => set_current_log_level s (get_level api)
  | None => s
  end.

(** [exit_handler] (not on WIN32) up to the point where it leaves the
    mutex; it then joins the flusher thread. *)
Definition exit_handler (s : logger) : logger := set_run s 0.

(** [get_name] *)
Definition get_name : string := "file logger".

(** The text of a C string with its letters in lower case. *)
Definition lower (s : list ascii) : list ascii := map tolower (c_str s).

(** What [parse_config] stores when there is no configuration to parse. *)
Definition no_items : config_items :=
  mk_config_items None None None None None None None.

(** The contract of [malloc]: a block has the size asked for, and no block
    is larger than [PTRDIFF_MAX]. *)
Definition malloc_contract (pf : platform) : Prop :=
  forall k n d, malloc pf k n = Some d -> len d = n /\ n < 2 ^ 63.

(** A server whose configuration parser finds the given items, and a
    platform on which every call succeeds (blocks come zeroed). *)
Definition sample_server (items : config_items) (registers : bool)
    : SERVER_HANDLE_V1 :=
  mk_server EXTENSION_LOG_INFO (fun _ => (items, true)) registers.

Definition sample_platform : platform :=
  mk_platform
    (fun _ n => if (0 <=? n) && (n <? 2 ^ 63)
              then Some (repeat NUL (Z.to_nat n)) else None)
    (fun s => Some s) true.

(** A system that has logged one entry, and one in which the
    de-duplicator has counted repeats of the stored record. *)
Definition logged_once : system :=
  default (booted (configured 64 6))
    (replay willing_device [DoStart 1; DoAppend (chars "one ")]
       (booted (configured 64 6))).

Definition with_repeats (s : system) (count : Z) : system :=
  set_shared s
    (set_lastlog (shared s)
       (mk_lastlog (lastlog_buffer (lastlog (shared s))) count
          (lastlog_offset (lastlog (shared s))))).

(** A system with buffers of 8192 bytes whose current buffer holds four
    entries of 2047 bytes. *)
Definition nearly_full : system :=
  default (booted (configured 8192 (100 * 1024 * 1024)))
    (replay willing_device
       [DoStart 1; DoAppend (repeat "a"%char 2047);
        DoAppend (repeat "b"%char 2047); DoAppend (repeat "c"%char 2047);
        DoAppend (repeat "d"%char 2047)]
       (booted (configured 8192 (100 * 1024 * 1024)))).

(** A handle, or none, as a set of handles; the handle the flusher thread
    holds while it runs. *)
Definition handle_set (f : option string) : gset string :=
  match f with
  | Some h => {[h]}
  | None => ∅
  end.

Definition held (s : system) : gset string :=
  match pc s with
  | Exited => ∅
  | _ => handle_set (fp s)
  end.

(** The number of bytes of a file that have reached the storage. *)
Definition file_size (st : storage) (name : string) : Z :=
  len (file_bytes st name).

(** The entries added during a run, one by one. *)
Definition entries (evs : list event) : list (list ascii) :=
  flat_map (fun ev => match ev with Appended m => [m] | Quiet => [] end) evs.

(** A layout of entries over the system: [groups] has the entries of each
    log file, in the order the files were created, [flying] those of the
    buffer that is being written and [waiting] those of the current
    buffer; each place holds its entries whole, one after the other. *)
Definition laid_out (s : system) (groups : list (list (list ascii)))
    (flying waiting : list (list ascii)) : Prop :=
  Forall2 (fun name g => file_bytes (disk s) name = concat g)
    (created (disk s)) groups /\
  in_flight s = concat flying /\
  contents (buffers (shared s) (currbuffer (shared s))) = concat waiting.

(** ** Calls that wait and go on

    A call of [do_add_log_entry] that finds no room prints its warning and
    waits in [cb_cond_wait], which gives the mutex up; once woken it holds
    the mutex again and tests for room once more.  What the other threads
    do while it waits is a run of the system.  The relations below follow
    a call through its waits to its return: they give the events of the
    whole stretch, the call's own and the others', and the state at the
    return. *)

(** A step of the flusher thread (the last four rules of [step]). *)
Inductive flusher_step (dev : device) : system -> system -> Prop :=
| flusher_start s fuel ret s1 :
    pc s = Starting ->
    open_logfile dev fuel s = Some (ret, s1) ->
    flusher_step dev s (set_pc (set_file s1 ret 0) Idle)
| flusher_wake s timer_due :
    pc s = Idle ->
    run (shared s) <> 0 ->
    flusher_step dev s (inner_loop timer_due s)
| flusher_flushed s this fuel s1 :
    pc s = Flushing this ->
    flush_cycle dev fuel s this = Some s1 ->
    flusher_step dev s (inner_loop false s1)
| flusher_exit s fuel s1 :
    pc s = Idle ->
    run (shared s) = 0 ->
    thread_exit dev fuel s = Some s1 ->
    flusher_step dev s s1.

(** What happens while a producer waits, or between two of its calls:
    steps of the flusher thread and, unless the producer is [alone], any
    steps of other producers. *)
Inductive meanwhile (dev : device) (alone : bool)
    : system -> list event -> system -> Prop :=
| meanwhile_nil s : meanwhile dev alone s [] s
| meanwhile_flusher s evs s1 s2 :
    meanwhile dev alone s evs s1 ->
    flusher_step dev s1 s2 ->
    meanwhile dev alone s (evs ++ [Quiet]) s2
| meanwhile_others s evs s1 ev s2 :
    alone = false ->
    meanwhile dev alone s evs s1 ->
    step dev s1 ev s2 ->
    meanwhile dev alone s (evs ++ [ev]) s2.

(** [do_add_log_entry(msg, size)] from its call to its return: with room
    the entry is copied at once; without, the call warns, waits, and
    starts over when it is woken. *)
Inductive do_add_log_entry_returns (dev : device) (alone : bool)
    : system -> list ascii -> list event -> system -> Prop :=
| add_with_room s msg l :
    do_add_log_entry (shared s) msg = Done l ->
    do_add_log_entry_returns dev alone s msg [Appended msg] (set_shared s l)
| add_after_wait s msg l evs1 s1 evs2 s2 :
    do_add_log_entry (shared s) msg = Waiting l ->
    meanwhile dev alone (set_shared s l) evs1 s1 ->
    do_add_log_entry_returns dev alone s1 msg evs2 s2 ->
    do_add_log_entry_returns dev alone s msg (Quiet :: evs1 ++ evs2) s2.

(** [flush_last_log()] from its call to its return; the text of the line
    is made before the call can wait. *)
Definition flush_last_log_returns (dev : device) (alone : bool) (s : system)
    (evs : list event) (s' : system) : Prop :=
  if lastlog_count (lastlog (shared s)) >? 1 then
    do_add_log_entry_returns dev alone s
      (repeated_line (lastlog_count (lastlog (shared s)))) evs s'
  else evs = [] /\ s' = s.

(** [add_log_entry(msg, prefixlen, size)] from its call to its return.
    Nothing is said of a call whose comparison reads past the memory of
    [lastlog]. *)
Definition add_log_entry_returns (dev : device) (alone : bool) (s : system)
    (msg : list ascii) (prefixlen : Z) (evs : list event) (s' : system) : Prop :=
  if len msg <? 512 then
    match memcmp (skipn (Z.to_nat (lastlog_offset (lastlog (shared s))))
                    (lastlog_memory (lastlog (shared s))))
                 (skipn (Z.to_nat prefixlen) msg)
                 (Z.to_nat (size_t (len msg - prefixlen))) with
    | None => False
    | Some r =>
        if r =? 0 then
          evs = [Quiet] /\
          s' = set_shared s
                 (set_lastlog (shared s)
                    (mk_lastlog (lastlog_buffer (lastlog (shared s)))
                       (int (lastlog_count (lastlog (shared s)) + 1))
                       (lastlog_offset (lastlog (shared s)))))
        else
          exists evs1 s1 evs2 s2,
            flush_last_log_returns dev alone s evs1 s1 /\
            do_add_log_entry_returns dev alone s1 msg evs2 s2 /\
            evs = evs1 ++ evs2 ++ [Quiet] /\
            s' = set_shared s2
                   (set_lastlog (shared s2)
                      (mk_lastlog
                         (memcpy (lastlog_buffer (lastlog (shared s2))) 0 msg)
                         0 prefixlen))
    end
  else
    exists evs1 s1 evs2,
      flush_last_log_returns dev alone s evs1 s1 /\
      do_add_log_entry_returns dev alone
        (set_shared s1
           (set_lastlog (shared s1)
              (mk_lastlog (memcpy (lastlog_buffer (lastlog (shared s1))) 0 [NUL])
                 0 0)))
        msg evs2 s' /\
      evs = evs1 ++ [Quiet] ++ evs2.

(** [logger_log(severity, client_cookie, fmt, ...)] from its call to its
    return, with the arithmetic of [logger_log] above.  The record is
    rendered and printed without the mutex; the other threads may run
    before [add_log_entry] takes it. *)
Definition logger_log_returns (dev : device) (alone : bool) (s : system)
    (severity : Z) (tod : timeofday) (msg : list ascii)
    (evs : list event) (s' : system) : Prop :=
  let l := shared s in
  if (severity >=? current_log_level l) || (severity >=? output_level l) then
    match tod with
    | TodFail err =>
        evs = [Quiet] /\ s' = set_shared s (eprint l (timeofday_line err))
    | TodOk tv_sec tv_usec str tz =>
        let avail := 2048 - 1 in
        let buffer := timestamp tv_sec tv_usec str tz in
        let prefixlen := int (len buffer) in
        let tag := severity_tag (prettyprint l) severity in
        let buffer := buffer ++ tag in
        let prefixlen := int (prefixlen + len tag) in
        let avail := size_t (avail - prefixlen) in
        let buffer := buffer ++ msg in
        if len msg <? avail then
          let buffer := terminate_line buffer in
          let s1 := if severity >=? output_level l
                    then set_shared s (eprint l (c_str buffer)) else s in
          if severity >=? current_log_level l
          then exists evs0 s2 evs1,
                 meanwhile dev alone s1 evs0 s2 /\
                 add_log_entry_returns dev alone s2 buffer prefixlen evs1 s' /\
                 evs = Quiet :: evs0 ++ evs1
          else evs = [Quiet] /\ s' = s1
        else evs = [Quiet] /\ s' = set_shared s (eprint l dropped_line)
    end
  else evs = [] /\ s' = s.

(** [logger_shutdown] from its call to the point where it leaves the
    mutex, with the value of [running]; the caller then joins the flusher
    thread when [running] is not zero. *)
Definition logger_shutdown_returns (dev : device) (alone : bool) (s : system)
    (evs : list event) (s' : system) (running : Z) : Prop :=
  exists evs1 s1,
    flush_last_log_returns dev alone s evs1 s1 /\
    running = run (shared s1) /\
    s' = set_shared s1 (set_run (shared s1) 0) /\
    evs = evs1 ++ [Quiet].


(** The actions of a schedule that are steps of the flusher thread. *)
Definition flusher_action (a : action) : bool :=
  match a with
  | DoAppend _ | DoStop => false
  | _ => true
  end.

(** ** A run that has to wait

    Buffers of 64 bytes; the log file is open and the current buffer holds
    an entry of 46 bytes when a record of 22 bytes is logged three times.
    The first call finds no room and waits; the flusher thread writes the
    buffer out; the call goes on; the logger is then shut down. *)
Definition port_line : list ascii :=
  chars "server listening on port 11211 with 4 threads" ++ [LF].

Definition disk_full : list ascii := chars "disk full" ++ [LF].

Definition started (bsz : Z) : system :=
  default (booted (startup bsz))
    (replay willing_device [DoStart 1] (booted (startup bsz))).

Definition crowded : system :=
  default (started 64) (replay willing_device [DoAppend port_line] (started 64)).

Definition crowded_waiting : system :=
  set_shared crowded
    (state_of (do_add_log_entry (shared crowded) (chars "15:32:00 3: " ++ disk_full))).

Definition crowded_flushed : system :=
  default crowded_waiting
    (replay willing_device [DoWake true; DoFlush 1] crowded_waiting).

Definition remembered (s : system) (msg : list ascii) (prefixlen : Z) : system :=
  set_shared s
    (set_lastlog (shared s)
       (mk_lastlog (memcpy (lastlog_buffer (lastlog (shared s))) 0 msg) 0 prefixlen)).


Definition first_logged : system :=
  remembered
    (set_shared crowded_flushed
       (state_of (do_add_log_entry (shared crowded_flushed)
                    (chars "15:32:00 3: " ++ disk_full))))
    (chars "15:32:00 3: " ++ disk_full) 12.




(** ** Basic facts *)

Lemma len_app {A} (l k : list A) : len (l ++ k) = len l + len k.
Proof. unfold len. rewrite length_app. lia. Qed.

Lemma len_nonneg {A} (l : list A) : 0 <= len l.
Proof. unfold len. lia. Qed.

Lemma size_t_small x : 0 <= x < 2 ^ 64 -> size_t x = x.
Proof. intros H. unfold size_t. apply Z.mod_small. exact H. Qed.

Lemma size_t_range x : 0 <= size_t x < 2 ^ 64.
Proof. unfold size_t. apply Z.mod_pos_bound. lia. Qed.

Lemma int_small x : - 2 ^ 31 <= x < 2 ^ 31 -> int x = x.
Proof. intros H. unfold int. rewrite Z.mod_small; lia. Qed.

Lemma uint_small x : 0 <= x < 2 ^ 32 -> uint x = x.
Proof. intros H. unfold uint. apply Z.mod_small. exact H. Qed.

Lemma ascii_diff_nonzero c1 c2 :
  Ascii.eqb c1 c2 = false ->
  Z.of_nat (nat_of_ascii c1) - Z.of_nat (nat_of_ascii c2) <> 0.
Proof.
  intros Hne Hz.
  assert (Heq : nat_of_ascii c1 = nat_of_ascii c2) by lia.
  apply (f_equal ascii_of_nat) in Heq.
  rewrite !ascii_nat_embedding in Heq.
  subst c2. rewrite Ascii.eqb_refl in Hne. discriminate.
Qed.

(** [memcmp] answers zero exactly when the compared ranges hold the same
    bytes, as long as both ranges lie inside their arrays. *)
Lemma memcmp_zero_iff s1 s2 n :
  (n <= length s1)%nat -> (n <= length s2)%nat ->
  memcmp s1 s2 n = Some 0 <-> firstn n s1 = firstn n s2.
Proof.
  revert s1 s2. induction n as [|n IH]; intros s1 s2 H1 H2; simpl.
  - split; reflexivity.
  - destruct s1 as [|c1 t1]; [simpl in H1; lia|].
    destruct s2 as [|c2 t2]; [simpl in H2; lia|].
    simpl in H1, H2.
    destruct (Ascii.eqb c1 c2) eqn:E.
    + apply Ascii.eqb_eq in E. subst c2.
      rewrite IH by lia. rewrite !firstn_cons.
      split; [intros Ht; f_equal; exact Ht | intros [=]; assumption].
    + split.
      * intros [= Hz]. exfalso. exact (ascii_diff_nonzero _ _ E Hz).
      * rewrite !firstn_cons. intros [= Hc _]. subst c2. rewrite Ascii.eqb_refl in E. discriminate.
Qed.

(** An answer of zero was found inside both arrays. *)
Lemma memcmp_zero_inv s1 s2 n :
  memcmp s1 s2 n = Some 0 ->
  (n <= length s1)%nat /\ (n <= length s2)%nat /\ firstn n s1 = firstn n s2.
Proof.
  revert s1 s2. induction n as [|n IH]; intros s1 s2 H; simpl in *.
  - repeat split; lia.
  - destruct s1 as [|c1 t1]; [destruct s2; discriminate|].
    destruct s2 as [|c2 t2]; [discriminate|].
    destruct (Ascii.eqb c1 c2) eqn:E.
    + apply Ascii.eqb_eq in E. subst c2.
      destruct (IH _ _ H) as (H1 & H2 & H3). simpl.
      repeat split; try lia. rewrite H3. reflexivity.
    + exfalso. injection H as H. exact (ascii_diff_nonzero _ _ E H).
Qed.

Lemma memcmp_prefix body rest :
  memcmp (body ++ rest) body (length body) = Some 0.
Proof.
  induction body as [|c t IH]; simpl; [reflexivity|].
  rewrite Ascii.eqb_refl. exact IH.
Qed.

(** The first pair of bytes that differ decides, wherever the arrays end
    behind it. *)
Lemma memcmp_differs a c1 t1 c2 t2 n :
  c1 <> c2 -> (length a < n)%nat ->
  memcmp (a ++ c1 :: t1) (a ++ c2 :: t2) n
  = Some (Z.of_nat (nat_of_ascii c1) - Z.of_nat (nat_of_ascii c2)) /\
  Z.of_nat (nat_of_ascii c1) - Z.of_nat (nat_of_ascii c2) <> 0.
Proof.
  intros Hne. split.
  - revert n H. induction a as [|c a IH]; intros n Hn;
      (destruct n as [|n]; [simpl in Hn; lia|]); simpl.
    + destruct (Ascii.eqb_spec c1 c2); [contradiction|reflexivity].
    + rewrite Ascii.eqb_refl. apply IH. simpl in Hn. lia.
  - apply ascii_diff_nonzero. apply Ascii.eqb_neq. exact Hne.
Qed.

(** Two texts differ at some place, or one begins with the other. *)
Lemma first_difference (x : list ascii) : forall y : list ascii,
  (exists a c1 t1 c2 t2, x = a ++ c1 :: t1 /\ y = a ++ c2 :: t2 /\ c1 <> c2) \/
  (exists u, y = x ++ u) \/ (exists u, x = y ++ u).
Proof.
  induction x as [|c x IH]; intros y.
  - right. left. exists y. reflexivity.
  - destruct y as [|d y].
    + right. right. exists (c :: x). reflexivity.
    + destruct (Ascii.eqb_spec c d) as [<-|Hcd].
      * destruct (IH y) as [(a & c1 & t1 & c2 & t2 & -> & -> & Hne)|[[u ->]|[u ->]]].
        -- left. exists (c :: a), c1, t1, c2, t2. auto.
        -- right. left. exists u. reflexivity.
        -- right. right. exists u. reflexivity.
      * left. exists [], c, x, d, y. auto.
Qed.

Lemma memcpy_length dst off src :
  0 <= off -> off + len src <= len dst ->
  length (memcpy dst off src) = length dst.
Proof.
  unfold memcpy, len. intros H0 H.
  rewrite !length_app, length_firstn, length_skipn. lia.
Qed.

Lemma memcpy_firstn dst off src :
  0 <= off <= len dst ->
  firstn (Z.to_nat (off + len src)) (memcpy dst off src)
  = firstn (Z.to_nat off) dst ++ src.
Proof.
  unfold memcpy, len. intros H.
  rewrite app_assoc.
  rewrite take_app_length'; [reflexivity|].
  rewrite length_app, length_firstn. lia.
Qed.

(** ** The buffers under [do_add_log_entry] *)

Lemma buffers_set_buffer_same l i b :
  buffers (set_buffer l i b) i = b.
Proof. unfold buffers, set_buffer. destruct (i =? 0); reflexivity. Qed.

Lemma buffers_set_buffer_other l i j b :
  (i =? 0) <> (j =? 0) -> buffers (set_buffer l i b) j = buffers l j.
Proof.
  unfold buffers, set_buffer. destruct (i =? 0), (j =? 0); intros H; try reflexivity; congruence.
Qed.

Lemma buffers_ok_current l :
  buffers_ok l ->
  0 <= offset (buffers l (currbuffer l)) <= buffersz l /\
  len (data (buffers l (currbuffer l))) = buffersz l.
Proof.
  intros (Hc & _ & H0 & H1). unfold buffers. destruct (currbuffer l =? 0); assumption.
Qed.

Lemma contents_append b msg :
  0 <= offset b <= len (data b) ->
  contents (mk_logbuffer (memcpy (data b) (offset b) msg) (offset b + len msg))
  = contents b ++ msg.
Proof.
  intros H. unfold contents. simpl. apply memcpy_firstn. exact H.
Qed.

(** With room in the current buffer the entry is copied behind what the
    buffer holds, whole, and nothing else changes. *)
Lemma do_add_log_entry_room l msg :
  buffers_ok l ->
  offset (buffers l (currbuffer l)) + len msg < buffersz l ->
  do_add_log_entry l msg
  = Done (set_buffer l (currbuffer l)
            (mk_logbuffer
               (memcpy (data (buffers l (currbuffer l)))
                       (offset (buffers l (currbuffer l))) msg)
               (offset (buffers l (currbuffer l)) + len msg))).
Proof.
  intros Hok Hroom.
  destruct (buffers_ok_current l Hok) as [Hoff Hlen].
  destruct Hok as (_ & Hsz & _).
  pose proof (len_nonneg msg) as Hm.
  unfold do_add_log_entry.
  rewrite size_t_small by lia.
  destruct (Z.geb_spec (offset (buffers l (currbuffer l)) + len msg) (buffersz l)); [lia|].
  reflexivity.
Qed.

(** Without room the call waits, and the buffers are as they were. *)
Lemma do_add_log_entry_full l msg :
  size_t (offset (buffers l (currbuffer l)) + len msg) >= buffersz l ->
  do_add_log_entry l msg
  = Waiting (if unit_test l then l else eprint l space_warning).
Proof.
  intros H. unfold do_add_log_entry.
  destruct (Z.geb_spec (size_t (offset (buffers l (currbuffer l)) + len msg)) (buffersz l)); [reflexivity|lia].
Qed.

Lemma set_buffer_ok l b :
  buffers_ok l ->
  0 <= offset b <= buffersz l -> len (data b) = buffersz l ->
  buffers_ok (set_buffer l (currbuffer l) b).
Proof.
  intros (Hc & Hsz & H0 & H1) Ho Hl. unfold buffers_ok, set_buffer.
  destruct (currbuffer l =? 0); simpl; auto.
Qed.

Lemma do_add_log_entry_ok l msg l' :
  buffers_ok l -> offset (buffers l (currbuffer l)) + len msg < buffersz l ->
  do_add_log_entry l msg = Done l' ->
  buffers_ok l' /\
  currbuffer l' = currbuffer l /\ buffersz l' = buffersz l /\
  lastlog l' = lastlog l /\ stderr l' = stderr l /\ run l' = run l /\
  contents (buffers l' (currbuffer l))
  = contents (buffers l (currbuffer l)) ++ msg /\
  buffers l' (other l) = buffers l (other l).
Proof.
  intros Hok Hroom. rewrite do_add_log_entry_room by assumption. intros [= <-].
  destruct (buffers_ok_current l Hok) as [Hoff Hlen].
  pose proof (len_nonneg msg) as Hm.
  split.
  { apply set_buffer_ok; simpl; [assumption|lia|].
    unfold len. rewrite memcpy_length; fold (len (data (buffers l (currbuffer l)))); lia. }
  rewrite buffers_set_buffer_same.
  rewrite contents_append by lia.
  rewrite buffers_set_buffer_other
    by (unfold other; destruct (currbuffer l =? 0); simpl; congruence).
  unfold set_buffer. destruct (currbuffer l =? 0); simpl; auto 10.
Qed.

(** ** The de-duplicator *)

Lemma skipn_len_app {A} (p body : list A) :
  skipn (Z.to_nat (len p)) (p ++ body) = body.
Proof. unfold len. rewrite Nat2Z.id. apply drop_app_length. Qed.

Lemma body_length (p body : list ascii) :
  len (p ++ body) < 512 ->
  Z.to_nat (size_t (len (p ++ body) - len p)) = length body.
Proof.
  intros H. rewrite len_app.
  pose proof (len_nonneg p). pose proof (len_nonneg body).
  rewrite len_app in H.
  rewrite size_t_small by lia. unfold len. lia.
Qed.

(** A record below 512 bytes is compared with the stored text from the
    stored offset on, over the length of the record's own body. *)
Lemma add_log_entry_short l p body :
  len (p ++ body) < 512 ->
  add_log_entry l (p ++ body) (len p)
  = match memcmp (skipn (Z.to_nat (lastlog_offset (lastlog l)))
                    (lastlog_memory (lastlog l))) body (length body) with
    | None => Undefined l
    | Some r =>
        if r =? 0
        then Done (set_lastlog l
                     (mk_lastlog (lastlog_buffer (lastlog l))
                        (int (lastlog_count (lastlog l) + 1))
                        (lastlog_offset (lastlog l))))
        else flush_last_log l >>> fun s =>
             do_add_log_entry s (p ++ body) >>> fun s =>
             Done (set_lastlog s
                     (mk_lastlog (memcpy (lastlog_buffer (lastlog s)) 0 (p ++ body))
                        0 (len p)))
    end.
Proof.
  intros H. unfold add_log_entry.
  destruct (Z.ltb_spec (len (p ++ body)) 512); [|lia].
  rewrite skipn_len_app, body_length by assumption. reflexivity.
Qed.

(** What stands in the array from the stored offset on stands there in
    the memory of [lastlog]. *)
Lemma lastlog_memory_from ll body rest :
  skipn (Z.to_nat (lastlog_offset ll)) (lastlog_buffer ll) = body ++ rest ->
  exists rest',
    skipn (Z.to_nat (lastlog_offset ll)) (lastlog_memory ll) = body ++ rest'.
Proof.
  intros H. unfold lastlog_memory. rewrite skipn_app, H, <- app_assoc. eauto.
Qed.

(** [do_add_log_entry] and [flush_last_log] read no memory but the
    buffers'. *)
Lemma do_add_log_entry_defined l msg l' : do_add_log_entry l msg <> Undefined l'.
Proof. unfold do_add_log_entry. destruct (_ >=? _); discriminate. Qed.

Lemma flush_last_log_defined l l' : flush_last_log l <> Undefined l'.
Proof.
  unfold flush_last_log. destruct (_ >? 1); [|discriminate].
  apply do_add_log_entry_defined.
Qed.

(** Once a record is stored, its body is what the comparison finds. *)
Lemma stored_body buf p body :
  skipn (Z.to_nat (len p)) (memcpy buf 0 (p ++ body))
  = body ++ skipn (0 + length (p ++ body)) buf.
Proof.
  unfold memcpy. simpl. rewrite <- app_assoc. apply skipn_len_app.
Qed.

Lemma flush_last_log_pending l :
  buffers_ok l ->
  offset (buffers l (currbuffer l)) + len (pending_summary l) < buffersz l ->
  exists l', flush_last_log l = Done l' /\
    buffers_ok l' /\
    currbuffer l' = currbuffer l /\ buffersz l' = buffersz l /\
    lastlog l' = lastlog l /\ stderr l' = stderr l /\ run l' = run l /\
    contents (buffers l' (currbuffer l))
    = contents (buffers l (currbuffer l)) ++ pending_summary l /\
    buffers l' (other l) = buffers l (other l).
Proof.
  intros Hok Hroom. unfold flush_last_log, pending_summary in *.
  destruct (lastlog_count (lastlog l) >? 1).
  - destruct (do_add_log_entry l (repeated_line (lastlog_count (lastlog l)))) as [l'|l'|l'] eqn:E.
    + exists l'. split; [reflexivity|].
      eapply do_add_log_entry_ok; eassumption.
    + rewrite do_add_log_entry_room in E by assumption. discriminate.
    + rewrite do_add_log_entry_room in E by assumption. discriminate.
  - exists l. rewrite app_nil_r. auto 10.
Qed.

(** A repeat of the stored body only counts. *)
Lemma add_log_entry_repeat l p body rest :
  len (p ++ body) < 512 ->
  skipn (Z.to_nat (lastlog_offset (lastlog l))) (lastlog_buffer (lastlog l))
  = body ++ rest ->
  add_log_entry l (p ++ body) (len p)
  = Done (set_lastlog l
            (mk_lastlog (lastlog_buffer (lastlog l))
               (int (lastlog_count (lastlog l) + 1))
               (lastlog_offset (lastlog l)))).
Proof.
  intros Hlen Hst. rewrite add_log_entry_short by assumption.
  destruct (lastlog_memory_from _ _ _ Hst) as [rest' ->].
  rewrite memcmp_prefix. reflexivity.
Qed.

Lemma log_run_repeats body rest ps : forall l,
  Forall (fun q => len (q ++ body) < 512) ps ->
  skipn (Z.to_nat (lastlog_offset (lastlog l))) (lastlog_buffer (lastlog l))
  = body ++ rest ->
  0 <= lastlog_count (lastlog l) ->
  lastlog_count (lastlog l) + len ps < 2 ^ 31 ->
  log_run l body ps
  = Done (set_lastlog l
            (mk_lastlog (lastlog_buffer (lastlog l))
               (lastlog_count (lastlog l) + len ps)
               (lastlog_offset (lastlog l)))).
Proof.
  induction ps as [|q ps IH]; intros l Hall Hst Hc Hmax.
  - simpl. unfold len. simpl. rewrite Z.add_0_r.
    destruct l as [? ? ? ? ? ? ? ? ? ? [? ? ?] ? ?]. reflexivity.
  - inversion Hall as [|? ? Hq Hps]; subst.
    assert (Hl : len (q :: ps) = 1 + len ps) by (unfold len; simpl; lia).
    rewrite Hl in Hmax. pose proof (len_nonneg ps).
    simpl. rewrite (add_log_entry_repeat l q body rest) by assumption.
    simpl. rewrite IH; simpl; try assumption.
    + rewrite int_small by lia. rewrite Hl. f_equal. f_equal. f_equal. lia.
    + rewrite int_small by lia. lia.
    + rewrite int_small by lia. lia.
Qed.

(** ** Texts *)

Lemma c_str_cons_inv c t : c_str (c :: t) = c :: t -> c <> NUL /\ c_str t = t.
Proof.
  simpl. destruct (Ascii.eqb c NUL) eqn:E; [discriminate|].
  intros [= H]. split; [|exact H].
  intros ->. rewrite Ascii.eqb_refl in E. discriminate.
Qed.

Lemma c_str_app a b : c_str a = a -> c_str (a ++ b) = a ++ c_str b.
Proof.
  induction a as [|c t IH]; intros H; [reflexivity|].
  destruct (c_str_cons_inv c t H) as [Hc Ht].
  simpl. destruct (Ascii.eqb c NUL) eqn:E.
  - apply Ascii.eqb_eq in E. contradiction.
  - rewrite IH by exact Ht. reflexivity.
Qed.

Lemma c_str_idem s : c_str (c_str s) = c_str s.
Proof.
  induction s as [|c t IH]; [reflexivity|]. simpl.
  destruct (Ascii.eqb c NUL) eqn:E; [reflexivity|].
  simpl. rewrite E, IH. reflexivity.
Qed.

Lemma c_str_firstn n s : c_str s = s -> c_str (firstn n s) = firstn n s.
Proof.
  revert s. induction n as [|n IH]; intros s H; [reflexivity|].
  destruct s as [|c t]; [reflexivity|].
  destruct (c_str_cons_inv c t H) as [Hc Ht].
  rewrite firstn_cons. simpl. destruct (Ascii.eqb c NUL) eqn:E.
  - apply Ascii.eqb_eq in E. contradiction.
  - rewrite IH by exact Ht. reflexivity.
Qed.

Lemma c_str_repeat c n : c <> NUL -> c_str (repeat c n) = repeat c n.
Proof.
  intros Hc. induction n as [|n IH]; [reflexivity|]. simpl.
  destruct (Ascii.eqb c NUL) eqn:E.
  - apply Ascii.eqb_eq in E. contradiction.
  - rewrite IH. reflexivity.
Qed.

Lemma digit_c_str d t : 0 <= d < 10 -> c_str (digit d :: t) = digit d :: c_str t.
Proof.
  intros H.
  assert (Hd : d = 0 \/ d = 1 \/ d = 2 \/ d = 3 \/ d = 4 \/ d = 5 \/ d = 6
               \/ d = 7 \/ d = 8 \/ d = 9) by lia.
  repeat (destruct Hd as [-> | Hd]; [reflexivity|]). subst d. reflexivity.
Qed.

Lemma utoa_c_str fuel : forall n acc,
  c_str acc = acc -> c_str (utoa fuel n acc) = utoa fuel n acc.
Proof.
  induction fuel as [|fuel IH]; intros n acc Hacc; simpl; [exact Hacc|].
  assert (Hd : c_str (digit (n mod 10) :: acc) = digit (n mod 10) :: acc).
  { rewrite digit_c_str by (apply Z.mod_pos_bound; lia). rewrite Hacc. reflexivity. }
  destruct (n / 10 =? 0); [exact Hd|]. apply IH. exact Hd.
Qed.

Lemma utoa_length fuel : forall n acc,
  (length (utoa fuel n acc) <= fuel + length acc)%nat.
Proof.
  induction fuel as [|fuel IH]; intros n acc; simpl; [lia|].
  destruct (n / 10 =? 0); simpl; [lia|].
  specialize (IH (n / 10) (digit (n mod 10) :: acc)). simpl in IH. lia.
Qed.

Lemma fmt_u_c_str v : c_str (fmt_u v) = fmt_u v.
Proof. apply utoa_c_str. reflexivity. Qed.

Lemma fmt_u_length v : len (fmt_u v) <= 10.
Proof. unfold len, fmt_u. pose proof (utoa_length 10 (uint v) []). simpl in *. lia. Qed.

(** The text of [flush_last_log] always fits its 80-byte scratch buffer. *)
Lemma repeated_line_fits count : len (repeated_line count) < 80.
Proof.
  unfold repeated_line. rewrite !len_app.
  pose proof (fmt_u_length count). unfold len at 1 3 4. simpl. lia.
Qed.

Lemma fmt_06u_c_str v : c_str (fmt_06u v) = fmt_06u v.
Proof.
  unfold fmt_06u. rewrite c_str_app by (apply c_str_repeat; discriminate).
  rewrite fmt_u_c_str. reflexivity.
Qed.

Lemma timestamp_c_str tv_sec tv_usec str tz :
  c_str (timestamp tv_sec tv_usec str tz) = timestamp tv_sec tv_usec str tz.
Proof.
  unfold timestamp. destruct str as [str|].
  - rewrite c_str_app by (apply c_str_firstn, c_str_idem).
    rewrite (c_str_app (chars ".")) by reflexivity.
    rewrite c_str_app by apply fmt_06u_c_str.
    rewrite (c_str_app (chars " ")) by reflexivity.
    rewrite c_str_idem. reflexivity.
  - rewrite c_str_app by apply fmt_u_c_str.
    rewrite (c_str_app (chars ".")) by reflexivity.
    rewrite fmt_06u_c_str. reflexivity.
Qed.

Lemma severity2string_c_str sev : c_str (severity2string sev) = severity2string sev.
Proof.
  unfold severity2string.
  repeat match goal with |- context [if ?b then _ else _] => destruct b end; reflexivity.
Qed.

Lemma severity_tag_c_str pretty sev :
  c_str (severity_tag pretty sev) = severity_tag pretty sev.
Proof.
  unfold severity_tag. destruct pretty.
  - rewrite (c_str_app (chars " ")) by reflexivity.
    rewrite c_str_app by apply severity2string_c_str. reflexivity.
  - rewrite (c_str_app (chars " ")) by reflexivity.
    rewrite c_str_app by apply fmt_u_c_str. reflexivity.
Qed.

(** The severity tag ends in a blank, whatever the severity. *)
Lemma severity_tag_ends pretty sev :
  exists t, severity_tag pretty sev = t ++ [" "%char].
Proof.
  unfold severity_tag. destruct pretty.
  - exists (chars " " ++ severity2string sev ++ chars ":").
    rewrite <- !app_assoc. reflexivity.
  - exists (chars " " ++ fmt_u sev ++ chars ":").
    rewrite <- !app_assoc. reflexivity.
Qed.

Lemma trailing_newlines_rev_stop a c b :
  c <> LF -> trailing_newlines_rev (a ++ c :: b) = trailing_newlines_rev a.
Proof.
  intros Hc. induction a as [|x a IH]; simpl.
  - destruct (Ascii.eqb c LF) eqn:E; [|reflexivity].
    apply Ascii.eqb_eq in E. contradiction.
  - destruct (Ascii.eqb x LF); [rewrite IH|]; reflexivity.
Qed.

Lemma trailing_newlines_after_blank t msg :
  trailing_newlines ((t ++ [" "%char]) ++ msg) = trailing_newlines msg.
Proof.
  unfold trailing_newlines. rewrite !rev_app_distr. simpl.
  apply trailing_newlines_rev_stop. discriminate.
Qed.

Lemma last_LF_iff text :
  Ascii.eqb (List.last text NUL) LF = negb (Nat.eqb (trailing_newlines text) 0).
Proof.
  unfold trailing_newlines.
  destruct (rev text) as [|c r] eqn:E.
  - apply (f_equal (@rev ascii)) in E. rewrite rev_involutive in E. subst text. reflexivity.
  - apply (f_equal (@rev ascii)) in E. rewrite rev_involutive in E. subst text.
    simpl. rewrite List.last_last. destruct (Ascii.eqb c LF); reflexivity.
Qed.

Lemma terminate_line_spec text :
  terminate_line text
  = text ++ (if Nat.eqb (trailing_newlines text) 0 then [LF] else []).
Proof.
  unfold terminate_line. rewrite last_LF_iff.
  destruct (Nat.eqb (trailing_newlines text) 0); simpl; [reflexivity|].
  rewrite app_nil_r. reflexivity.
Qed.

Lemma trailing_newlines_terminate text :
  trailing_newlines (terminate_line text) = Nat.max 1 (trailing_newlines text).
Proof.
  rewrite terminate_line_spec.
  destruct (Nat.eqb_spec (trailing_newlines text) 0) as [E|E].
  - rewrite E. unfold trailing_newlines in *. rewrite rev_app_distr. simpl.
    rewrite E. reflexivity.
  - rewrite app_nil_r. lia.
Qed.

(** ** The formatter *)

(** [logger_log] once the time has been read, for a prefix that fits the
    scratch buffer: the record is the prefix, the text and a newline where
    the text has none at its end; it is dropped when prefix and text reach
    2047 bytes. *)
Lemma logger_log_formatted l severity tv_sec tv_usec str tz msg :
  len (prefix_of l severity tv_sec tv_usec str tz) <= 2047 ->
  logger_log l severity (TodOk tv_sec tv_usec str tz) msg
  = if (severity >=? current_log_level l) || (severity >=? output_level l) then
      if len msg <? 2047 - len (prefix_of l severity tv_sec tv_usec str tz) then
        let record :=
          terminate_line (prefix_of l severity tv_sec tv_usec str tz ++ msg) in
        let l1 := if severity >=? output_level l
                  then eprint l (c_str record) else l in
        if severity >=? current_log_level l
        then add_log_entry l1 record (len (prefix_of l severity tv_sec tv_usec str tz))
        else Done l1
      else Done (eprint l dropped_line)
    else Done l.
Proof.
  intros Hfit. unfold logger_log, prefix_of in *.
  destruct ((severity >=? current_log_level l) || (severity >=? output_level l));
    [|reflexivity].
  rewrite len_app in Hfit.
  pose proof (len_nonneg (timestamp tv_sec tv_usec str tz)) as Ht.
  pose proof (len_nonneg (severity_tag (prettyprint l) severity)) as Hs.
  rewrite (int_small (len (timestamp tv_sec tv_usec str tz))) by lia.
  rewrite int_small by lia.
  replace (2048 - 1) with 2047 by reflexivity.
  rewrite size_t_small by lia.
  rewrite len_app, <- app_assoc.
  destruct (len msg <? 2047 - (len (timestamp tv_sec tv_usec str tz)
                               + len (severity_tag (prettyprint l) severity)));
    [|reflexivity].
  cbv zeta. destruct (severity >=? output_level l); reflexivity.
Qed.

Lemma do_add_log_entry_stderr l msg :
  exists w, stderr (state_of (do_add_log_entry l msg)) = stderr l ++ w /\
    (w = [] \/ w = space_warning) /\
    (forall l', do_add_log_entry l msg = Done l' -> w = []).
Proof.
  unfold do_add_log_entry.
  destruct (size_t (offset (buffers l (currbuffer l)) + len msg) >=? buffersz l).
  - destruct (unit_test l); simpl.
    + exists []. rewrite app_nil_r. split; [reflexivity|]. split; [auto|discriminate].
    + exists space_warning. split; [reflexivity|]. split; [auto|discriminate].
  - exists []. simpl. rewrite app_nil_r.
    unfold set_buffer. destruct (currbuffer l =? 0); simpl; auto.
Qed.

Lemma flush_last_log_stderr l :
  exists w, stderr (state_of (flush_last_log l)) = stderr l ++ w /\
    (w = [] \/ w = space_warning) /\
    (forall l', flush_last_log l = Done l' -> w = []).
Proof.
  unfold flush_last_log. destruct (lastlog_count (lastlog l) >? 1).
  - apply do_add_log_entry_stderr.
  - exists []. simpl. rewrite app_nil_r. auto.
Qed.

(** [add_log_entry] writes nothing to the console unless it has to wait,
    and then only the warning of [do_add_log_entry]. *)
Lemma add_log_entry_stderr l msg prefixlen :
  exists w, stderr (state_of (add_log_entry l msg prefixlen)) = stderr l ++ w /\
    (w = [] \/ w = space_warning) /\
    (forall l', add_log_entry l msg prefixlen = Done l' -> w = []).
Proof.
  unfold add_log_entry.
  destruct (len msg <? 512).
  - destruct (memcmp _ _ _) as [r|];
      [|exists []; simpl; rewrite app_nil_r; auto].
    destruct (r =? 0).
    + exists []. simpl. rewrite app_nil_r. auto.
    + destruct (flush_last_log_stderr l) as (w1 & H1 & Hw1 & Hd1).
      destruct (flush_last_log l) as [l1|l1|l1]; simpl in *.
      * specialize (Hd1 l1 eq_refl). subst w1. rewrite app_nil_r in H1.
        destruct (do_add_log_entry_stderr l1 msg) as (w2 & H2 & Hw2 & Hd2).
        destruct (do_add_log_entry l1 msg) as [l2|l2|l2]; simpl in *.
        -- exists w2. rewrite H2, H1. split; [reflexivity|]. split; [assumption|].
           intros _ _. exact (Hd2 l2 eq_refl).
        -- exists w2. rewrite H2, H1. split; [reflexivity|]. split; [assumption|discriminate].
        -- exists w2. rewrite H2, H1. split; [reflexivity|]. split; [assumption|discriminate].
      * exists w1. split; [assumption|]. split; [assumption|discriminate].
      * exists w1. split; [assumption|]. split; [assumption|discriminate].
  - destruct (flush_last_log_stderr l) as (w1 & H1 & Hw1 & Hd1).
    destruct (flush_last_log l) as [l1|l1|l1]; simpl in *.
    + specialize (Hd1 l1 eq_refl). subst w1. rewrite app_nil_r in H1.
      match goal with |- context [do_add_log_entry ?x msg] =>
        destruct (do_add_log_entry_stderr x msg) as (w2 & H2 & Hw2 & Hd2) end.
      simpl in H2. exists w2. rewrite H2, H1. split; [reflexivity|].
      split; [assumption|]. exact Hd2.
    + exists w1. split; [assumption|]. split; [assumption|discriminate].
    + exists w1. split; [assumption|]. split; [assumption|discriminate].
Qed.

(** ** The write loop of [flush_pending_io] *)

Lemma taken_nonneg dev k : forall start, 0 <= taken dev start k.
Proof. induction k as [|k IH]; intros start; simpl; [lia|]. specialize (IH (S start)). lia. Qed.

Lemma write_file_nil f : write_file [] f = f.
Proof. destruct f. unfold write_file. simpl. rewrite app_nil_r. reflexivity. Qed.

Lemma write_file_app b1 b2 f :
  write_file b2 (write_file b1 f) = write_file (b1 ++ b2) f.
Proof. unfold write_file. simpl. rewrite app_assoc. reflexivity. Qed.

(** A call the device refuses (zero bytes taken, or an error) costs a call
    and changes nothing else: the loop goes round with the same pointer
    and the same count. *)
Lemma write_pending_retry dev fuel st h ptr towrite :
  0 < towrite ->
  write_result dev (writes st) <= 0 ->
  write_pending dev (S fuel) st h ptr towrite
  = write_pending dev fuel
      (mk_storage (files st) (created st) (open_handles st) (S (writes st))
         (opens st)) h ptr towrite.
Proof.
  intros Hpos Hr. simpl. unfold iops_write.
  destruct (Z.gtb_spec towrite 0); [|lia].
  destruct (Z.gtb_spec (write_result dev (writes st)) 0); [lia|].
  destruct (write_result dev (writes st) <? 0); reflexivity.
Qed.

(** A call that takes [n] bytes moves the pointer and the count by [n]. *)
Lemma write_pending_progress dev fuel st h ptr towrite :
  0 < towrite < 2 ^ 31 ->
  0 < write_result dev (writes st) ->
  write_pending dev (S fuel) st h ptr towrite
  = write_pending dev fuel
      (mk_storage
         (alter (write_file
                   (firstn (Z.to_nat (Z.min (write_result dev (writes st)) towrite)) ptr))
            h (files st))
         (created st) (open_handles st) (S (writes st)) (opens st))
      h (skipn (Z.to_nat (Z.min (write_result dev (writes st)) towrite)) ptr)
      (towrite - Z.min (write_result dev (writes st)) towrite).
Proof.
  intros Hpos Hr. simpl. unfold iops_write.
  destruct (Z.gtb_spec towrite 0); [|lia].
  destruct (Z.gtb_spec (write_result dev (writes st)) 0); [|lia].
  rewrite int_small by lia.
  destruct (Z.gtb_spec (Z.min (write_result dev (writes st)) towrite) 0); [|lia].
  rewrite size_t_small by lia. reflexivity.
Qed.

(** When the loop ends, the file has gained exactly the [towrite] bytes at
    [ptr], and as many bytes were on offer from the device. *)
Lemma write_pending_effect dev fuel : forall st h ptr towrite st',
  0 <= towrite <= len ptr -> towrite < 2 ^ 31 ->
  write_pending dev fuel st h ptr towrite = Some st' ->
  files st' = alter (write_file (firstn (Z.to_nat towrite) ptr)) h (files st) /\
  created st' = created st /\ open_handles st' = open_handles st /\
  opens st' = opens st /\
  towrite <= taken dev (writes st) fuel.
Proof.
  induction fuel as [|fuel IH]; intros st h ptr towrite st' Hrange Hmax Hrun.
  - simpl in Hrun. destruct (Z.gtb_spec towrite 0); [discriminate|].
    injection Hrun as <-. assert (towrite = 0) by lia. subst towrite. simpl.
    rewrite alter_id by (intros; apply write_file_nil). auto 10 with lia.
  - destruct (Z.eq_dec towrite 0) as [->|Hnz].
    { simpl in Hrun. injection Hrun as <-. simpl firstn.
      rewrite alter_id by (intros; apply write_file_nil).
      pose proof (taken_nonneg dev (S fuel) (writes st)). auto 10. }
    destruct (Z_le_gt_dec (write_result dev (writes st)) 0) as [Hr|Hr].
    + rewrite write_pending_retry in Hrun by lia.
      apply IH in Hrun; [|assumption..]. simpl in Hrun.
      destruct Hrun as (Hf & Hc & Ho & Hn & Ht).
      cbn [taken]. repeat split; try assumption. lia.
    + rewrite write_pending_progress in Hrun by lia.
      set (n := Z.min (write_result dev (writes st)) towrite) in *.
      assert (Hn : 0 < n <= towrite) by (unfold n; lia).
      apply IH in Hrun; [|unfold len in *; rewrite length_skipn; lia|lia].
      simpl in Hrun. destruct Hrun as (Hf & Hc & Ho & Hop & Ht).
      cbn [taken]. repeat split; try assumption; [|unfold n in *; lia].
      rewrite Hf, alter_alter_eq. apply alter_ext. intros f _. simpl.
      rewrite write_file_app. f_equal.
      rewrite take_take_drop. f_equal. lia.
Qed.

(** The loop ends within [fuel] calls as soon as the device offers the
    bytes within that many calls. *)
Lemma write_pending_terminates dev fuel : forall st h ptr towrite,
  0 <= towrite < 2 ^ 31 ->
  towrite <= taken dev (writes st) fuel ->
  exists st', write_pending dev fuel st h ptr towrite = Some st'.
Proof.
  induction fuel as [|fuel IH]; intros st h ptr towrite Hrange Htaken.
  - simpl in *. destruct (Z.gtb_spec towrite 0); [lia|]. eauto.
  - destruct (Z.eq_dec towrite 0) as [->|Hnz]; [simpl; eauto|].
    cbn [taken] in Htaken.
    destruct (Z_le_gt_dec (write_result dev (writes st)) 0) as [Hr|Hr].
    + rewrite write_pending_retry by lia. apply IH; [assumption|]. simpl. lia.
    + rewrite write_pending_progress by lia. apply IH; [lia|]. simpl.
      pose proof (taken_nonneg dev fuel (S (writes st))). lia.
Qed.

(** On a device whose every [write] fails the loop never ends. *)
Lemma write_pending_stuck fuel : forall st h ptr towrite,
  0 < towrite ->
  write_pending failing_device fuel st h ptr towrite = None.
Proof.
  induction fuel as [|fuel IH]; intros st h ptr towrite Hpos.
  - simpl. destruct (Z.gtb_spec towrite 0); [reflexivity|lia].
  - rewrite write_pending_retry by (simpl; lia). apply IH. exact Hpos.
Qed.

(** ** The storage under the flusher *)

Lemma logbuffer_eta b : mk_logbuffer (data b) (offset b) = b.
Proof. destruct b. reflexivity. Qed.

Lemma set_buffer_same l i : set_buffer l i (buffers l i) = l.
Proof. unfold set_buffer, buffers. destruct l. destruct (i =? 0); reflexivity. Qed.

Lemma write_pending_frame dev fuel : forall st h ptr towrite st',
  write_pending dev fuel st h ptr towrite = Some st' ->
  (exists g, files st' = alter g h (files st)) /\
  created st' = created st /\ open_handles st' = open_handles st /\
  opens st' = opens st.
Proof.
  induction fuel as [|fuel IH]; intros st h ptr towrite st' Hrun; simpl in Hrun.
  - destruct (towrite >? 0); [discriminate|]. injection Hrun as <-.
    split; [|auto]. exists (fun f => f). symmetry. apply alter_id. reflexivity.
  - destruct (towrite >? 0).
    + unfold iops_write in Hrun.
      destruct (write_result dev (writes st) >? 0).
      * destruct (int _ >? 0); apply IH in Hrun; simpl in Hrun;
          destruct Hrun as ((g & Hg) & Hc & Ho & Hn); (split; [|auto]);
          eexists; rewrite Hg, alter_alter_eq; reflexivity.
      * destruct (int _ >? 0); apply IH in Hrun; simpl in Hrun; exact Hrun.
    + injection Hrun as <-.
      split; [|auto]. exists (fun f => f). symmetry. apply alter_id. reflexivity.
Qed.

(** What [flush_pending_io] does to the variables: the buffer it was given
    is empty afterwards, and the value returned is the offset it had. *)
Lemma flush_pending_io_shared dev fuel s file this n s' :
  0 <= offset (buffers (shared s) this) ->
  flush_pending_io dev fuel s file this = Some (n, s') ->
  n = offset (buffers (shared s) this) /\
  s' = mk_system
         (set_buffer (shared s) this
            (mk_logbuffer (data (buffers (shared s) this)) 0))
         (pc s) (fp s) (currsize s) (next_id s) (arg s) (disk s').
Proof.
  intros Hpos. unfold flush_pending_io.
  destruct (Z.gtb_spec (offset (buffers (shared s) this)) 0) as [Hgt|Hle].
  - destruct file as [h|]; [|discriminate].
    destruct (write_pending _ _ _ _ _ _); [|discriminate].
    intros [= <- <-]. split; reflexivity.
  - intros [= <- <-]. assert (H0 : offset (buffers (shared s) this) = 0) by lia.
    split; [congruence|].
    rewrite <- H0, logbuffer_eta, set_buffer_same. destruct s; reflexivity.
Qed.

(** What it does to the storage: only the file behind the handle changes,
    and nothing of it is left unflushed. *)
Lemma flush_pending_io_frame dev fuel s h this n s' f :
  flush_pending_io dev fuel s (Some h) this = Some (n, s') ->
  files (disk s) !! h = Some f -> unflushed f = [] ->
  (exists f', files (disk s') = <[h := f']> (files (disk s)) /\ unflushed f' = []) /\
  created (disk s') = created (disk s) /\
  open_handles (disk s') = open_handles (disk s) /\
  opens (disk s') = opens (disk s).
Proof.
  unfold flush_pending_io.
  destruct (offset (buffers (shared s) this) >? 0).
  - destruct (write_pending _ _ _ _ _ _) as [st|] eqn:E; [|discriminate].
    intros [= _ <-] Hf Hu. simpl.
    destruct (write_pending_frame _ _ _ _ _ _ _ E) as ((g & Hg) & Hc & Ho & Hn).
    split; [|auto].
    exists (flush_file (g f)). split; [|reflexivity].
    rewrite Hg, alter_alter_eq. exact (alter_alt_Some (flush_file ∘ g) _ _ _ Hf).
  - intros [= _ <-] Hf Hu. split; [|auto].
    exists f. split; [|exact Hu]. symmetry. apply insert_id. exact Hf.
Qed.

(** With a buffer below 2 GiB, so that the [int] holding the result of
    [write] is wide enough, the file gains exactly the buffer's bytes. *)
Lemma flush_pending_io_bytes dev fuel s h this n s' f :
  flush_pending_io dev fuel s (Some h) this = Some (n, s') ->
  0 <= offset (buffers (shared s) this) <= len (data (buffers (shared s) this)) ->
  offset (buffers (shared s) this) < 2 ^ 31 ->
  files (disk s) !! h = Some f -> unflushed f = [] ->
  files (disk s')
  = <[h := mk_file (stored f ++ contents (buffers (shared s) this)) []]>
      (files (disk s)).
Proof.
  unfold flush_pending_io.
  destruct (Z.gtb_spec (offset (buffers (shared s) this)) 0).
  - destruct (write_pending _ _ _ _ _ _) as [st|] eqn:E; [|discriminate].
    intros [= _ <-] Hr Hm Hf Hu. simpl.
    destruct (write_pending_effect _ _ _ _ _ _ _ Hr Hm E) as (Hg & _).
    rewrite Hg, alter_alter_eq.
    rewrite (alter_alt_Some _ _ _ _ Hf). f_equal.
    unfold flush_file, write_file, contents. simpl. rewrite Hu. reflexivity.
  - intros [= _ <-] Hr Hm Hf Hu.
    assert (H0 : offset (buffers (shared s) this) = 0) by lia.
    unfold contents. rewrite H0. simpl. rewrite app_nil_r.
    symmetry. rewrite <- Hu. destruct f. apply insert_id. exact Hf.
Qed.

Lemma file_bytes_insert_ne st st' h f n :
  files st' = <[h := f]> (files st) -> n <> h ->
  file_bytes st' n = file_bytes st n.
Proof.
  intros Hf Hn. unfold file_bytes. rewrite Hf, lookup_insert_ne by congruence.
  reflexivity.
Qed.

Lemma file_bytes_insert st st' h f :
  files st' = <[h := f]> (files st) -> file_bytes st' h = stored f.
Proof.
  intros Hf. unfold file_bytes. rewrite Hf, lookup_insert_eq. reflexivity.
Qed.

Lemma map_file_bytes_other st st' h f l :
  files st' = <[h := f]> (files st) -> h ∉ l ->
  map (file_bytes st') l = map (file_bytes st) l.
Proof.
  intros Hf Hn. apply map_ext_in. intros n Hin.
  apply (file_bytes_insert_ne st st' h f); [exact Hf|].
  intros ->. apply Hn. apply list_elem_of_In. exact Hin.
Qed.

(** Bytes added to the newest file are added at the end of the persisted
    output. *)
Lemma persisted_grows st st' h f bytes :
  last (created st) = Some h -> NoDup (created st) ->
  created st' = created st ->
  files st' = <[h := f]> (files st) ->
  stored f = file_bytes st h ++ bytes ->
  persisted st' = persisted st ++ bytes.
Proof.
  intros Hlast Hnd Hc Hf Hs. unfold persisted. rewrite Hc.
  apply last_Some in Hlast as [l Hl]. rewrite Hl in *.
  apply NoDup_app in Hnd as (_ & Hdis & _).
  assert (Hnot : h ∉ l).
  { intros Hin. apply (Hdis h Hin). apply list_elem_of_In. left. reflexivity. }
  rewrite !map_app, !concat_app. simpl. rewrite !app_nil_r.
  rewrite (map_file_bytes_other st st' h f l Hf Hnot).
  rewrite (file_bytes_insert st st' h f Hf), Hs, app_assoc. reflexivity.
Qed.

Lemma persisted_same st st' :
  created st' = created st ->
  (forall n, n ∈ created st -> file_bytes st' n = file_bytes st n) ->
  persisted st' = persisted st.
Proof.
  intros Hc Hb. unfold persisted. rewrite Hc. f_equal.
  apply map_ext_in. intros n Hin. apply Hb. apply list_elem_of_In. exact Hin.
Qed.

(** ** Opening and closing log files *)

Lemma uint_succ id k : uint (uint (id + k) + 1) = uint (id + (k + 1)).
Proof. unfold uint. rewrite Z.add_mod_idemp_l by lia. f_equal. lia. Qed.

Lemma access_false st name : access st name = false -> files st !! name = None.
Proof.
  unfold access. intros H. apply bool_decide_eq_false in H.
  destruct (files st !! name); [exfalso; apply H; eauto|reflexivity].
Qed.

Lemma access_true st name : access st name = true -> is_Some (files st !! name).
Proof. unfold access. intros H. apply bool_decide_eq_true in H. exact H. Qed.

(** The probe settles on the first name from [id] on that no file has. *)
Lemma open_logfile_probe_spec fuel : forall st fnm id name id',
  0 <= id < 2 ^ 32 ->
  open_logfile_probe fuel st fnm id = Some (name, id') ->
  exists k : nat,
    (k < fuel)%nat /\
    name = logfile_name fnm (uint (id + Z.of_nat k)) /\
    id' = uint (id + Z.of_nat k + 1) /\
    files st !! name = None /\
    (forall j : nat, (j < k)%nat ->
       is_Some (files st !! logfile_name fnm (uint (id + Z.of_nat j)))).
Proof.
  induction fuel as [|fuel IH]; intros st fnm id name id' Hid Hp; [discriminate|].
  simpl in Hp. destruct (access st (logfile_name fnm id)) eqn:Ha.
  - apply IH in Hp; [|unfold uint; apply Z.mod_pos_bound; lia].
    destruct Hp as (k & Hk & Hn & Hi & Hf & Hj).
    exists (S k). split; [lia|].
    replace (id + Z.of_nat (S k)) with (id + 1 + Z.of_nat k) by lia.
    assert (Hu : forall j, uint (uint (id + 1) + j) = uint (id + 1 + j)).
    { intros j. unfold uint. rewrite Z.add_mod_idemp_l by lia. reflexivity. }
    rewrite Hu in Hn.
    split; [exact Hn|]. split.
    { rewrite Hi. unfold uint. rewrite <- Z.add_assoc, Z.add_mod_idemp_l by lia.
      f_equal. lia. }
    split; [exact Hf|].
    intros [|j] Hlt.
    + rewrite Z.add_0_r, uint_small by lia. apply access_true. exact Ha.
    + replace (id + Z.of_nat (S j)) with (id + 1 + Z.of_nat j) by lia.
      rewrite <- Hu. apply Hj. lia.
  - injection Hp as <- <-. exists O. split; [lia|].
    rewrite Z.add_0_r, uint_small by lia.
    split; [reflexivity|]. split; [reflexivity|].
    split; [apply access_false; exact Ha|]. intros j Hj. lia.
Qed.

(** The probe ends as soon as it is allowed one call more than there are
    names taken from [id] on. *)
Lemma open_logfile_probe_terminates fuel : forall st fnm id,
  0 <= id < 2 ^ 32 ->
  (exists k : nat, (k < fuel)%nat /\
     files st !! logfile_name fnm (uint (id + Z.of_nat k)) = None) ->
  exists r, open_logfile_probe fuel st fnm id = Some r.
Proof.
  induction fuel as [|fuel IH]; intros st fnm id Hid (k & Hk & Hfree); [lia|].
  simpl. destruct (access st (logfile_name fnm id)) eqn:Ha; [|eauto].
  apply IH; [unfold uint; apply Z.mod_pos_bound; lia|].
  destruct k as [|k].
  - rewrite Z.add_0_r, uint_small in Hfree by lia.
    apply access_true in Ha. rewrite Hfree in Ha. destruct Ha; discriminate.
  - exists k. split; [lia|].
    replace (id + Z.of_nat (S k)) with (id + 1 + Z.of_nat k) in Hfree by lia.
    unfold uint in *. rewrite Z.add_mod_idemp_l by lia. exact Hfree.
Qed.

(** [open_logfile]: the name is new; on success the file is created empty
    and becomes the newest, on failure only the console changes. *)
Lemma open_logfile_spec dev fuel s ret s1 :
  0 <= next_id s < 2 ^ 32 ->
  open_logfile dev fuel s = Some (ret, s1) ->
  exists (k : nat) name,
    name = logfile_name (arg s) (uint (next_id s + Z.of_nat k)) /\
    files (disk s) !! name = None /\
    next_id s1 = uint (next_id s + Z.of_nat k + 1) /\
    pc s1 = pc s /\ fp s1 = fp s /\ currsize s1 = currsize s /\ arg s1 = arg s /\
    ((open_result dev (opens (disk s)) = true /\ ret = Some name /\
      shared s1 = shared s /\
      disk s1 = mk_storage (<[name := mk_file [] []]> (files (disk s)))
                  (created (disk s) ++ [name])
                  ({[name]} ∪ open_handles (disk s))
                  (writes (disk s)) (S (opens (disk s))))
     \/
     (open_result dev (opens (disk s)) = false /\ ret = None /\
      shared s1 = eprint (shared s) open_failed_line /\
      disk s1 = mk_storage (files (disk s)) (created (disk s))
                  (open_handles (disk s)) (writes (disk s))
                  (S (opens (disk s))))).
Proof.
  intros Hid. unfold open_logfile.
  destruct (open_logfile_probe fuel (disk s) (arg s) (next_id s))
    as [[name id']|] eqn:Hp; [|discriminate].
  destruct (open_logfile_probe_spec _ _ _ _ _ _ Hid Hp) as (k & _ & Hn & Hi & Hf & _).
  unfold iops_open. destruct (open_result dev (opens (disk s))) eqn:Ho.
  - intros [= <- <-]. exists k, name. simpl. auto 15.
  - intros [= <- <-]. exists k, name. simpl. auto 15.
Qed.

Lemma disk_ok_lookup st n :
  disk_ok st -> n ∈ created st ->
  exists f, files st !! n = Some f /\ unflushed f = [].
Proof. intros [_ H]. apply H. Qed.

(** A file under a new name leaves the persisted output and the files
    created before as they were. *)
Lemma disk_ok_create st name wr op :
  disk_ok st -> files st !! name = None ->
  disk_ok (mk_storage (<[name := mk_file [] []]> (files st))
             (created st ++ [name]) ({[name]} ∪ open_handles st) wr op) /\
  persisted (mk_storage (<[name := mk_file [] []]> (files st))
               (created st ++ [name]) ({[name]} ∪ open_handles st) wr op)
  = persisted st.
Proof.
  intros [Hnd Hex] Hnew.
  assert (Hnot : name ∉ created st).
  { intros Hin. destruct (Hex _ Hin) as (f & Hf & _). congruence. }
  split; [split|].
  - simpl. apply NoDup_app. split; [exact Hnd|]. split.
    + intros x Hx Hx'. apply list_elem_of_In in Hx'. destruct Hx' as [->|[]]. contradiction.
    + apply NoDup_singleton.
  - simpl. intros n Hin. apply elem_of_app in Hin as [Hin|Hin].
    + destruct (Hex _ Hin) as (f & Hf & Hu). exists f. split; [|exact Hu].
      rewrite lookup_insert_ne; [exact Hf|]. intros ->. contradiction.
    + apply list_elem_of_In in Hin. destruct Hin as [<-|[]].
      exists (mk_file [] []). rewrite lookup_insert_eq. auto.
  - unfold persisted. simpl. rewrite map_app, concat_app. simpl.
    unfold file_bytes at 2. simpl. rewrite lookup_insert_eq. simpl.
    rewrite app_nil_r. f_equal. apply map_ext_in. intros n Hin.
    unfold file_bytes. simpl. rewrite lookup_insert_ne; [reflexivity|].
    intros ->. apply Hnot. apply list_elem_of_In. exact Hin.
Qed.

(** Closing a file with nothing unflushed changes no file. *)
Lemma iops_close_files st h :
  disk_ok st -> h ∈ created st ->
  files (iops_close st h) = files st.
Proof.
  intros Hok Hin. destruct (disk_ok_lookup st h Hok Hin) as (f & Hf & Hu).
  unfold iops_close. simpl. apply alter_id. intros x Hx.
  rewrite Hf in Hx. injection Hx as <-. unfold flush_file. rewrite Hu, app_nil_r.
  destruct f. simpl in *. congruence.
Qed.

Lemma disk_ok_files st st' :
  files st' = files st -> created st' = created st -> disk_ok st -> disk_ok st'.
Proof. unfold disk_ok. intros -> ->. auto. Qed.

Lemma persisted_files st st' :
  files st' = files st -> created st' = created st -> persisted st' = persisted st.
Proof. unfold persisted, file_bytes. intros Hf ->. rewrite Hf. reflexivity. Qed.

Lemma disk_ok_update st st' h f' :
  disk_ok st -> h ∈ created st ->
  files st' = <[h := f']> (files st) -> unflushed f' = [] ->
  created st' = created st ->
  disk_ok st'.
Proof.
  intros [Hnd Hex] Hin Hf Hu Hc. split; rewrite Hc; [exact Hnd|].
  intros n Hn. destruct (decide (n = h)) as [->|Hne].
  - exists f'. rewrite Hf, lookup_insert_eq. auto.
  - destruct (Hex _ Hn) as (f & Hfn & Hfu). exists f.
    rewrite Hf, lookup_insert_ne by congruence. auto.
Qed.

(** ** What every reachable state satisfies *)

Lemma same_buffers_refl l : same_buffers l l.
Proof. unfold same_buffers. auto. Qed.

Lemma same_buffers_buffers l l' i : same_buffers l l' -> buffers l' i = buffers l i.
Proof. intros (H0 & H1 & _). unfold buffers. rewrite H0, H1. reflexivity. Qed.

Lemma same_buffers_other l l' : same_buffers l l' -> other l' = other l.
Proof. intros (_ & _ & Hc & _). unfold other. rewrite Hc. reflexivity. Qed.

Lemma same_buffers_ok l l' : same_buffers l l' -> buffers_ok l -> buffers_ok l'.
Proof.
  intros (H0 & H1 & Hc & Hz). unfold buffers_ok. rewrite H0, H1, Hc, Hz. auto.
Qed.

Lemma same_buffers_eprint l text : same_buffers l (eprint l text).
Proof. unfold same_buffers. auto. Qed.

Lemma same_buffers_bookkeeping l ll level text :
  same_buffers l (bookkeeping l ll level text).
Proof. unfold same_buffers. auto. Qed.

Lemma same_buffers_set_run l r : same_buffers l (set_run l r).
Proof. unfold same_buffers. auto. Qed.

Lemma same_buffers_set_lastlog l ll : same_buffers l (set_lastlog l ll).
Proof. unfold same_buffers. auto. Qed.

Lemma same_buffers_trans l1 l2 l3 :
  same_buffers l1 l2 -> same_buffers l2 l3 -> same_buffers l1 l3.
Proof. unfold same_buffers. intuition congruence. Qed.

Lemma do_add_log_entry_waiting l msg l' :
  do_add_log_entry l msg = Waiting l' -> same_buffers l l'.
Proof.
  unfold do_add_log_entry.
  destruct (_ >=? _); [|discriminate].
  intros [= <-]. destruct (unit_test l);
    [apply same_buffers_refl | apply same_buffers_eprint].
Qed.

(** An entry that went through found room for all of its bytes. *)
Lemma do_add_log_entry_done_room l msg l' :
  buffers_ok l -> len msg < 2048 ->
  do_add_log_entry l msg = Done l' ->
  offset (buffers l (currbuffer l)) + len msg < buffersz l.
Proof.
  intros Hok Hlen. destruct (buffers_ok_current l Hok) as [Hoff _].
  destruct Hok as (_ & Hsz & _). pose proof (len_nonneg msg).
  unfold do_add_log_entry. rewrite size_t_small by lia.
  destruct (Z.geb_spec (offset (buffers l (currbuffer l)) + len msg) (buffersz l));
    [discriminate|]. intros _. lia.
Qed.

Lemma flusher_ok_same_buffers s l' :
  same_buffers (shared s) l' -> flusher_ok s -> flusher_ok (set_shared s l').
Proof.
  intros Hsame (Hp & Hfp & Hst & Hd). unfold flusher_ok. simpl.
  rewrite (same_buffers_other _ _ Hsame), (same_buffers_buffers _ _ _ Hsame).
  auto.
Qed.

Lemma system_ok_same_buffers s l' :
  same_buffers (shared s) l' -> system_ok s -> system_ok (set_shared s l').
Proof.
  intros Hsame (Hb & Hf & Hn). split; [|split].
  - exact (same_buffers_ok _ _ Hsame Hb).
  - exact (flusher_ok_same_buffers _ _ Hsame Hf).
  - exact Hn.
Qed.

Lemma other_flip l :
  currbuffer l = 0 \/ currbuffer l = 1 ->
  currbuffer (flip l) = other l /\ other (flip l) = currbuffer l.
Proof. unfold flip, other. intros [H|H]; rewrite H; simpl; auto. Qed.

Lemma buffers_flip l i : buffers (flip l) i = buffers l i.
Proof. reflexivity. Qed.

Lemma buffers_ok_flip l : buffers_ok l -> buffers_ok (flip l).
Proof.
  intros (Hc & Hrest). split; [|exact Hrest].
  unfold flip. simpl. destruct (currbuffer l =? 0); auto.
Qed.

Lemma set_buffer_ok_any l i b :
  buffers_ok l ->
  0 <= offset b <= buffersz l -> len (data b) = buffersz l ->
  buffers_ok (set_buffer l i b).
Proof.
  intros (Hc & Hsz & H0 & H1) Ho Hl. unfold buffers_ok, set_buffer.
  destruct (i =? 0); simpl; auto.
Qed.

Lemma buffers_ok_at l i :
  buffers_ok l ->
  0 <= offset (buffers l i) <= buffersz l /\ len (data (buffers l i)) = buffersz l.
Proof. intros (_ & _ & H0 & H1). unfold buffers. destruct (i =? 0); assumption. Qed.

(** The test of the inner loop with an empty spare buffer: whichever way it
    goes, the flusher's side is in order afterwards. *)
Lemma inner_loop_ok timer_due s :
  buffers_ok (shared s) ->
  offset (buffers (shared s) (other (shared s))) = 0 ->
  (forall h, fp s = Some h -> last (created (disk s)) = Some h) ->
  disk_ok (disk s) ->
  0 <= next_id s < 2 ^ 32 ->
  system_ok (inner_loop timer_due s).
Proof.
  intros Hb Hp Hfp Hd Hn. unfold inner_loop.
  destruct (timer_due || _).
  - split; [|split]; simpl; [apply buffers_ok_flip; exact Hb| |exact Hn].
    unfold flusher_ok. simpl.
    destruct Hb as (Hc & _). destruct (other_flip _ Hc) as [_ Ho].
    split; [symmetry; exact Ho|]. split; [exact Hfp|]. split; [discriminate|exact Hd].
  - split; [|split]; simpl; [exact Hb| |exact Hn].
    unfold flusher_ok. simpl. split; [exact Hp|]. split; [exact Hfp|].
    split; [discriminate|exact Hd].
Qed.

Lemma last_created_elem st h : last (created st) = Some h -> h ∈ created st.
Proof.
  intros H. apply last_Some in H as [l ->]. apply elem_of_app. right.
  apply list_elem_of_In. left. reflexivity.
Qed.

Lemma uint_range x : 0 <= uint x < 2 ^ 32.
Proof. unfold uint. apply Z.mod_pos_bound. lia. Qed.

(** Closing the current file (if there is one) and opening the next. *)
Lemma reopen_logfile_ok dev fuel s ret s1 :
  disk_ok (disk s) ->
  (forall h, fp s = Some h -> last (created (disk s)) = Some h) ->
  0 <= next_id s < 2 ^ 32 ->
  reopen_logfile dev fuel s (fp s) = Some (ret, s1) ->
  same_buffers (shared s) (shared s1) /\
  pc s1 = pc s /\ arg s1 = arg s /\
  disk_ok (disk s1) /\
  (forall h, ret = Some h -> last (created (disk s1)) = Some h) /\
  0 <= next_id s1 < 2 ^ 32 /\
  persisted (disk s1) = persisted (disk s) /\
  (forall h, fp s = Some h -> h ∉ open_handles (disk s1)) /\
  (forall n f, files (disk s) !! n = Some f -> files (disk s1) !! n = Some f).
Proof.
  intros Hd Hfp Hid. unfold reopen_logfile. intros Hopen.
  set (s0 := close_logfile s (fp s)) in *.
  assert (Hs0 : shared s0 = shared s /\ pc s0 = pc s /\ arg s0 = arg s /\
                next_id s0 = next_id s /\ files (disk s0) = files (disk s) /\
                created (disk s0) = created (disk s) /\
                (forall h, fp s = Some h -> h ∉ open_handles (disk s0)) /\
                (forall h, fp s = Some h -> is_Some (files (disk s) !! h))).
  { subst s0. unfold close_logfile. destruct (fp s) as [h|] eqn:E.
    - pose proof (last_created_elem _ _ (Hfp h eq_refl)) as Hin.
      destruct (disk_ok_lookup _ _ Hd Hin) as (f & Hf & _).
      cbn [shared pc arg next_id disk set_disk].
      rewrite (iops_close_files _ _ Hd Hin).
      repeat split; try reflexivity.
      + intros h' [= <-]. unfold iops_close. simpl.
        intros Hin'. apply elem_of_difference in Hin' as [_ Hin'].
        apply Hin'. apply elem_of_singleton. reflexivity.
      + intros h' [= <-]. eauto.
    - repeat split; try reflexivity; intros h' [=]. }
  destruct Hs0 as (Hsh & Hpc & Harg & Hnid & Hfiles & Hcr & Hclosed & Hexists).
  assert (Hd0 : disk_ok (disk s0)) by (eapply disk_ok_files; eassumption).
  assert (Hp0 : persisted (disk s0) = persisted (disk s))
    by (apply persisted_files; assumption).
  destruct (open_logfile_spec dev fuel s0 ret s1) as
    (k & name & Hname & Hnew & Hnext & Hpc1 & _ & _ & Harg1 & Hcase);
    [rewrite Hnid; exact Hid | exact Hopen |].
  assert (Hne : forall h, fp s = Some h -> h <> name).
  { intros h Hh ->. destruct (Hexists _ Hh) as [f Hf].
    rewrite <- Hfiles, Hnew in Hf. discriminate. }
  destruct Hcase as [(_ & -> & Hsh1 & Hdisk1) | (_ & -> & Hsh1 & Hdisk1)].
  - destruct (disk_ok_create (disk s0) name (writes (disk s0)) (S (opens (disk s0))) Hd0 Hnew)
      as [Hd1 Hp1].
    rewrite <- Hdisk1 in Hd1, Hp1.
    split; [rewrite Hsh1, Hsh; apply same_buffers_refl|].
    split; [congruence|]. split; [congruence|]. split; [exact Hd1|].
    split. { intros h [= <-]. rewrite Hdisk1. simpl. apply last_snoc. }
    split; [rewrite Hnext; apply uint_range|].
    split; [congruence|]. split.
    + intros h Hh. rewrite Hdisk1. simpl. specialize (Hclosed h Hh).
      specialize (Hne h Hh). intros Hin'.
      apply elem_of_union in Hin' as [Hin'|Hin']; [|contradiction].
      apply elem_of_singleton in Hin'. contradiction.
    + intros n f Hf. rewrite Hdisk1. simpl. rewrite lookup_insert_ne.
      * rewrite Hfiles. exact Hf.
      * intros <-. rewrite <- Hfiles, Hnew in Hf. discriminate.
  - split; [rewrite Hsh1, Hsh; apply same_buffers_eprint|].
    split; [congruence|]. split; [congruence|].
    split; [rewrite Hdisk1; exact Hd0|].
    split; [intros h [=]|].
    split; [rewrite Hnext; apply uint_range|].
    split; [rewrite Hdisk1; exact Hp0|]. split.
    + intros h Hh. rewrite Hdisk1. simpl. exact (Hclosed h Hh).
    + intros n f Hf. rewrite Hdisk1. simpl. rewrite Hfiles. exact Hf.
Qed.

Lemma flush_pending_io_null dev fuel s this n s' :
  flush_pending_io dev fuel s None this = Some (n, s') -> disk s' = disk s.
Proof.
  unfold flush_pending_io. destruct (_ >? 0); [discriminate|].
  intros [= _ <-]. reflexivity.
Qed.

(** [flush_pending_io] on the handle in [fp], from a state that is in
    order: the buffer is emptied, the storage stays in order, and (for
    buffers below 2 GiB) the persisted output gains the buffer's bytes. *)
Lemma flush_pending_io_ok dev fuel s this n s' :
  buffers_ok (shared s) -> disk_ok (disk s) ->
  (forall h, fp s = Some h -> last (created (disk s)) = Some h) ->
  flush_pending_io dev fuel s (fp s) this = Some (n, s') ->
  n = offset (buffers (shared s) this) /\
  s' = mk_system
         (set_buffer (shared s) this
            (mk_logbuffer (data (buffers (shared s) this)) 0))
         (pc s) (fp s) (currsize s) (next_id s) (arg s) (disk s') /\
  disk_ok (disk s') /\
  created (disk s') = created (disk s) /\
  open_handles (disk s') = open_handles (disk s) /\
  (forall x f, files (disk s) !! x = Some f -> is_Some (files (disk s') !! x)) /\
  (forall x, fp s <> Some x -> files (disk s') !! x = files (disk s) !! x) /\
  (buffersz (shared s) < 2 ^ 31 ->
   persisted (disk s')
   = persisted (disk s) ++ contents (buffers (shared s) this)).
Proof.
  intros Hb Hd Hfp Hrun.
  destruct (buffers_ok_at _ this Hb) as [Hoff Hlen].
  destruct (flush_pending_io_shared _ _ _ _ _ _ _ (proj1 Hoff) Hrun) as [Hn Hs'].
  split; [exact Hn|]. split; [exact Hs'|].
  destruct (fp s) as [h|] eqn:E.
  - pose proof (last_created_elem _ _ (Hfp h eq_refl)) as Hin.
    destruct (disk_ok_lookup _ _ Hd Hin) as (f & Hf & Hu).
    destruct (flush_pending_io_frame _ _ _ _ _ _ _ _ Hrun Hf Hu)
      as ((f' & Hf' & Hu') & Hc & Ho & _).
    split; [exact (disk_ok_update _ _ _ _ Hd Hin Hf' Hu' Hc)|].
    split; [exact Hc|]. split; [exact Ho|]. split.
    { intros x fx Hx. rewrite Hf'. destruct (decide (x = h)) as [->|Hne].
      - rewrite lookup_insert_eq. eauto.
      - rewrite lookup_insert_ne by congruence. eauto. }
    split.
    { intros x Hx. rewrite Hf', lookup_insert_ne; [reflexivity|]. congruence. }
    intros Hsmall.
    pose proof (flush_pending_io_bytes _ _ _ _ _ _ _ f Hrun) as Hbytes.
    specialize (Hbytes ltac:(lia) ltac:(lia) Hf Hu).
    apply (persisted_grows _ _ h _ _ (Hfp h eq_refl) (proj1 Hd) Hc Hbytes).
    simpl. unfold file_bytes. rewrite Hf. reflexivity.
  - rewrite (flush_pending_io_null _ _ _ _ _ _ Hrun).
    split; [exact Hd|]. repeat split; eauto.
    intros _. unfold flush_pending_io in Hrun.
    destruct (Z.gtb_spec (offset (buffers (shared s) this)) 0); [discriminate|].
    unfold contents. replace (offset (buffers (shared s) this)) with 0 by lia.
    simpl. rewrite app_nil_r. reflexivity.
Qed.

Lemma flush_pending_io_opens dev fuel s file this n s' :
  flush_pending_io dev fuel s file this = Some (n, s') ->
  opens (disk s') = opens (disk s).
Proof.
  unfold flush_pending_io. destruct (_ >? 0).
  - destruct file as [h|]; [|discriminate].
    destruct (write_pending _ _ _ _ _ _) as [st|] eqn:E; [|discriminate].
    intros [= _ <-]. simpl.
    exact (proj2 (proj2 (proj2 (write_pending_frame _ _ _ _ _ _ _ E)))).
  - intros [= _ <-]. reflexivity.
Qed.

Lemma set_buffer_frame l i b :
  currbuffer (set_buffer l i b) = currbuffer l /\
  buffersz (set_buffer l i b) = buffersz l /\
  cyclesz (set_buffer l i b) = cyclesz l /\
  run (set_buffer l i b) = run l /\
  lastlog (set_buffer l i b) = lastlog l /\
  stderr (set_buffer l i b) = stderr l.
Proof. unfold set_buffer. destruct (i =? 0); simpl; auto 10. Qed.

Lemma other_set_buffer l i b : other (set_buffer l i b) = other l.
Proof. unfold other. rewrite (proj1 (set_buffer_frame l i b)). reflexivity. Qed.

Lemma contents_empty b : offset b = 0 -> contents b = [].
Proof. unfold contents. intros ->. reflexivity. Qed.

Lemma other_differs l :
  currbuffer l = 0 \/ currbuffer l = 1 ->
  (other l =? 0) <> (currbuffer l =? 0).
Proof. unfold other. intros [H|H]; rewrite H; simpl; discriminate. Qed.

(** One pass of the flusher outside the mutex, from a state in order. *)
Lemma flush_cycle_ok dev fuel s this s1 :
  buffers_ok (shared s) -> disk_ok (disk s) ->
  (forall h, fp s = Some h -> last (created (disk s)) = Some h) ->
  0 <= next_id s < 2 ^ 32 ->
  flush_cycle dev fuel s this = Some s1 ->
  same_buffers
    (set_buffer (shared s) this (mk_logbuffer (data (buffers (shared s) this)) 0))
    (shared s1) /\
  pc s1 = pc s /\ arg s1 = arg s /\
  disk_ok (disk s1) /\
  (forall h, fp s1 = Some h -> last (created (disk s1)) = Some h) /\
  0 <= next_id s1 < 2 ^ 32 /\
  (buffersz (shared s) < 2 ^ 31 ->
   persisted (disk s1)
   = persisted (disk s) ++ contents (buffers (shared s) this)).
Proof.
  intros Hb Hd Hfp Hid. unfold flush_cycle.
  destruct (flush_pending_io dev fuel s (fp s) this) as [[n s2]|] eqn:Hrun;
    [|discriminate].
  destruct (flush_pending_io_ok _ _ _ _ _ _ Hb Hd Hfp Hrun)
    as (Hn & Hs2 & Hd2 & Hc2 & _ & _ & _ & Hp2).
  assert (Hfp2 : fp s2 = fp s) by (rewrite Hs2; reflexivity).
  assert (Hsh2 : shared s2 = set_buffer (shared s) this
                   (mk_logbuffer (data (buffers (shared s) this)) 0))
    by (rewrite Hs2; reflexivity).
  assert (Hfpc2 : forall h, fp s2 = Some h -> last (created (disk s2)) = Some h).
  { intros h Hh. rewrite Hc2. apply Hfp. congruence. }
  destruct (size_t (currsize s2 + n) >? cyclesz (shared s2)).
  - destruct (reopen_logfile dev fuel s2 (fp s2)) as [[f s3]|] eqn:Hre;
      [|discriminate].
    intros [= <-].
    destruct (reopen_logfile_ok dev fuel s2 f s3 Hd2 Hfpc2) as
      (Hsame & Hpc & Harg & Hd3 & Hfp3 & Hn3 & Hp3 & _);
      [rewrite Hs2; exact Hid | exact Hre |].
    simpl. rewrite <- Hsh2.
    split; [exact Hsame|].
    split; [rewrite Hpc, Hs2; reflexivity|].
    split; [rewrite Harg, Hs2; reflexivity|].
    split; [exact Hd3|]. split; [exact Hfp3|]. split; [exact Hn3|].
    intros Hsmall. rewrite Hp3. exact (Hp2 Hsmall).
  - intros [= <-]. simpl. rewrite <- Hsh2.
    split; [apply same_buffers_refl|].
    split; [rewrite Hs2; reflexivity|]. split; [rewrite Hs2; reflexivity|].
    split; [exact Hd2|]. split; [exact Hfpc2|].
    split; [rewrite Hs2; exact Hid|]. exact Hp2.
Qed.

(** The drain after the main loop: both buffers end up empty, and what
    the current one held is persisted. *)
Lemma drain_ok dev fuel : forall s s1,
  buffers_ok (shared s) -> disk_ok (disk s) ->
  (forall h, fp s = Some h -> last (created (disk s)) = Some h) ->
  offset (buffers (shared s) (other (shared s))) = 0 ->
  drain dev fuel s (fp s) = Some s1 ->
  buffers_ok (shared s1) /\
  offset (buffers (shared s1) (currbuffer (shared s1))) = 0 /\
  offset (buffers (shared s1) (other (shared s1))) = 0 /\
  buffersz (shared s1) = buffersz (shared s) /\
  pc s1 = pc s /\ fp s1 = fp s /\ next_id s1 = next_id s /\
  disk_ok (disk s1) /\
  created (disk s1) = created (disk s) /\
  open_handles (disk s1) = open_handles (disk s) /\
  (buffersz (shared s) < 2 ^ 31 ->
   persisted (disk s1)
   = persisted (disk s)
       ++ contents (buffers (shared s) (currbuffer (shared s)))).
Proof.
  induction fuel as [|fuel IH]; intros s s1 Hb Hd Hfp Hpass Hrun.
  - simpl in Hrun.
    destruct (Z.eqb_spec (offset (buffers (shared s) (currbuffer (shared s)))) 0)
      as [H0|H0]; [|discriminate].
    injection Hrun as <-.
    do 10 (split; [first [assumption | reflexivity]|]).
    intros _. rewrite contents_empty by exact H0. rewrite app_nil_r. reflexivity.
  - cbn [drain] in Hrun.
    destruct (Z.eqb_spec (offset (buffers (shared s) (currbuffer (shared s)))) 0)
      as [H0|H0].
    { injection Hrun as <-.
      do 10 (split; [first [assumption | reflexivity]|]).
      intros _. rewrite contents_empty by exact H0. rewrite app_nil_r. reflexivity. }
    set (s2 := set_shared s (flip (shared s))) in *.
    destruct (flush_pending_io dev (S fuel) s2 (fp s) (currbuffer (shared s)))
      as [[n s3]|] eqn:Hfl; [|discriminate].
    assert (Hb2 : buffers_ok (shared s2)) by (apply buffers_ok_flip; exact Hb).
    destruct (flush_pending_io_ok dev (S fuel) s2 (currbuffer (shared s)) n s3 Hb2 Hd Hfp Hfl)
      as (_ & Hs3 & Hd3 & Hc3 & Ho3 & _ & _ & Hp3).
    unfold s2 in Hs3.
    cbn [shared set_shared pc fp currsize next_id arg disk] in Hs3.
    rewrite buffers_flip in Hs3.
    destruct Hb as (Hcur & Hbrest).
    destruct (other_flip _ Hcur) as [Hcf Hof].
    assert (Hsh3 : shared s3
                   = set_buffer (flip (shared s)) (currbuffer (shared s))
                       (mk_logbuffer
                          (data (buffers (shared s) (currbuffer (shared s)))) 0))
      by (rewrite Hs3; reflexivity).
    destruct (set_buffer_frame (flip (shared s)) (currbuffer (shared s))
                (mk_logbuffer (data (buffers (shared s) (currbuffer (shared s)))) 0))
      as (Hfc & Hfz & _).
    assert (Hcur3 : currbuffer (shared s3) = other (shared s))
      by (rewrite Hsh3, Hfc; exact Hcf).
    assert (Hoth3 : other (shared s3) = currbuffer (shared s))
      by (rewrite Hsh3, other_set_buffer; exact Hof).
    assert (Hb3 : buffers_ok (shared s3)).
    { rewrite Hsh3.
      destruct (buffers_ok_at (shared s) (currbuffer (shared s)) (conj Hcur Hbrest))
        as [Hoff Hlen].
      apply set_buffer_ok_any; [apply buffers_ok_flip; exact (conj Hcur Hbrest)| |exact Hlen].
      simpl. destruct Hbrest as (Hz & _). cbn. lia. }
    assert (Hcur0 : offset (buffers (shared s3) (currbuffer (shared s3))) = 0).
    { rewrite Hcur3, Hsh3, buffers_set_buffer_other, buffers_flip; [exact Hpass|].
      intros E. apply (other_differs _ Hcur). symmetry. exact E. }
    assert (Hpass3 : offset (buffers (shared s3) (other (shared s3))) = 0).
    { rewrite Hoth3, Hsh3, buffers_set_buffer_same. reflexivity. }
    assert (Hfp3 : fp s3 = fp s) by (rewrite Hs3; reflexivity).
    rewrite <- Hfp3 in Hrun.
    apply IH in Hrun; try assumption;
      [|intros h Hh; rewrite Hc3; apply Hfp; congruence].
    destruct Hrun as (Hb1 & H10 & H1p & Hz1 & Hpc1 & Hfp1 & Hn1 & Hd1 & Hc1 & Ho1 & Hp1).
    split; [exact Hb1|]. split; [exact H10|]. split; [exact H1p|].
    split; [rewrite Hz1, Hsh3, Hfz; reflexivity|].
    split; [rewrite Hpc1, Hs3; reflexivity|].
    split; [congruence|].
    split; [rewrite Hn1, Hs3; reflexivity|].
    split; [exact Hd1|].
    split; [rewrite Hc1, Hc3; reflexivity|].
    split; [rewrite Ho1, Ho3; reflexivity|].
    intros Hsmall.
    rewrite Hp1 by (rewrite Hsh3, Hfz; exact Hsmall).
    rewrite (contents_empty _ Hcur0), app_nil_r.
    rewrite Hp3 by exact Hsmall. reflexivity.
Qed.

Lemma both_offsets l :
  currbuffer l = 0 \/ currbuffer l = 1 ->
  offset (buffers l (currbuffer l)) = 0 ->
  offset (buffers l (other l)) = 0 ->
  offset (buffers0 l) = 0 /\ offset (buffers1 l) = 0.
Proof. unfold buffers, other. intros [H|H]; rewrite H; simpl; auto. Qed.

Lemma stream_idle s :
  pc s = Idle ->
  stream s = persisted (disk s)
             ++ contents (buffers (shared s) (currbuffer (shared s))).
Proof. intros H. unfold stream, in_flight. rewrite H. reflexivity. Qed.

(** The end of [logger_thead_main]: what was logged is persisted, both
    buffers are empty, the file is closed. *)
Lemma thread_exit_ok dev fuel s s1 :
  system_ok s -> pc s = Idle ->
  thread_exit dev fuel s = Some s1 ->
  system_ok s1 /\ pc s1 = Exited /\
  buffersz (shared s1) = buffersz (shared s) /\
  (forall h, fp s = Some h ->
     offset (buffers0 (shared s1)) = 0 /\ offset (buffers1 (shared s1)) = 0 /\
     (h ∉ open_handles (disk s1)) /\
     (forall n, n ∈ created (disk s1) ->
        exists f, files (disk s1) !! n = Some f /\ unflushed f = []) /\
     (buffersz (shared s) < 2 ^ 31 -> persisted (disk s1) = stream s)).
Proof.
  intros (Hb & (Hpass & Hfp & Hst & Hd) & Hid) Hpc. unfold thread_exit.
  rewrite Hpc in Hpass.
  destruct (fp s) as [h|] eqn:E in |- *.
  - rewrite <- E.
    destruct (drain dev fuel s (fp s)) as [s2|] eqn:Hdr; [|discriminate].
    intros [= <-].
    destruct (drain_ok dev fuel s s2 Hb Hd Hfp Hpass Hdr)
      as (Hb2 & H20 & H2p & Hz2 & Hpc2 & Hfp2 & Hn2 & Hd2 & Hc2 & Ho2 & Hp2).
    assert (Hin : h ∈ created (disk s2)).
    { rewrite Hc2. apply last_created_elem. apply Hfp. exact E. }
    pose proof (iops_close_files _ _ Hd2 Hin) as Hfiles.
    assert (Hd3 : disk_ok (iops_close (disk s2) h))
      by (eapply disk_ok_files; [exact Hfiles|reflexivity|exact Hd2]).
    unfold close_logfile. rewrite Hfp2, E.
    split.
    { split; [exact Hb2|]. split; [|simpl; congruence].
      unfold flusher_ok. simpl. split; [exact H2p|].
      split; [intros h' Hh'; rewrite Hc2; apply Hfp; congruence|].
      split; [discriminate|exact Hd3]. }
    split; [reflexivity|]. split; [exact Hz2|].
    intros h' [= <-]. cbn [shared set_pc set_disk disk].
    destruct (both_offsets _ (proj1 Hb2) H20 H2p) as [Ha Hb'].
    split; [exact Ha|]. split; [exact Hb'|].
    split.
    { unfold iops_close. simpl. intros Hin'.
      apply elem_of_difference in Hin' as [_ Hin'].
      apply Hin'. apply elem_of_singleton. reflexivity. }
    split; [exact (proj2 Hd3)|].
    intros Hsmall. rewrite stream_idle by exact Hpc.
    rewrite <- (Hp2 Hsmall). apply persisted_files; [exact Hfiles|reflexivity].
  - intros [= <-]. split.
    { split; [exact Hb|]. split; [|exact Hid].
      unfold flusher_ok. simpl. split; [exact Hpass|].
      split; [intros h Hh; congruence|]. split; [discriminate|exact Hd]. }
    split; [reflexivity|]. split; [reflexivity|]. intros h [=].
Qed.

(** Every step keeps the system in order. *)
Lemma step_ok dev s ev s' : system_ok s -> step dev s ev s' -> system_ok s'.
Proof.
  intros Hok Hstep. destruct Hstep as
    [s msg l Hlen Hadd | s msg l Hwait | s ll level text | s
    | s fuel ret s1 Hpc Hopen | s timer_due Hpc Hrun
    | s this fuel s1 Hpc Hcycle | s fuel s1 Hpc Hrun Hexit].
  - destruct Hok as (Hb & (Hpass & Hfp & Hst & Hd) & Hid).
    pose proof (do_add_log_entry_done_room _ _ _ Hb Hlen Hadd) as Hroom.
    destruct (do_add_log_entry_ok _ _ _ Hb Hroom Hadd)
      as (Hb' & Hc & Hz & _ & _ & _ & Hct & Hoth).
    assert (Ho : other l = other (shared s)) by (unfold other; rewrite Hc; reflexivity).
    split; [exact Hb'|]. split; [|exact Hid].
    unfold flusher_ok. simpl. rewrite Ho, Hoth. auto.
  - apply system_ok_same_buffers; [|exact Hok].
    exact (do_add_log_entry_waiting _ _ _ Hwait).
  - apply system_ok_same_buffers; [|exact Hok]. apply same_buffers_bookkeeping.
  - apply system_ok_same_buffers; [|exact Hok]. apply same_buffers_set_run.
  - destruct Hok as (Hb & (Hpass & Hfp & Hst & Hd) & Hid).
    rewrite Hpc in Hpass. destruct (Hst Hpc) as [Hnone Hnil].
    assert (Hre : reopen_logfile dev fuel s (fp s) = Some (ret, s1)).
    { unfold reopen_logfile. rewrite Hnone. exact Hopen. }
    destruct (reopen_logfile_ok dev fuel s ret s1 Hd Hfp Hid Hre)
      as (Hsame & _ & _ & Hd1 & Hfp1 & Hid1 & _).
    split; [simpl; exact (same_buffers_ok _ _ Hsame Hb)|].
    split; [|simpl; exact Hid1].
    unfold flusher_ok. simpl.
    rewrite (same_buffers_other _ _ Hsame), (same_buffers_buffers _ _ _ Hsame).
    split; [exact Hpass|]. split; [exact Hfp1|]. split; [discriminate|exact Hd1].
  - destruct Hok as (Hb & (Hpass & Hfp & Hst & Hd) & Hid).
    rewrite Hpc in Hpass. apply inner_loop_ok; assumption.
  - destruct Hok as (Hb & (Hpass & Hfp & Hst & Hd) & Hid).
    rewrite Hpc in Hpass.
    destruct (flush_cycle_ok dev fuel s this s1 Hb Hd Hfp Hid Hcycle)
      as (Hsame & _ & _ & Hd1 & Hfp1 & Hid1 & _).
    destruct (buffers_ok_at _ this Hb) as [Hoff Hlen].
    assert (Hb0 : buffers_ok (set_buffer (shared s) this
                    (mk_logbuffer (data (buffers (shared s) this)) 0))).
    { apply set_buffer_ok_any; [exact Hb| |exact Hlen]. simpl.
      destruct Hb as (_ & Hz & _). lia. }
    apply inner_loop_ok; try assumption.
    + exact (same_buffers_ok _ _ Hsame Hb0).
    + rewrite (same_buffers_other _ _ Hsame), (same_buffers_buffers _ _ _ Hsame).
      rewrite other_set_buffer, <- Hpass, buffers_set_buffer_same. reflexivity.
  - exact (proj1 (thread_exit_ok dev fuel s s1 Hok Hpc Hexit)).
Qed.

Lemma initial_ok s : initial s -> system_ok s.
Proof.
  intros (Ho0 & Ho1 & Hl0 & Hl1 & Hz & Hc & _ & _ & Hpc & Hfp & Hn & Hcr & _).
  split; [|split].
  - unfold buffers_ok. rewrite Ho0, Ho1, Hl0, Hl1, Hc. split; [auto|].
    split; [exact Hz|]. split; (split; [lia|reflexivity]).
  - unfold flusher_ok, disk_ok. rewrite Hpc, Hfp, Hcr.
    split. { unfold other, buffers. rewrite Hc. simpl. exact Ho1. }
    split; [discriminate|]. split; [auto|].
    split; [apply NoDup_nil_2|]. intros n Hin. apply elem_of_nil in Hin. destruct Hin.
  - rewrite Hn. lia.
Qed.

Lemma reachable_ok dev s : reachable dev s -> system_ok s.
Proof.
  induction 1 as [s Hinit | s ev s' _ IH Hstep].
  - apply initial_ok. exact Hinit.
  - exact (step_ok dev s ev s' IH Hstep).
Qed.

(** ** The stream of logged bytes *)

Lemma stream_same_buffers s l' :
  same_buffers (shared s) l' -> stream (set_shared s l') = stream s.
Proof.
  intros Hsame. unfold stream, in_flight. simpl.
  destruct Hsame as (H0 & H1 & Hc & _).
  unfold buffers. rewrite H0, H1, Hc. reflexivity.
Qed.

Lemma inner_loop_buffersz timer_due s :
  buffersz (shared (inner_loop timer_due s)) = buffersz (shared s).
Proof. unfold inner_loop. destruct (timer_due || _); reflexivity. Qed.

(** After the test of the inner loop the stream is the persisted output
    followed by the current buffer, whichever way the test went. *)
Lemma stream_inner_loop timer_due s :
  buffers_ok (shared s) ->
  offset (buffers (shared s) (other (shared s))) = 0 ->
  stream (inner_loop timer_due s)
  = persisted (disk s) ++ contents (buffers (shared s) (currbuffer (shared s))).
Proof.
  intros (Hc & _) Hpass. unfold inner_loop, stream, in_flight.
  destruct (timer_due || _); cbn [shared pc disk set_pc set_shared].
  - destruct (other_flip _ Hc) as [Hcf _]. rewrite Hcf, !buffers_flip.
    rewrite (contents_empty _ Hpass), app_nil_r. reflexivity.
  - reflexivity.
Qed.

Lemma step_buffersz dev s ev s' :
  system_ok s -> step dev s ev s' ->
  buffersz (shared s') = buffersz (shared s).
Proof.
  intros Hok Hstep. destruct Hstep as
    [s msg l Hlen Hadd | s msg l Hwait | s ll level text | s
    | s fuel ret s1 Hpc Hopen | s timer_due Hpc Hrun
    | s this fuel s1 Hpc Hcycle | s fuel s1 Hpc Hrun Hexit];
    destruct Hok as (Hb & (Hpass & Hfp & Hst & Hd) & Hid).
  - pose proof (do_add_log_entry_done_room _ _ _ Hb Hlen Hadd) as Hroom.
    destruct (do_add_log_entry_ok _ _ _ Hb Hroom Hadd) as (_ & _ & Hz & _).
    exact Hz.
  - destruct (do_add_log_entry_waiting _ _ _ Hwait) as (_ & _ & _ & Hz). exact Hz.
  - reflexivity.
  - reflexivity.
  - destruct (Hst Hpc) as [Hnone _].
    assert (Hre : reopen_logfile dev fuel s (fp s) = Some (ret, s1))
      by (unfold reopen_logfile; rewrite Hnone; exact Hopen).
    destruct (reopen_logfile_ok dev fuel s ret s1 Hd Hfp Hid Hre)
      as ((_ & _ & _ & Hz) & _). exact Hz.
  - apply inner_loop_buffersz.
  - rewrite inner_loop_buffersz.
    destruct (flush_cycle_ok dev fuel s this s1 Hb Hd Hfp Hid Hcycle)
      as ((_ & _ & _ & Hz) & _).
    rewrite Hz. apply set_buffer_frame.
  - exact (proj1 (proj2 (proj2 (thread_exit_ok dev fuel s s1
             (conj Hb (conj (conj Hpass (conj Hfp (conj Hst Hd))) Hid)) Hpc Hexit)))).
Qed.

(** A step of a producer that adds an entry puts its bytes at the end of
    the stream; no other step changes the stream. *)
Lemma step_stream dev s ev s' :
  system_ok s -> buffersz (shared s) < 2 ^ 31 ->
  step dev s ev s' ->
  stream s' = stream s ++ appended [ev].
Proof.
  intros Hok Hsmall Hstep. destruct Hstep as
    [s msg l Hlen Hadd | s msg l Hwait | s ll level text | s
    | s fuel ret s1 Hpc Hopen | s timer_due Hpc Hrun
    | s this fuel s1 Hpc Hcycle | s fuel s1 Hpc Hrun Hexit];
    unfold appended; simpl; rewrite ?app_nil_r.
  - destruct Hok as (Hb & (Hpass & Hfp & Hst & Hd) & Hid).
    pose proof (do_add_log_entry_done_room _ _ _ Hb Hlen Hadd) as Hroom.
    destruct (do_add_log_entry_ok _ _ _ Hb Hroom Hadd)
      as (_ & Hc & _ & _ & _ & _ & Hct & Hoth).
    unfold stream, in_flight. simpl. rewrite Hc, Hct, !app_assoc.
    destruct (pc s) as [| |this|]; try reflexivity.
    rewrite Hpass, Hoth. reflexivity.
  - apply stream_same_buffers. exact (do_add_log_entry_waiting _ _ _ Hwait).
  - apply stream_same_buffers. apply same_buffers_bookkeeping.
  - apply stream_same_buffers. apply same_buffers_set_run.
  - destruct Hok as (Hb & (Hpass & Hfp & Hst & Hd) & Hid).
    destruct (Hst Hpc) as [Hnone _].
    assert (Hre : reopen_logfile dev fuel s (fp s) = Some (ret, s1))
      by (unfold reopen_logfile; rewrite Hnone; exact Hopen).
    destruct (reopen_logfile_ok dev fuel s ret s1 Hd Hfp Hid Hre)
      as ((H0 & H1 & Hc & _) & _ & _ & _ & _ & _ & Hp & _).
    unfold stream, in_flight. simpl. rewrite Hpc, Hp.
    unfold buffers. rewrite H0, H1, Hc. reflexivity.
  - destruct Hok as (Hb & (Hpass & _) & _). rewrite Hpc in Hpass.
    rewrite stream_inner_loop by assumption.
    rewrite stream_idle by exact Hpc. reflexivity.
  - destruct Hok as (Hb & (Hpass & Hfp & Hst & Hd) & Hid).
    rewrite Hpc in Hpass.
    destruct (flush_cycle_ok dev fuel s this s1 Hb Hd Hfp Hid Hcycle)
      as (Hsame & _ & _ & _ & _ & _ & Hp).
    destruct (buffers_ok_at _ this Hb) as [Hoff Hlen].
    assert (Hb0 : buffers_ok (set_buffer (shared s) this
                    (mk_logbuffer (data (buffers (shared s) this)) 0))).
    { apply set_buffer_ok_any; [exact Hb| |exact Hlen]. simpl.
      destruct Hb as (_ & Hz & _). lia. }
    pose proof (proj1 (set_buffer_frame (shared s) this
                  (mk_logbuffer (data (buffers (shared s) this)) 0))) as Hcur.
    rewrite stream_inner_loop.
    + rewrite (Hp Hsmall).
      rewrite (same_buffers_buffers _ _ _ Hsame).
      destruct Hsame as (_ & _ & Hc1 & _). rewrite Hc1, Hcur.
      rewrite buffers_set_buffer_other.
      * unfold stream, in_flight. rewrite Hpc, app_assoc. reflexivity.
      * rewrite Hpass. apply other_differs. exact (proj1 Hb).
    + exact (same_buffers_ok _ _ Hsame Hb0).
    + rewrite (same_buffers_other _ _ Hsame), (same_buffers_buffers _ _ _ Hsame).
      rewrite other_set_buffer, <- Hpass, buffers_set_buffer_same. reflexivity.
  - destruct (thread_exit_ok dev fuel s s1 Hok Hpc Hexit)
      as ((Hb1 & (Hpass1 & _) & _) & Hpc1 & _ & Hfile).
    destruct (fp s) as [h|] eqn:E.
    + destruct (Hfile h eq_refl) as (H0 & H1 & _ & _ & Hp).
      unfold stream, in_flight. rewrite Hpc1, (Hp Hsmall). simpl.
      rewrite contents_empty, app_nil_r; [reflexivity|].
      unfold buffers. destruct (_ =? 0); assumption.
    + unfold thread_exit in Hexit. rewrite E in Hexit. injection Hexit as <-.
      unfold stream, in_flight. simpl. rewrite Hpc. reflexivity.
Qed.

Lemma exec_ok dev s evs s' : exec dev s evs s' -> system_ok s -> system_ok s'.
Proof.
  induction 1 as [s | s evs s1 ev s2 _ IH Hstep]; intros Hok; [exact Hok|].
  exact (step_ok dev s1 ev s2 (IH Hok) Hstep).
Qed.

Lemma exec_buffersz dev s evs s' :
  exec dev s evs s' -> system_ok s ->
  buffersz (shared s') = buffersz (shared s).
Proof.
  induction 1 as [s | s evs s1 ev s2 Hex IH Hstep]; intros Hok; [reflexivity|].
  rewrite (step_buffersz dev s1 ev s2 (exec_ok dev s evs s1 Hex Hok) Hstep).
  exact (IH Hok).
Qed.

Lemma appended_app evs1 evs2 : appended (evs1 ++ evs2) = appended evs1 ++ appended evs2.
Proof. unfold appended. rewrite map_app, concat_app. reflexivity. Qed.

(** Along a run, the stream grows by exactly the entries the producers
    added, in the order they added them. *)
Lemma exec_stream dev s evs s' :
  exec dev s evs s' -> system_ok s -> buffersz (shared s) < 2 ^ 31 ->
  stream s' = stream s ++ appended evs.
Proof.
  induction 1 as [s | s evs s1 ev s2 Hex IH Hstep]; intros Hok Hsmall.
  - unfold appended. simpl. rewrite app_nil_r. reflexivity.
  - rewrite appended_app, app_assoc, <- (IH Hok Hsmall).
    apply (step_stream dev s1 ev s2); [exact (exec_ok dev s evs s1 Hex Hok)| |exact Hstep].
    rewrite (exec_buffersz dev s evs s1 Hex Hok). exact Hsmall.
Qed.

(** ** Schedules are runs *)

Lemma perform_step dev a s s' :
  perform dev a s = Some s' -> step dev s (event_of a) s'.
Proof.
  destruct a as [msg| |fuel|timer_due|fuel|fuel]; simpl.
  - destruct (Z.ltb_spec (len msg) 2048); [|discriminate].
    destruct (do_add_log_entry (shared s) msg) as [l|l|l] eqn:E; [|discriminate..].
    intros [= <-]. apply step_append; assumption.
  - intros [= <-]. apply step_stop.
  - destruct (pc s) eqn:Hpc; try discriminate.
    destruct (open_logfile dev fuel s) as [[ret s1]|] eqn:E; [|discriminate].
    intros [= <-]. eapply step_start; eassumption.
  - destruct (pc s) eqn:Hpc; try discriminate.
    destruct (Z.eqb_spec (run (shared s)) 0); [discriminate|].
    intros [= <-]. apply step_wake; assumption.
  - destruct (pc s) eqn:Hpc; try discriminate.
    destruct (flush_cycle dev fuel s this) as [s1|] eqn:E; [|discriminate].
    intros [= <-]. eapply step_flushed; eassumption.
  - destruct (pc s) eqn:Hpc; try discriminate.
    destruct (Z.eqb_spec (run (shared s)) 0); [|discriminate].
    intros Hexit. eapply step_exit; eassumption.
Qed.

Lemma exec_cons dev s ev s1 evs s2 :
  step dev s ev s1 -> exec dev s1 evs s2 -> exec dev s (ev :: evs) s2.
Proof.
  intros Hstep Hex. induction Hex as [s1 | s1 evs s2 ev' s3 _ IH Hstep'].
  - apply (exec_step dev s [] s ev s1); [apply exec_nil | exact Hstep].
  - rewrite app_comm_cons. eapply exec_step; [exact (IH Hstep) | exact Hstep'].
Qed.

Lemma replay_exec dev acts : forall s s',
  replay dev acts s = Some s' -> exec dev s (map event_of acts) s'.
Proof.
  induction acts as [|a acts IH]; intros s s' Hrun; simpl in *.
  - injection Hrun as <-. apply exec_nil.
  - destruct (perform dev a s) as [s1|] eqn:E; [|discriminate].
    eapply exec_cons; [apply perform_step; exact E | apply IH; exact Hrun].
Qed.

Lemma exec_reachable dev s evs s' :
  exec dev s evs s' -> reachable dev s -> reachable dev s'.
Proof.
  induction 1 as [s | s evs s1 ev s2 _ IH Hstep]; intros Hr; [exact Hr|].
  eapply reachable_step; [exact (IH Hr) | exact Hstep].
Qed.

Lemma replay_reachable dev acts s s' :
  initial s -> replay dev acts s = Some s' -> reachable dev s'.
Proof.
  intros Hinit Hrun. eapply exec_reachable; [apply replay_exec; exact Hrun|].
  apply reachable_initial. exact Hinit.
Qed.

Lemma booted_initial bsz cyc :
  0 <= bsz < 2 ^ 63 -> initial (booted (configured bsz cyc)).
Proof.
  intros Hz. unfold initial, booted, configured. simpl.
  assert (Hl : len (repeat NUL (Z.to_nat bsz)) = bsz)
    by (unfold len; rewrite repeat_length; lia).
  repeat split; try reflexivity; try assumption; lia.
Qed.

Lemma stream_initial s : initial s -> stream s = [].
Proof.
  intros (Ho0 & _ & _ & _ & _ & Hc & _ & _ & Hpc & _ & _ & Hcr & _).
  unfold stream, in_flight, persisted. rewrite Hpc, Hcr, Hc. simpl.
  apply contents_empty. exact Ho0.
Qed.

(** A pass of the flusher touches no file but the one behind [fp]. *)
Lemma flush_cycle_frame dev fuel s this s1 x f :
  system_ok s ->
  flush_cycle dev fuel s this = Some s1 ->
  files (disk s) !! x = Some f -> fp s <> Some x ->
  files (disk s1) !! x = Some f.
Proof.
  intros (Hb & (_ & Hfp & _ & Hd) & Hid) Hcycle Hx Hne. unfold flush_cycle in Hcycle.
  destruct (flush_pending_io dev fuel s (fp s) this) as [[n s2]|] eqn:Hrun;
    [|discriminate].
  destruct (flush_pending_io_ok _ _ _ _ _ _ Hb Hd Hfp Hrun)
    as (_ & Hs2 & Hd2 & Hc2 & _ & _ & Hsame & _).
  assert (Hx2 : files (disk s2) !! x = Some f) by (rewrite Hsame; assumption).
  destruct (size_t (currsize s2 + n) >? cyclesz (shared s2)).
  - destruct (reopen_logfile dev fuel s2 (fp s2)) as [[r s3]|] eqn:Hre;
      [|discriminate].
    injection Hcycle as <-.
    assert (Hfp2 : forall h, fp s2 = Some h -> last (created (disk s2)) = Some h).
    { intros h Hh. rewrite Hc2. apply Hfp. rewrite Hs2 in Hh. exact Hh. }
    destruct (reopen_logfile_ok dev fuel s2 r s3 Hd2 Hfp2) as
      (_ & _ & _ & _ & _ & _ & _ & _ & Hkeep);
      [rewrite Hs2; exact Hid | exact Hre |].
    simpl. apply Hkeep. exact Hx2.
  - injection Hcycle as <-. exact Hx2.
Qed.

(** ** Waiting for room *)

Lemma do_add_log_entry_offset l msg l' :
  buffers_ok l -> len msg < 2048 ->
  do_add_log_entry l msg = Done l' ->
  currbuffer l' = currbuffer l /\
  offset (buffers l' (currbuffer l'))
  = offset (buffers l (currbuffer l)) + len msg.
Proof.
  intros Hok Hlen Hadd.
  pose proof (do_add_log_entry_done_room _ _ _ Hok Hlen Hadd) as Hroom.
  rewrite do_add_log_entry_room in Hadd by assumption. injection Hadd as <-.
  rewrite (proj1 (set_buffer_frame _ _ _)), buffers_set_buffer_same.
  split; reflexivity.
Qed.

(** Whether an entry has to wait depends on the current buffer only. *)
Lemma do_add_log_entry_blocked l msg :
  buffers_ok l -> len msg < 2048 ->
  (exists l', do_add_log_entry l msg = Waiting l') <->
  offset (buffers l (currbuffer l)) + len msg >= buffersz l.
Proof.
  intros Hok Hlen.
  destruct (buffers_ok_current l Hok) as [Hoff _].
  destruct Hok as (_ & Hsz & _). pose proof (len_nonneg msg).
  unfold do_add_log_entry. rewrite size_t_small by lia.
  destruct (Z.geb_spec (offset (buffers l (currbuffer l)) + len msg) (buffersz l)).
  - split; [lia | eauto].
  - split; [intros [l' Hl']; discriminate | lia].
Qed.

Lemma drain_empty dev fuel s file :
  offset (buffers (shared s) (currbuffer (shared s))) = 0 ->
  drain dev fuel s file = Some s.
Proof. intros H. destruct fuel; simpl; rewrite H; reflexivity. Qed.

(** The drain leaves the variables alone when the current buffer is empty,
    and otherwise ends with the buffers swapped. *)
Lemma drain_currbuffer dev fuel s s1 :
  buffers_ok (shared s) ->
  offset (buffers (shared s) (other (shared s))) = 0 ->
  drain dev fuel s (fp s) = Some s1 ->
  (offset (buffers (shared s) (currbuffer (shared s))) = 0 /\ shared s1 = shared s)
  \/ currbuffer (shared s1) = other (shared s).
Proof.
  intros Hb Hpass Hrun.
  destruct (Z.eq_dec (offset (buffers (shared s) (currbuffer (shared s)))) 0)
    as [H0|H0].
  { rewrite drain_empty in Hrun by exact H0. injection Hrun as <-. auto. }
  right. destruct fuel as [|fuel]; simpl in Hrun.
  - destruct (Z.eqb_spec (offset (buffers (shared s) (currbuffer (shared s)))) 0);
      [contradiction|discriminate].
  - destruct (Z.eqb_spec (offset (buffers (shared s) (currbuffer (shared s)))) 0);
      [contradiction|].
    destruct (flush_pending_io dev (S fuel) (set_shared s (flip (shared s)))
                (fp s) (currbuffer (shared s))) as [[ret s3]|] eqn:Hfl;
      [|discriminate].
    assert (Hoff : 0 <= offset (buffers (shared (set_shared s (flip (shared s))))
                              (currbuffer (shared s)))).
    { simpl. rewrite buffers_flip. apply (buffers_ok_at _ _ Hb). }
    destruct (flush_pending_io_shared _ _ _ _ _ _ _ Hoff Hfl) as [_ Hs3].
    simpl in Hs3. rewrite buffers_flip in Hs3.
    destruct (other_flip _ (proj1 Hb)) as [Hcf _].
    assert (Hcur3 : currbuffer (shared s3) = other (shared s)).
    { rewrite Hs3. simpl. rewrite (proj1 (set_buffer_frame _ _ _)). exact Hcf. }
    assert (H30 : offset (buffers (shared s3) (currbuffer (shared s3))) = 0).
    { rewrite Hcur3, Hs3. simpl.
      rewrite buffers_set_buffer_other, buffers_flip; [exact Hpass|].
      intros E. apply (other_differs _ (proj1 Hb)). symmetry. exact E. }
    rewrite drain_empty in Hrun by exact H30. injection Hrun as <-. exact Hcur3.
Qed.

Lemma same_buffers_blocked l l' (msg : list ascii) :
  same_buffers l l' ->
  offset (buffers l' (currbuffer l')) + len msg >= buffersz l' <->
  offset (buffers l (currbuffer l)) + len msg >= buffersz l.
Proof.
  intros Hsame. rewrite (same_buffers_buffers _ _ _ Hsame).
  destruct Hsame as (_ & _ & -> & ->). reflexivity.
Qed.

(** A producer that waits goes on waiting through every step but a swap
    of the buffers by the flusher. *)
Lemma waiting_until_swap dev s ev s' (msg : list ascii) :
  system_ok s -> len msg < 2048 ->
  offset (buffers (shared s) (currbuffer (shared s))) + len msg >= buffersz (shared s) ->
  step dev s ev s' ->
  offset (buffers (shared s') (currbuffer (shared s'))) + len msg < buffersz (shared s') ->
  ev = Quiet /\ currbuffer (shared s') = other (shared s).
Proof.
  intros Hok Hlen Hblocked Hstep Hfree.
  pose proof (step_buffersz dev s ev s' Hok Hstep) as Hz.
  destruct Hstep as
    [s m l Hm Hadd | s m l Hwait | s ll level text | s
    | s fuel ret s1 Hpc Hopen | s timer_due Hpc Hrun
    | s this fuel s1 Hpc Hcycle | s fuel s1 Hpc Hrun Hexit].
  - exfalso. destruct Hok as (Hb & _).
    destruct (do_add_log_entry_offset _ _ _ Hb Hm Hadd) as [Hc Ho].
    simpl in *. pose proof (len_nonneg m). lia.
  - exfalso. pose proof (do_add_log_entry_waiting _ _ _ Hwait) as Hsame.
    apply (same_buffers_blocked _ _ msg) in Hsame.
    cbn [shared set_shared] in Hfree. lia.
  - exfalso. pose proof (same_buffers_bookkeeping (shared s) ll level text) as Hsame.
    apply (same_buffers_blocked _ _ msg) in Hsame.
    cbn [shared set_shared] in Hfree. lia.
  - exfalso. pose proof (same_buffers_set_run (shared s) 0) as Hsame.
    apply (same_buffers_blocked _ _ msg) in Hsame.
    cbn [shared set_shared] in Hfree. lia.
  - exfalso. destruct Hok as (Hb & (Hpass & Hfp & Hst & Hd) & Hid).
    destruct (Hst Hpc) as [Hnone _].
    assert (Hre : reopen_logfile dev fuel s (fp s) = Some (ret, s1))
      by (unfold reopen_logfile; rewrite Hnone; exact Hopen).
    destruct (reopen_logfile_ok dev fuel s ret s1 Hd Hfp Hid Hre) as (Hsame & _).
    apply (same_buffers_blocked _ _ msg) in Hsame.
    cbn [shared set_pc set_file] in Hfree. lia.
  - split; [reflexivity|]. unfold inner_loop in *.
    destruct (timer_due || _); simpl in *.
    + destruct Hok as ((Hc & _) & _). exact (proj1 (other_flip _ Hc)).
    + lia.
  - split; [reflexivity|].
    destruct Hok as (Hb & (Hpass & Hfp & Hst & Hd) & Hid). rewrite Hpc in Hpass.
    destruct (flush_cycle_ok dev fuel s this s1 Hb Hd Hfp Hid Hcycle) as (Hsame & _).
    pose proof (same_buffers_buffers _ _ (currbuffer (shared s)) Hsame) as Hbuf.
    pose proof (same_buffers_other _ _ Hsame) as Hoth.
    rewrite other_set_buffer in Hoth.
    destruct Hsame as (_ & _ & Hc1 & Hz1).
    rewrite (proj1 (set_buffer_frame _ _ _)) in Hc1.
    rewrite buffers_set_buffer_other in Hbuf
      by (rewrite Hpass; apply other_differs; exact (proj1 Hb)).
    unfold inner_loop in *.
    destruct (false || _); simpl in *.
    + rewrite <- Hoth. apply other_flip. rewrite Hc1. exact (proj1 Hb).
    + rewrite Hc1, Hbuf in Hfree. lia.
  - split; [reflexivity|].
    destruct Hok as (Hb & (Hpass & Hfp & Hst & Hd) & Hid). rewrite Hpc in Hpass.
    unfold thread_exit in Hexit. destruct (fp s) as [h|] eqn:E in Hexit.
    + rewrite <- E in Hexit.
      destruct (drain dev fuel s (fp s)) as [s2|] eqn:Hdr; [|discriminate].
      injection Hexit as <-.
      destruct (drain_currbuffer dev fuel s s2 Hb Hpass Hdr) as [[_ Hsh]|Hsw].
      * exfalso. unfold close_logfile in *. destruct (fp s2); simpl in *;
          rewrite Hsh in *; lia.
      * unfold close_logfile. destruct (fp s2); simpl; exact Hsw.
    + exfalso. injection Hexit as <-. simpl in *. lia.
Qed.

(** ** Calls of the producers are runs of the system *)

Lemma exec_app dev s evs1 s1 evs2 s2 :
  exec dev s evs1 s1 -> exec dev s1 evs2 s2 -> exec dev s (evs1 ++ evs2) s2.
Proof.
  intros H1 H2. induction H2 as [s1 | s1 evs2 s2 ev s3 _ IH Hstep].
  - rewrite app_nil_r. exact H1.
  - rewrite app_assoc. eapply exec_step; [exact (IH H1) | exact Hstep].
Qed.

Lemma exec_one dev s ev s' : step dev s ev s' -> exec dev s [ev] s'.
Proof. intros H. eapply exec_cons; [exact H | apply exec_nil]. Qed.

Lemma set_shared_twice s l1 l2 : set_shared (set_shared s l1) l2 = set_shared s l2.
Proof. reflexivity. Qed.

Lemma exec_eprint dev s text :
  exec dev s [Quiet] (set_shared s (eprint (shared s) text)).
Proof.
  apply exec_one.
  exact (step_bookkeeping dev s (lastlog (shared s)) (current_log_level (shared s)) text).
Qed.

Lemma exec_set_lastlog dev s ll :
  exec dev s [Quiet] (set_shared s (set_lastlog (shared s) ll)).
Proof.
  apply exec_one.
  replace (set_lastlog (shared s) ll)
    with (bookkeeping (shared s) ll (current_log_level (shared s)) []).
  - apply step_bookkeeping.
  - unfold bookkeeping, set_lastlog. rewrite app_nil_r. reflexivity.
Qed.

Lemma flush_last_log_exec dev s l :
  flush_last_log (shared s) = Done l ->
  exists evs, exec dev s evs (set_shared s l) /\
              appended evs = pending_summary (shared s).
Proof.
  unfold flush_last_log, pending_summary.
  destruct (lastlog_count (lastlog (shared s)) >? 1).
  - intros Hadd. eexists. split.
    + apply exec_one. apply step_append; [|exact Hadd].
      pose proof (repeated_line_fits (lastlog_count (lastlog (shared s)))). lia.
    + unfold appended. cbn [map concat]. apply app_nil_r.
  - intros [= <-]. exists []. split; [|reflexivity].
    destruct s. apply exec_nil.
Qed.

(** A call of [add_log_entry] that returns is a run of the system, and the
    entries it adds are the pending summary and the record, or nothing
    when the record only counts as a repeat. *)
Lemma add_log_entry_exec dev s msg prefixlen l :
  len msg < 2048 ->
  add_log_entry (shared s) msg prefixlen = Done l ->
  exists evs, exec dev s evs (set_shared s l) /\
    (appended evs = [] \/ appended evs = pending_summary (shared s) ++ msg).
Proof.
  intros Hlen. unfold add_log_entry.
  destruct (len msg <? 512).
  - destruct (memcmp _ _ _) as [r|]; [|discriminate].
    destruct (r =? 0).
    + intros [= <-]. eexists. split; [apply exec_set_lastlog|]. left. reflexivity.
    + destruct (flush_last_log (shared s)) as [l1|l1|l1] eqn:E1; [|discriminate..].
      cbn [and_then].
      destruct (do_add_log_entry l1 msg) as [l2|l2|l2] eqn:E2; [|discriminate..].
      cbn [and_then]. intros [= <-].
      destruct (flush_last_log_exec dev s l1 E1) as (evs1 & Hex1 & Happ1).
      exists (evs1 ++ [Appended msg] ++ [Quiet]). split.
      * eapply exec_app; [exact Hex1|]. eapply exec_app.
        -- apply exec_one.
           exact (step_append dev (set_shared s l1) msg l2 Hlen E2).
        -- exact (exec_set_lastlog dev (set_shared s l2) _).
      * right. rewrite !appended_app, Happ1. unfold appended.
        cbn [map concat]. rewrite !app_nil_r. reflexivity.
  - destruct (flush_last_log (shared s)) as [l1|l1|l1] eqn:E1; [|discriminate..].
    cbn [and_then]. intros Hadd.
    destruct (flush_last_log_exec dev s l1 E1) as (evs1 & Hex1 & Happ1).
    exists (evs1 ++ [Quiet] ++ [Appended msg]). split.
    + eapply exec_app; [exact Hex1|]. eapply exec_app.
      * exact (exec_set_lastlog dev (set_shared s l1)
                 (mk_lastlog (memcpy (lastlog_buffer (lastlog l1)) 0 [NUL]) 0 0)).
      * apply exec_one.
        exact (step_append dev
                 (set_shared (set_shared s l1)
                    (set_lastlog l1
                       (mk_lastlog (memcpy (lastlog_buffer (lastlog l1)) 0 [NUL]) 0 0)))
                 msg l Hlen Hadd).
    + right. rewrite !appended_app, Happ1. unfold appended.
      cbn [map concat]. rewrite !app_nil_r. reflexivity.
Qed.

Lemma terminate_line_length text : len (terminate_line text) <= len text + 1.
Proof.
  rewrite terminate_line_spec, len_app.
  destruct (Nat.eqb _ 0); unfold len; simpl; lia.
Qed.

(** A call of [logger_log] that returns is a run of the system. *)
Lemma logger_log_exec dev s severity tod msg l :
  (forall tv_sec tv_usec str tz, tod = TodOk tv_sec tv_usec str tz ->
     len (prefix_of (shared s) severity tv_sec tv_usec str tz) <= 2047) ->
  logger_log (shared s) severity tod msg = Done l ->
  exists evs, exec dev s evs (set_shared s l).
Proof.
  intros Hfit. destruct tod as [err|tv_sec tv_usec str tz].
  - unfold logger_log. destruct (_ || _).
    + intros [= <-]. eexists. apply exec_eprint.
    + intros [= <-]. exists []. destruct s. apply exec_nil.
  - specialize (Hfit _ _ _ _ eq_refl).
    rewrite logger_log_formatted by exact Hfit.
    destruct (_ || _); [|intros [= <-]; exists []; destruct s; apply exec_nil].
    destruct (Z.ltb_spec (len msg)
                (2047 - len (prefix_of (shared s) severity tv_sec tv_usec str tz)));
      [|intros [= <-]; eexists; apply exec_eprint].
    cbv zeta.
    set (record := terminate_line
                     (prefix_of (shared s) severity tv_sec tv_usec str tz ++ msg)).
    assert (Hrec : len record < 2048).
    { pose proof (terminate_line_length
                    (prefix_of (shared s) severity tv_sec tv_usec str tz ++ msg)) as Hl.
      rewrite len_app in Hl. subst record. lia. }
    destruct (severity >=? output_level (shared s)).
    + destruct (severity >=? current_log_level (shared s)).
      * intros Hadd.
        destruct (add_log_entry_exec dev
                    (set_shared s (eprint (shared s) (c_str record)))
                    record _ l Hrec Hadd) as (evs & Hex & _).
        eexists. eapply exec_app; [apply exec_eprint | exact Hex].
      * intros [= <-]. eexists. apply exec_eprint.
    + destruct (severity >=? current_log_level (shared s)).
      * intros Hadd.
        destruct (add_log_entry_exec dev s record _ l Hrec Hadd) as (evs & Hex & _).
        eexists. exact Hex.
      * intros [= <-]. exists []. destruct s. apply exec_nil.
Qed.

(** ** Calls that wait and go on: what the flusher leaves alone *)

Lemma do_add_log_entry_vars l msg :
  lastlog (state_of (do_add_log_entry l msg)) = lastlog l /\
  run (state_of (do_add_log_entry l msg)) = run l.
Proof.
  unfold do_add_log_entry. destruct (_ >=? _); cbn [state_of].
  - destruct (unit_test l); auto.
  - split; apply set_buffer_frame.
Qed.

Lemma do_add_log_entry_lastlog l msg :
  lastlog (state_of (do_add_log_entry l msg)) = lastlog l.
Proof. apply do_add_log_entry_vars. Qed.

Lemma do_add_log_entry_run l msg : run (state_of (do_add_log_entry l msg)) = run l.
Proof. apply do_add_log_entry_vars. Qed.

Lemma flush_last_log_lastlog l :
  lastlog (state_of (flush_last_log l)) = lastlog l.
Proof.
  unfold flush_last_log. destruct (_ >? 1); [|reflexivity].
  apply do_add_log_entry_lastlog.
Qed.

Lemma open_logfile_vars dev fuel s ret s1 :
  open_logfile dev fuel s = Some (ret, s1) ->
  lastlog (shared s1) = lastlog (shared s) /\ run (shared s1) = run (shared s).
Proof.
  unfold open_logfile.
  destruct (open_logfile_probe fuel (disk s) (arg s) (next_id s))
    as [[fname id]|]; [|discriminate].
  unfold iops_open. destruct (open_result dev (opens (disk s)));
    intros [= <- <-]; cbn; auto.
Qed.

Lemma flush_pending_io_vars dev fuel s file this n s' :
  flush_pending_io dev fuel s file this = Some (n, s') ->
  lastlog (shared s') = lastlog (shared s) /\ run (shared s') = run (shared s).
Proof.
  unfold flush_pending_io. destruct (offset _ >? 0).
  - destruct file as [h|]; [|discriminate].
    destruct (write_pending _ _ _ _ _ _) as [st|]; [|discriminate].
    intros [= _ <-]. cbn. split; apply set_buffer_frame.
  - intros [= _ <-]. auto.
Qed.

Lemma flush_cycle_vars dev fuel s this s1 :
  flush_cycle dev fuel s this = Some s1 ->
  lastlog (shared s1) = lastlog (shared s) /\ run (shared s1) = run (shared s).
Proof.
  unfold flush_cycle.
  destruct (flush_pending_io dev fuel s (fp s) this) as [[n s2]|] eqn:Hfl;
    [|discriminate].
  destruct (flush_pending_io_vars _ _ _ _ _ _ _ Hfl) as [Hl Hr].
  destruct (size_t (currsize s2 + n) >? cyclesz (shared s2)).
  - unfold reopen_logfile.
    destruct (open_logfile dev fuel (close_logfile s2 (fp s2))) as [[f s3]|] eqn:Hop;
      [|discriminate].
    intros [= <-]. destruct (open_logfile_vars _ _ _ _ _ Hop) as [Hl3 Hr3].
    cbn [shared set_file]. rewrite Hl3, Hr3.
    unfold close_logfile. destruct (fp s2); cbn [shared set_disk]; auto.
  - intros [= <-]. auto.
Qed.

Lemma drain_vars dev fuel : forall s file s1,
  drain dev fuel s file = Some s1 ->
  lastlog (shared s1) = lastlog (shared s) /\ run (shared s1) = run (shared s).
Proof.
  induction fuel as [|fuel IH]; intros s file s1; cbn [drain];
    destruct (offset (buffers (shared s) (currbuffer (shared s))) =? 0);
    try discriminate; try (intros [= <-]; auto).
  destruct (flush_pending_io dev (S fuel) (set_shared s (flip (shared s))) file
              (currbuffer (shared s))) as [[n s3]|] eqn:Hfl; [|discriminate].
  intros Hrun. destruct (IH _ _ _ Hrun) as [Hl Hr]. rewrite Hl, Hr.
  exact (flush_pending_io_vars _ _ _ _ _ _ _ Hfl).
Qed.

Lemma inner_loop_vars timer_due s :
  lastlog (shared (inner_loop timer_due s)) = lastlog (shared s) /\
  run (shared (inner_loop timer_due s)) = run (shared s).
Proof. unfold inner_loop. destruct (timer_due || _); auto. Qed.

(** The flusher thread touches neither the de-duplicator nor [run]. *)
Lemma flusher_step_vars dev s s' :
  flusher_step dev s s' ->
  lastlog (shared s') = lastlog (shared s) /\ run (shared s') = run (shared s).
Proof.
  intros [s1 fuel ret s2 Hpc Hopen | s1 timer_due Hpc Hrun
         | s1 this fuel s2 Hpc Hcycle | s1 fuel s2 Hpc Hrun Hexit].
  - exact (open_logfile_vars _ _ _ _ _ Hopen).
  - apply inner_loop_vars.
  - destruct (inner_loop_vars false s2) as [-> ->].
    exact (flush_cycle_vars _ _ _ _ _ Hcycle).
  - unfold thread_exit in Hexit. destruct (fp s1) as [h|].
    + destruct (drain dev fuel s1 (Some h)) as [s3|] eqn:Hdr; [|discriminate].
      injection Hexit as <-. destruct (drain_vars _ _ _ _ _ Hdr) as [<- <-].
      unfold close_logfile. destruct (fp s3); auto.
    + injection Hexit as <-. auto.
Qed.

Lemma flusher_step_step dev s s' : flusher_step dev s s' -> step dev s Quiet s'.
Proof.
  intros [s1 fuel ret s2 Hpc Hopen | s1 timer_due Hpc Hrun
         | s1 this fuel s2 Hpc Hcycle | s1 fuel s2 Hpc Hrun Hexit].
  - eapply step_start; eassumption.
  - apply step_wake; assumption.
  - eapply step_flushed; eassumption.
  - eapply step_exit; eassumption.
Qed.

Lemma meanwhile_exec dev alone s evs s' :
  meanwhile dev alone s evs s' -> exec dev s evs s'.
Proof.
  induction 1 as [s | s evs s1 s2 _ IH Hstep | s evs s1 ev s2 _ _ IH Hstep].
  - apply exec_nil.
  - eapply exec_step; [exact IH|]. apply flusher_step_step. exact Hstep.
  - eapply exec_step; eassumption.
Qed.

(** While a producer that is alone waits, nothing is added and the
    de-duplicator and [run] stay as they are. *)
Lemma meanwhile_alone dev s evs s' :
  meanwhile dev true s evs s' ->
  appended evs = [] /\
  lastlog (shared s') = lastlog (shared s) /\ run (shared s') = run (shared s).
Proof.
  induction 1 as [s | s evs s1 s2 _ IH Hstep | s evs s1 ev s2 Hfalse _ _ _].
  - auto.
  - destruct IH as (Ha & Hl & Hr).
    destruct (flusher_step_vars _ _ _ Hstep) as [Hl2 Hr2].
    rewrite appended_app, Ha, Hl2, Hr2. auto.
  - discriminate.
Qed.

(** [run] is cleared once and for all. *)
Lemma step_run_zero dev s ev s' :
  step dev s ev s' -> run (shared s) = 0 -> run (shared s') = 0.
Proof.
  intros Hstep H0. destruct Hstep as
    [s msg l Hlen Hadd | s msg l Hwait | s ll level text | s
    | s fuel ret s1 Hpc Hopen | s timer_due Hpc Hrun
    | s this fuel s1 Hpc Hcycle | s fuel s1 Hpc Hrun Hexit].
  - pose proof (do_add_log_entry_run (shared s) msg) as H. rewrite Hadd in H.
    cbn in *. congruence.
  - pose proof (do_add_log_entry_run (shared s) msg) as H. rewrite Hwait in H.
    cbn in *. congruence.
  - exact H0.
  - reflexivity.
  - rewrite <- H0. exact (proj2 (flusher_step_vars dev _ _
                                   (flusher_start dev s fuel ret s1 Hpc Hopen))).
  - contradiction.
  - rewrite <- H0. exact (proj2 (flusher_step_vars dev _ _
                                   (flusher_flushed dev s this fuel s1 Hpc Hcycle))).
  - rewrite <- H0. exact (proj2 (flusher_step_vars dev _ _
                                   (flusher_exit dev s fuel s1 Hpc Hrun Hexit))).
Qed.

Lemma exec_run_zero dev s evs s' :
  exec dev s evs s' -> run (shared s) = 0 -> run (shared s') = 0.
Proof.
  induction 1 as [s | s evs s1 ev s2 _ IH Hstep]; intros H0; [exact H0|].
  exact (step_run_zero dev s1 ev s2 Hstep (IH H0)).
Qed.

(** ** Calls that wait and go on: what they add *)

(** A call of [do_add_log_entry] that returns is a run of the system; the
    entry is the last thing added in it, and all that is added when the
    producer is alone. *)
Lemma do_add_log_entry_returns_exec dev alone s (msg : list ascii) evs s' :
  len msg < 2048 ->
  do_add_log_entry_returns dev alone s msg evs s' ->
  exec dev s evs s' /\
  exists before, appended evs = before ++ msg /\ (alone = true -> before = []).
Proof.
  intros Hlen. induction 1 as [s msg l Hadd | s msg l evs1 s1 evs2 s2 Hwait Hmean _ IH].
  - split; [apply exec_one, step_append; assumption|].
    exists []. split; [|reflexivity]. unfold appended. cbn. apply app_nil_r.
  - destruct (IH Hlen) as (Hex & before & Happ & Hnil).
    split.
    + apply (exec_cons dev s Quiet (set_shared s l)); [exact (step_wait dev s msg l Hwait)|].
      eapply exec_app; [exact (meanwhile_exec _ _ _ _ _ Hmean) | exact Hex].
    + exists (appended evs1 ++ before). split.
      * change (Quiet :: evs1 ++ evs2) with ([Quiet] ++ evs1 ++ evs2).
        rewrite !appended_app, Happ, <- app_assoc. reflexivity.
      * intros ->. rewrite (Hnil eq_refl), app_nil_r.
        exact (proj1 (meanwhile_alone _ _ _ _ Hmean)).
Qed.

Lemma do_add_log_entry_returns_vars dev s msg evs s' :
  do_add_log_entry_returns dev true s msg evs s' ->
  lastlog (shared s') = lastlog (shared s) /\ run (shared s') = run (shared s).
Proof.
  induction 1 as [s msg l Hadd | s msg l evs1 s1 evs2 s2 Hwait Hmean _ IH].
  - destruct (do_add_log_entry_vars (shared s) msg) as [Hl Hr].
    rewrite Hadd in Hl, Hr. exact (conj Hl Hr).
  - destruct IH as [Hl Hr].
    destruct (meanwhile_alone _ _ _ _ Hmean) as (_ & Hl1 & Hr1).
    destruct (do_add_log_entry_vars (shared s) msg) as [Hl0 Hr0].
    rewrite Hwait in Hl0, Hr0. cbn [state_of shared set_shared] in *.
    rewrite Hl, Hr, Hl1, Hr1. auto.
Qed.

(** The same for [flush_last_log]: what it adds is the pending summary. *)
Lemma flush_last_log_returns_exec dev alone s evs s' :
  flush_last_log_returns dev alone s evs s' ->
  exec dev s evs s' /\
  exists before,
    appended evs = before ++ pending_summary (shared s) /\
    (alone = true -> before = []).
Proof.
  unfold flush_last_log_returns, pending_summary.
  destruct (lastlog_count (lastlog (shared s)) >? 1).
  - apply do_add_log_entry_returns_exec.
    pose proof (repeated_line_fits (lastlog_count (lastlog (shared s)))). lia.
  - intros [-> ->]. split; [apply exec_nil|]. exists []. auto.
Qed.

Lemma flush_last_log_returns_vars dev s evs s' :
  flush_last_log_returns dev true s evs s' ->
  lastlog (shared s') = lastlog (shared s) /\ run (shared s') = run (shared s).
Proof.
  unfold flush_last_log_returns.
  destruct (lastlog_count (lastlog (shared s)) >? 1).
  - apply do_add_log_entry_returns_vars.
  - intros [_ ->]. auto.
Qed.

Lemma flush_last_log_run l : run (state_of (flush_last_log l)) = run l.
Proof.
  unfold flush_last_log. destruct (_ >? 1); [apply do_add_log_entry_run|reflexivity].
Qed.

(** ** The de-duplicator, through its waits *)


(** A call of [add_log_entry] that returns is a run of the system. *)
Lemma add_log_entry_returns_exec dev alone s (msg : list ascii) prefixlen evs s' :
  len msg < 2048 ->
  add_log_entry_returns dev alone s msg prefixlen evs s' -> exec dev s evs s'.
Proof.
  intros Hlen. unfold add_log_entry_returns.
  destruct (len msg <? 512).
  - destruct (memcmp _ _ _) as [r|]; [|contradiction].
    destruct (r =? 0).
    + intros [-> ->]. apply exec_set_lastlog.
    + intros (evs1 & s1 & evs2 & s2 & Hfl & Hadd & -> & ->).
      eapply exec_app;
        [exact (proj1 (flush_last_log_returns_exec _ _ _ _ _ Hfl))|].
      eapply exec_app;
        [exact (proj1 (do_add_log_entry_returns_exec _ _ _ _ _ _ Hlen Hadd))|].
      apply exec_set_lastlog.
  - intros (evs1 & s1 & evs2 & Hfl & Hadd & ->).
    eapply exec_app;
      [exact (proj1 (flush_last_log_returns_exec _ _ _ _ _ Hfl))|].
    eapply exec_app; [apply exec_set_lastlog|].
    exact (proj1 (do_add_log_entry_returns_exec _ _ _ _ _ _ Hlen Hadd)).
Qed.




(** A schedule of flusher steps is what may happen while a producer
    waits. *)
Lemma meanwhile_cons dev alone s s1 evs s2 :
  flusher_step dev s s1 -> meanwhile dev alone s1 evs s2 ->
  meanwhile dev alone s (Quiet :: evs) s2.
Proof.
  intros Hstep Hm.
  induction Hm as [s1 | s1 evs s2 s3 _ IH Hstep' | s1 evs s2 ev s3 Hal _ IH Hstep'].
  - apply (meanwhile_flusher dev alone s [] s s1); [apply meanwhile_nil|exact Hstep].
  - rewrite app_comm_cons. eapply meanwhile_flusher; [exact (IH Hstep)|exact Hstep'].
  - rewrite app_comm_cons. eapply meanwhile_others; [exact Hal|exact (IH Hstep)|exact Hstep'].
Qed.

Lemma perform_flusher_step dev a s s' :
  flusher_action a = true -> perform dev a s = Some s' ->
  flusher_step dev s s' /\ event_of a = Quiet.
Proof.
  destruct a as [msg| |fuel|timer_due|fuel|fuel]; simpl; try discriminate; intros _.
  - destruct (pc s) eqn:Hpc; try discriminate.
    destruct (open_logfile dev fuel s) as [[ret s1]|] eqn:E; [|discriminate].
    intros [= <-]. split; [|reflexivity]. eapply flusher_start; eassumption.
  - destruct (pc s) eqn:Hpc; try discriminate.
    destruct (Z.eqb_spec (run (shared s)) 0); [discriminate|].
    intros [= <-]. split; [|reflexivity]. apply flusher_wake; assumption.
  - destruct (pc s) eqn:Hpc; try discriminate.
    destruct (flush_cycle dev fuel s this) as [s1|] eqn:E; [|discriminate].
    intros [= <-]. split; [|reflexivity]. eapply flusher_flushed; eassumption.
  - destruct (pc s) eqn:Hpc; try discriminate.
    destruct (Z.eqb_spec (run (shared s)) 0); [|discriminate].
    intros Hexit. split; [|reflexivity]. eapply flusher_exit; eassumption.
Qed.

Lemma replay_meanwhile dev alone acts : forall s s',
  forallb flusher_action acts = true ->
  replay dev acts s = Some s' ->
  meanwhile dev alone s (map event_of acts) s'.
Proof.
  induction acts as [|a acts IH]; intros s s' Hall Hrun; simpl in *.
  - injection Hrun as <-. apply meanwhile_nil.
  - apply andb_prop in Hall. destruct Hall as [Ha Hall].
    destruct (perform dev a s) as [s1|] eqn:E; [|discriminate].
    destruct (perform_flusher_step dev a s s1 Ha E) as [Hstep ->].
    eapply meanwhile_cons; [exact Hstep | apply IH; assumption].
Qed.

(** The two ways a short record goes through [add_log_entry], from what
    the calls inside it do. *)
Lemma add_log_entry_returns_differs dev alone s msg prefixlen r evs1 s1 evs2 s2 :
  len msg < 512 ->
  memcmp (skipn (Z.to_nat (lastlog_offset (lastlog (shared s))))
            (lastlog_memory (lastlog (shared s))))
         (skipn (Z.to_nat prefixlen) msg)
         (Z.to_nat (size_t (len msg - prefixlen))) = Some r ->
  r <> 0 ->
  flush_last_log_returns dev alone s evs1 s1 ->
  do_add_log_entry_returns dev alone s1 msg evs2 s2 ->
  add_log_entry_returns dev alone s msg prefixlen (evs1 ++ evs2 ++ [Quiet])
    (remembered s2 msg prefixlen).
Proof.
  intros Hlen Hcmp Hr Hfl Hadd. unfold add_log_entry_returns.
  destruct (Z.ltb_spec (len msg) 512); [|lia].
  rewrite Hcmp. destruct (Z.eqb_spec r 0); [contradiction|].
  exists evs1, s1, evs2, s2. auto.
Qed.


(** ** The worker and [run] *)

Lemma inner_loop_pc timer_due s : pc (inner_loop timer_due s) <> Exited.
Proof. unfold inner_loop. destruct (timer_due || _); discriminate. Qed.

(** While [run] is set the worker does not return. *)
Lemma flusher_step_stays dev s s' :
  flusher_step dev s s' -> run (shared s) <> 0 -> pc s' <> Exited.
Proof.
  intros [s1 fuel ret s2 Hpc Hopen | s1 timer_due Hpc Hrun
         | s1 this fuel s2 Hpc Hcycle | s1 fuel s2 Hpc Hrun Hexit] Hnz.
  - discriminate.
  - apply inner_loop_pc.
  - apply inner_loop_pc.
  - contradiction.
Qed.

Lemma meanwhile_alone_stays dev s evs s' :
  meanwhile dev true s evs s' ->
  run (shared s) <> 0 -> pc s <> Exited -> pc s' <> Exited.
Proof.
  induction 1 as [s | s evs s1 s2 Hm IH Hstep | s evs s1 ev s2 Hfalse _ _ _];
    intros Hnz Hpc.
  - exact Hpc.
  - apply (flusher_step_stays dev s1 s2 Hstep).
    rewrite (proj2 (proj2 (meanwhile_alone _ _ _ _ Hm))). exact Hnz.
  - discriminate.
Qed.

Lemma do_add_log_entry_returns_stays dev s msg evs s' :
  do_add_log_entry_returns dev true s msg evs s' ->
  run (shared s) <> 0 -> pc s <> Exited -> pc s' <> Exited.
Proof.
  induction 1 as [s msg l Hadd | s msg l evs1 s1 evs2 s2 Hwait Hmean _ IH];
    intros Hnz Hpc.
  - exact Hpc.
  - pose proof (do_add_log_entry_run (shared s) msg) as Hr.
    rewrite Hwait in Hr. cbn [state_of] in Hr.
    apply IH.
    + rewrite (proj2 (proj2 (meanwhile_alone _ _ _ _ Hmean))). cbn. congruence.
    + apply (meanwhile_alone_stays _ _ _ _ Hmean); cbn; congruence.
Qed.

(** A worker that has returned found [run] clear. *)
Lemma step_exited_run dev s ev s' :
  step dev s ev s' ->
  (pc s = Exited -> run (shared s) = 0) ->
  pc s' = Exited -> run (shared s') = 0.
Proof.
  intros Hstep Hinv Hpc'.
  destruct Hstep as
    [s msg l Hlen Hadd | s msg l Hwait | s ll level text | s
    | s fuel ret s1 Hpc Hopen | s timer_due Hpc Hrun
    | s this fuel s1 Hpc Hcycle | s fuel s1 Hpc Hrun Hexit].
  - pose proof (do_add_log_entry_run (shared s) msg) as H. rewrite Hadd in H.
    cbn in *. rewrite H. auto.
  - pose proof (do_add_log_entry_run (shared s) msg) as H. rewrite Hwait in H.
    cbn in *. rewrite H. auto.
  - cbn in *. auto.
  - reflexivity.
  - discriminate.
  - exfalso. exact (inner_loop_pc _ _ Hpc').
  - exfalso. exact (inner_loop_pc _ _ Hpc').
  - rewrite <- Hrun.
    exact (proj2 (flusher_step_vars dev _ _ (flusher_exit dev s fuel s1 Hpc Hrun Hexit))).
Qed.

Lemma exec_exited_run dev s0 evs s :
  initial s0 -> exec dev s0 evs s -> pc s = Exited -> run (shared s) = 0.
Proof.
  intros Hinit Hex. induction Hex as [s | s evs s1 ev s2 _ IH Hstep].
  - destruct Hinit as (_ & _ & _ & _ & _ & _ & _ & _ & Hpc & _). congruence.
  - exact (step_exited_run dev s1 ev s2 Hstep (IH Hinit)).
Qed.

Lemma set_run_same l : run l = 0 -> set_run l 0 = l.
Proof. destruct l. cbn. intros ->. reflexivity. Qed.

Lemma set_shared_same s : set_shared s (shared s) = s.
Proof. destruct s. reflexivity. Qed.

(** The part of [logger_shutdown] under the mutex, waits included, is a
    run of the system that adds the pending summary and clears [run]. *)
Lemma logger_shutdown_returns_exec dev alone s evs s' running :
  logger_shutdown_returns dev alone s evs s' running ->
  run (shared s') = 0 /\ exec dev s evs s' /\
  exists before,
    appended evs = before ++ pending_summary (shared s) /\
    (alone = true ->
     before = [] /\ running = run (shared s) /\
     (run (shared s) <> 0 -> pc s <> Exited -> pc s' <> Exited)).
Proof.
  intros (evs1 & s1 & Hfl & -> & -> & ->).
  destruct (flush_last_log_returns_exec _ _ _ _ _ Hfl) as (Hex & before & Happ & Hb).
  split; [reflexivity|]. split.
  - eapply exec_app; [exact Hex|]. apply exec_one. apply step_stop.
  - exists before. split.
    + rewrite appended_app, Happ. change (appended [Quiet]) with (@nil ascii).
      rewrite app_nil_r. reflexivity.
    + intros ->. split; [exact (Hb eq_refl)|].
      split; [exact (proj2 (flush_last_log_returns_vars _ _ _ _ Hfl))|].
      intros Hnz Hpc. cbn [pc set_shared].
      revert Hfl Hnz Hpc. unfold flush_last_log_returns.
      destruct (lastlog_count (lastlog (shared s)) >? 1).
      * apply do_add_log_entry_returns_stays.
      * intros [_ ->]. auto.
Qed.

(** The call that has to wait, in the sample run. *)
Lemma crowded_call_returns :
  add_log_entry_returns willing_device true crowded
    (chars "15:32:00 3: " ++ disk_full) 12
    ([] ++ (Quiet :: map event_of [DoWake true; DoFlush 1]
              ++ [Appended (chars "15:32:00 3: " ++ disk_full)]) ++ [Quiet])
    first_logged.
Proof.
  apply (add_log_entry_returns_differs willing_device true crowded
           (chars "15:32:00 3: " ++ disk_full) 12 (-100) [] crowded).
  - apply Z.ltb_lt. vm_compute. reflexivity.
  - vm_compute. reflexivity.
  - discriminate.
  - unfold flush_last_log_returns.
    replace (lastlog_count (lastlog (shared crowded)) >? 1) with false
      by (vm_compute; reflexivity).
    split; reflexivity.
  - apply (add_after_wait willing_device true crowded
             (chars "15:32:00 3: " ++ disk_full)
             (shared crowded_waiting)
             (map event_of [DoWake true; DoFlush 1]) crowded_flushed).
    + vm_compute. reflexivity.
    + apply replay_meanwhile; vm_compute; reflexivity.
    + apply (add_with_room willing_device true crowded_flushed
               (chars "15:32:00 3: " ++ disk_full)).
      vm_compute. reflexivity.
Qed.

(** What a call of [add_log_entry] adds when the producer is alone. *)
Lemma add_log_entry_returns_alone dev s (msg : list ascii) prefixlen evs s' :
  len msg < 2048 ->
  add_log_entry_returns dev true s msg prefixlen evs s' ->
  appended evs = [] \/ appended evs = pending_summary (shared s) ++ msg.
Proof.
  intros Hlen. unfold add_log_entry_returns.
  destruct (len msg <? 512).
  - destruct (memcmp _ _ _) as [r|]; [|contradiction].
    destruct (r =? 0).
    + intros [-> _]. left. reflexivity.
    + intros (evs1 & s1 & evs2 & s2 & Hfl & Hadd & -> & _). right.
      destruct (flush_last_log_returns_exec _ _ _ _ _ Hfl) as (_ & b1 & Ha1 & Hb1).
      destruct (do_add_log_entry_returns_exec _ _ _ _ _ _ Hlen Hadd)
        as (_ & b2 & Ha2 & Hb2).
      rewrite (Hb1 eq_refl) in Ha1. rewrite (Hb2 eq_refl) in Ha2.
      rewrite !appended_app, Ha1, Ha2. change (appended [Quiet]) with (@nil ascii).
      rewrite !app_nil_r. reflexivity.
  - intros (evs1 & s1 & evs2 & Hfl & Hadd & ->). right.
    destruct (flush_last_log_returns_exec _ _ _ _ _ Hfl) as (_ & b1 & Ha1 & Hb1).
    destruct (do_add_log_entry_returns_exec _ _ _ _ _ _ Hlen Hadd)
      as (_ & b2 & Ha2 & Hb2).
    rewrite (Hb1 eq_refl) in Ha1. rewrite (Hb2 eq_refl) in Ha2.
    rewrite !appended_app, Ha1, Ha2. change (appended [Quiet]) with (@nil ascii).
    reflexivity.
Qed.

Lemma exec_quiet dev s : exec dev s [Quiet] s.
Proof.
  pose proof (exec_eprint dev s []) as H.
  replace (set_shared s (eprint (shared s) [])) with s in H; [exact H|].
  destruct s as [l ? ? ? ? ? ?]. destruct l. unfold eprint. cbn.
  rewrite app_nil_r. reflexivity.
Qed.

(** [logger_log] through its waits, with a prefix that fits the scratch
    buffer. *)
Lemma logger_log_returns_formatted dev alone s severity tv_sec tv_usec str tz
    msg evs s' :
  len (prefix_of (shared s) severity tv_sec tv_usec str tz) <= 2047 ->
  logger_log_returns dev alone s severity (TodOk tv_sec tv_usec str tz) msg evs s' ->
  if (severity >=? current_log_level (shared s))
     || (severity >=? output_level (shared s)) then
    if len msg <? 2047 - len (prefix_of (shared s) severity tv_sec tv_usec str tz)
    then
      let record :=
        terminate_line (prefix_of (shared s) severity tv_sec tv_usec str tz ++ msg) in
      let s1 := if severity >=? output_level (shared s)
                then set_shared s (eprint (shared s) (c_str record)) else s in
      if severity >=? current_log_level (shared s)
      then exists evs0 s2 evs1,
             meanwhile dev alone s1 evs0 s2 /\
             add_log_entry_returns dev alone s2 record
               (len (prefix_of (shared s) severity tv_sec tv_usec str tz)) evs1 s' /\
             evs = Quiet :: evs0 ++ evs1
      else evs = [Quiet] /\ s' = s1
    else evs = [Quiet] /\ s' = set_shared s (eprint (shared s) dropped_line)
  else evs = [] /\ s' = s.
Proof.
  intros Hfit. unfold logger_log_returns, prefix_of in *. cbv zeta.
  destruct ((severity >=? current_log_level (shared s))
            || (severity >=? output_level (shared s))); [|auto].
  rewrite len_app in Hfit.
  pose proof (len_nonneg (timestamp tv_sec tv_usec str tz)) as Ht.
  pose proof (len_nonneg (severity_tag (prettyprint (shared s)) severity)) as Hs.
  rewrite (int_small (len (timestamp tv_sec tv_usec str tz))) by lia.
  rewrite int_small by lia.
  replace (2048 - 1) with 2047 by reflexivity.
  rewrite size_t_small by lia.
  rewrite len_app, <- app_assoc. auto.
Qed.

(** A call of [logger_log] that returns is a run of the system; when the
    producer is alone it adds nothing, or the pending summary and the
    record. *)
Lemma logger_log_returns_exec dev alone s severity tod msg evs s' :
  (forall tv_sec tv_usec str tz, tod = TodOk tv_sec tv_usec str tz ->
     len (prefix_of (shared s) severity tv_sec tv_usec str tz) <= 2047) ->
  logger_log_returns dev alone s severity tod msg evs s' ->
  exec dev s evs s' /\
  (alone = true ->
   appended evs = [] \/
   exists tv_sec tv_usec str tz,
     tod = TodOk tv_sec tv_usec str tz /\
     appended evs
     = pending_summary (shared s)
         ++ terminate_line
              (prefix_of (shared s) severity tv_sec tv_usec str tz ++ msg)).
Proof.
  intros Hfit. destruct tod as [err|tv_sec tv_usec str tz].
  - unfold logger_log_returns. destruct (_ || _).
    + intros [-> ->]. split; [apply exec_eprint|]. intros _. left. reflexivity.
    + intros [-> ->]. split; [apply exec_nil|]. intros _. left. reflexivity.
  - specialize (Hfit _ _ _ _ eq_refl). intros Hret.
    apply logger_log_returns_formatted in Hret; [|exact Hfit].
    destruct (_ || _);
      [|destruct Hret as [-> ->]; split; [apply exec_nil|intros _; left; reflexivity]].
    destruct (Z.ltb_spec (len msg)
                (2047 - len (prefix_of (shared s) severity tv_sec tv_usec str tz)));
      [|destruct Hret as [-> ->]; split;
          [apply exec_eprint|intros _; left; reflexivity]].
    cbv zeta in Hret.
    set (record := terminate_line
                     (prefix_of (shared s) severity tv_sec tv_usec str tz ++ msg))
      in *.
    assert (Hrec : len record < 2048).
    { pose proof (terminate_line_length
                    (prefix_of (shared s) severity tv_sec tv_usec str tz ++ msg)) as Hl.
      rewrite len_app in Hl. subst record. lia. }
    destruct (severity >=? output_level (shared s)).
    + destruct (severity >=? current_log_level (shared s)).
      * destruct Hret as (evs0 & s2 & evs1 & Hmean & Hadd & ->). split.
        -- apply (exec_cons dev s Quiet
                    (set_shared s (eprint (shared s) (c_str record)))).
           ++ exact (step_bookkeeping dev s (lastlog (shared s))
                       (current_log_level (shared s)) (c_str record)).
           ++ eapply exec_app; [exact (meanwhile_exec _ _ _ _ _ Hmean)|].
              exact (add_log_entry_returns_exec _ _ _ _ _ _ _ Hrec Hadd).
        -- intros ->.
           destruct (meanwhile_alone _ _ _ _ Hmean) as (Ha0 & Hl0 & _).
           change (Quiet :: evs0 ++ evs1) with ([Quiet] ++ evs0 ++ evs1).
           rewrite !appended_app, Ha0. change (appended [Quiet]) with (@nil ascii).
           cbn [app].
           destruct (add_log_entry_returns_alone _ _ _ _ _ _ Hrec Hadd) as [Ha|Ha].
           ++ left. exact Ha.
           ++ right. exists tv_sec, tv_usec, str, tz. split; [reflexivity|].
              rewrite Ha. unfold pending_summary. rewrite Hl0. reflexivity.
      * destruct Hret as [-> ->]. split; [apply exec_eprint|].
        intros _. left. reflexivity.
    + destruct (severity >=? current_log_level (shared s)).
      * destruct Hret as (evs0 & s2 & evs1 & Hmean & Hadd & ->). split.
        -- change (Quiet :: evs0 ++ evs1) with ([Quiet] ++ evs0 ++ evs1).
           eapply exec_app; [apply exec_quiet|].
           eapply exec_app; [exact (meanwhile_exec _ _ _ _ _ Hmean)|].
           exact (add_log_entry_returns_exec _ _ _ _ _ _ _ Hrec Hadd).
        -- intros ->.
           destruct (meanwhile_alone _ _ _ _ Hmean) as (Ha0 & Hl0 & _).
           change (Quiet :: evs0 ++ evs1) with ([Quiet] ++ evs0 ++ evs1).
           rewrite !appended_app, Ha0. change (appended [Quiet]) with (@nil ascii).
           cbn [app].
           destruct (add_log_entry_returns_alone _ _ _ _ _ _ Hrec Hadd) as [Ha|Ha].
           ++ left. exact Ha.
           ++ right. exists tv_sec, tv_usec, str, tz. split; [reflexivity|].
              rewrite Ha. unfold pending_summary. rewrite Hl0. reflexivity.
      * destruct Hret as [-> ->]. split; [apply exec_quiet|].
        intros _. left. reflexivity.
Qed.

(** * The claims *)

(** ** C10: calls below both thresholds *)

(** C10.  A call whose severity is below the record threshold and below
    the output threshold returns at once and leaves every variable as it
    was: the buffers, the de-duplicator and the console.  The answer does
    not depend on the clock or on the text, neither of which is looked at. *)
Theorem logger_log_below_both_thresholds l severity tod msg :
  severity < current_log_level l ->
  severity < output_level l ->
  logger_log l severity tod msg = Done l.
Proof.
  intros Hc Ho. unfold logger_log.
  destruct (Z.geb_spec severity (current_log_level l)); [lia|].
  destruct (Z.geb_spec severity (output_level l)); [lia|].
  reflexivity.
Qed.

Lemma logger_log_below_both_thresholds_witness :
  logger_log (startup 1024) EXTENSION_LOG_DEBUG half_past_three (chars "cache miss")
  = Done (startup 1024).
Proof.
  apply (logger_log_below_both_thresholds (startup 1024) EXTENSION_LOG_DEBUG
           half_past_three (chars "cache miss")); reflexivity.
Defined.

(** ** C6: records that are too big *)

(** C6, the part that does not hold for every call.  A call below both
    thresholds returns before anything is rendered: with a text of 2100
    bytes, whose record would be longer than 2048 bytes, it leaves the
    state as it was and the standard error stream empty, so no diagnostic
    is printed. *)
Lemma oversized_record_below_thresholds_is_silent :
  2048 < len (terminate_line
                (prefix_of (startup 1024) EXTENSION_LOG_DEBUG 1793374320 42
                   (Some (chars "Thu Oct 30 15:32:00 2026" ++ [LF])) (chars "UTC")
                 ++ repeat "a"%char 2100)) /\
  logger_log (startup 1024) EXTENSION_LOG_DEBUG
    (TodOk 1793374320 42 (Some (chars "Thu Oct 30 15:32:00 2026" ++ [LF]))
       (chars "UTC")) (repeat "a"%char 2100) = Done (startup 1024) /\
  stderr (startup 1024) = [].
Proof.
  split; [apply Z.ltb_lt; vm_compute; reflexivity|].
  split; reflexivity.
Qed.

(** C6, as it holds.  A call that passes the severity test (its severity
    is at or above the record threshold or the output threshold), whose
    clock reading succeeds with a time stamp and severity tag of at most
    2047 bytes, and whose rendered record (time stamp, severity, text and
    closing newline) would be longer than 2048 bytes, appends nothing to
    either buffer, leaves the de-duplicator as it was, and writes the line
    "Log message dropped... too big" to the standard error stream. *)
Theorem oversized_record_is_dropped l severity tv_sec tv_usec str tz msg :
  severity >= current_log_level l \/ severity >= output_level l ->
  len (prefix_of l severity tv_sec tv_usec str tz) <= 2047 ->
  2048 < len (terminate_line (prefix_of l severity tv_sec tv_usec str tz ++ msg)) ->
  exists l',
    logger_log l severity (TodOk tv_sec tv_usec str tz) msg = Done l' /\
    buffers0 l' = buffers0 l /\ buffers1 l' = buffers1 l /\
    currbuffer l' = currbuffer l /\
    lastlog l' = lastlog l /\
    stderr l' = stderr l ++ dropped_line.
Proof.
  intros Hgate Hfit Hbig.
  rewrite logger_log_formatted by exact Hfit.
  destruct (Z.geb_spec severity (current_log_level l)),
           (Z.geb_spec severity (output_level l)); simpl; try lia.
  all: rewrite terminate_line_spec, !len_app in Hbig.
  all: assert (Hnl : len (if Nat.eqb (trailing_newlines
            (prefix_of l severity tv_sec tv_usec str tz ++ msg)) 0
            then [LF] else []) <= 1)
         by (destruct (Nat.eqb _ 0); unfold len; simpl; lia).
  all: destruct (Z.ltb_spec (len msg)
                   (2047 - len (prefix_of l severity tv_sec tv_usec str tz)));
         [lia|].
  all: exists (eprint l dropped_line); simpl; auto 10.
Qed.

Lemma oversized_record_is_dropped_witness :
  exists l',
    logger_log (startup 1024) EXTENSION_LOG_WARNING half_past_three
      (repeat "a"%char 2100) = Done l' /\
    buffers0 l' = buffers0 (startup 1024) /\
    buffers1 l' = buffers1 (startup 1024) /\
    currbuffer l' = currbuffer (startup 1024) /\
    lastlog l' = lastlog (startup 1024) /\
    stderr l' = stderr (startup 1024) ++ dropped_line.
Proof.
  apply (oversized_record_is_dropped (startup 1024) EXTENSION_LOG_WARNING
           1793374320 42 (Some (chars "Thu Oct 30 15:32:00 2026" ++ [LF]))
           (chars "UTC") (repeat "a"%char 2100)).
  - left. apply Z.le_ge, Z.leb_le. reflexivity.
  - apply Z.leb_le. vm_compute. reflexivity.
  - apply Z.ltb_lt. vm_compute. reflexivity.
Defined.

(** ** C8: the console mirror *)

(** A record of 2047 bytes, newline included, fits a line of 2048 bytes and
    has a severity at the output threshold; it is dropped all the same,
    and the console shows the diagnostic instead of the record. *)
Lemma full_line_is_not_mirrored :
  len (terminate_line
         (prefix_of (startup 1024) EXTENSION_LOG_WARNING 1793374320 42
            (Some (chars "Thu Oct 30 15:32:00 2026" ++ [LF])) (chars "UTC")
          ++ repeat "a"%char 2012 ++ [LF])) = 2047 /\
  stderr (state_of (logger_log (startup 1024) EXTENSION_LOG_WARNING
                      half_past_three (repeat "a"%char 2012 ++ [LF])))
  = dropped_line.
Proof. split; vm_compute; reflexivity. Qed.

(** C8, amended.  A call with a severity at or above the output threshold,
    whose clock reading succeeds and whose prefix and text together stay
    below 2047 bytes (so that a newline and the terminator still fit the
    2048-byte scratch buffer), writes the record to the standard error
    stream, whole and once; the text is a C string (no NUL inside).  This
    holds whatever the de-duplicator holds, so also for an occurrence that
    only counts as a repeat, and for a severity below the record threshold,
    where nothing is buffered.  The only other thing the call may print is
    the warning of a producer that has to wait for log space. *)
Theorem console_mirror_shows_every_record l severity tv_sec tv_usec str tz msg :
  severity >= output_level l ->
  len (prefix_of l severity tv_sec tv_usec str tz) + len msg < 2047 ->
  c_str msg = msg ->
  exists w,
    stderr (state_of (logger_log l severity (TodOk tv_sec tv_usec str tz) msg))
    = stderr l
        ++ terminate_line (prefix_of l severity tv_sec tv_usec str tz ++ msg)
        ++ w /\
    (w = [] \/ w = space_warning) /\
    (forall l', logger_log l severity (TodOk tv_sec tv_usec str tz) msg = Done l' ->
                w = []) /\
    (severity < current_log_level l ->
     logger_log l severity (TodOk tv_sec tv_usec str tz) msg
     = Done (eprint l (terminate_line
                         (prefix_of l severity tv_sec tv_usec str tz ++ msg)))).
Proof.
  intros Hout Hfit Hmsg.
  pose proof (len_nonneg msg) as Hm.
  rewrite logger_log_formatted by lia.
  destruct (Z.geb_spec severity (output_level l)); [|lia].
  rewrite orb_true_r.
  destruct (Z.ltb_spec (len msg)
              (2047 - len (prefix_of l severity tv_sec tv_usec str tz))); [|lia].
  cbv zeta.
  assert (Hrec : c_str (terminate_line
                   (prefix_of l severity tv_sec tv_usec str tz ++ msg))
                 = terminate_line
                     (prefix_of l severity tv_sec tv_usec str tz ++ msg)).
  { rewrite terminate_line_spec. unfold prefix_of.
    rewrite <- !app_assoc.
    rewrite c_str_app by apply timestamp_c_str.
    rewrite c_str_app by apply severity_tag_c_str.
    rewrite c_str_app by exact Hmsg.
    destruct (Nat.eqb _ 0); reflexivity. }
  rewrite Hrec.
  destruct (Z.geb_spec severity (current_log_level l)).
  - match goal with |- context [add_log_entry ?x ?r ?p] =>
      destruct (add_log_entry_stderr x r p) as (w & Hw & Hc & Hd) end.
    exists w. simpl in Hw. rewrite Hw, <- app_assoc.
    split; [reflexivity|]. split; [assumption|]. split; [exact Hd|]. lia.
  - exists []. simpl. rewrite app_nil_r. auto.
Qed.

Lemma console_mirror_shows_every_record_witness :
  exists w,
    stderr (state_of (logger_log (startup 1024) EXTENSION_LOG_WARNING
               (TodOk 1793374320 42
                  (Some (chars "Thu Oct 30 15:32:00 2026" ++ [LF])) (chars "UTC"))
               (chars "disk full")))
    = stderr (startup 1024)
        ++ terminate_line
             (prefix_of (startup 1024) EXTENSION_LOG_WARNING 1793374320 42
                (Some (chars "Thu Oct 30 15:32:00 2026" ++ [LF])) (chars "UTC")
              ++ chars "disk full")
        ++ w /\
    (w = [] \/ w = space_warning) /\
    (forall l', logger_log (startup 1024) EXTENSION_LOG_WARNING
               (TodOk 1793374320 42
                  (Some (chars "Thu Oct 30 15:32:00 2026" ++ [LF])) (chars "UTC"))
               (chars "disk full") = Done l' -> w = []) /\
    (EXTENSION_LOG_WARNING < current_log_level (startup 1024) ->
     logger_log (startup 1024) EXTENSION_LOG_WARNING
               (TodOk 1793374320 42
                  (Some (chars "Thu Oct 30 15:32:00 2026" ++ [LF])) (chars "UTC"))
               (chars "disk full")
     = Done (eprint (startup 1024)
               (terminate_line
                  (prefix_of (startup 1024) EXTENSION_LOG_WARNING 1793374320 42
                     (Some (chars "Thu Oct 30 15:32:00 2026" ++ [LF])) (chars "UTC")
                   ++ chars "disk full")))).
Proof.
  apply (console_mirror_shows_every_record (startup 1024) EXTENSION_LOG_WARNING
           1793374320 42 (Some (chars "Thu Oct 30 15:32:00 2026" ++ [LF]))
           (chars "UTC") (chars "disk full")).
  - apply Z.le_ge, Z.leb_le. reflexivity.
  - apply Z.ltb_lt. vm_compute. reflexivity.
  - reflexivity.
Defined.

(** ** C9: the end of a record *)

(** A text that ends in two newlines gives a record that ends in two. *)
Lemma record_may_end_in_two_newlines :
  contents (buffers (state_of (logger_log (startup 1024) EXTENSION_LOG_WARNING
                                 half_past_three (chars "hello" ++ [LF; LF]))) 0)
  = chars "Thu Oct 30 15:32:00.000042 UTC 3: hello" ++ [LF; LF].
Proof. vm_compute. reflexivity. Qed.

(** C9, amended.  The record that [logger_log] hands to the buffered path
    is the prefix, the text, and one newline added exactly when the text
    does not end in one.  So every record ends in a newline; it ends in
    exactly one when the text ends in none or in one, and a text that ends
    in several keeps them all. *)
Theorem record_ends_in_newline l severity tv_sec tv_usec str tz msg :
  severity >= current_log_level l ->
  len (prefix_of l severity tv_sec tv_usec str tz) + len msg < 2047 ->
  exists record,
    logger_log l severity (TodOk tv_sec tv_usec str tz) msg
    = add_log_entry
        (if severity >=? output_level l then eprint l (c_str record) else l)
        record (len (prefix_of l severity tv_sec tv_usec str tz)) /\
    record = prefix_of l severity tv_sec tv_usec str tz ++ msg
               ++ (if Nat.eqb (trailing_newlines msg) 0 then [LF] else []) /\
    trailing_newlines record = Nat.max 1 (trailing_newlines msg).
Proof.
  intros Hrec Hfit.
  pose proof (len_nonneg msg) as Hm.
  rewrite logger_log_formatted by lia.
  destruct (Z.geb_spec severity (current_log_level l)); [|lia].
  rewrite orb_true_l.
  destruct (Z.ltb_spec (len msg)
              (2047 - len (prefix_of l severity tv_sec tv_usec str tz))); [|lia].
  cbv zeta.
  assert (Htr : trailing_newlines (prefix_of l severity tv_sec tv_usec str tz ++ msg)
                = trailing_newlines msg).
  { unfold prefix_of.
    destruct (severity_tag_ends (prettyprint l) severity) as [t ->].
    rewrite (app_assoc (timestamp tv_sec tv_usec str tz)).
    apply trailing_newlines_after_blank. }
  eexists. split; [reflexivity|]. split.
  - rewrite terminate_line_spec, Htr, <- app_assoc. reflexivity.
  - rewrite trailing_newlines_terminate, Htr. reflexivity.
Qed.

Lemma record_ends_in_newline_witness :
  exists record,
    logger_log (startup 1024) EXTENSION_LOG_WARNING
      (TodOk 1793374320 42 (Some (chars "Thu Oct 30 15:32:00 2026" ++ [LF]))
         (chars "UTC")) (chars "disk full")
    = add_log_entry
        (if EXTENSION_LOG_WARNING >=? output_level (startup 1024)
         then eprint (startup 1024) (c_str record) else startup 1024)
        record
        (len (prefix_of (startup 1024) EXTENSION_LOG_WARNING 1793374320 42
                (Some (chars "Thu Oct 30 15:32:00 2026" ++ [LF])) (chars "UTC"))) /\
    record = prefix_of (startup 1024) EXTENSION_LOG_WARNING 1793374320 42
               (Some (chars "Thu Oct 30 15:32:00 2026" ++ [LF])) (chars "UTC")
             ++ chars "disk full"
             ++ (if Nat.eqb (trailing_newlines (chars "disk full")) 0
                 then [LF] else []) /\
    trailing_newlines record
    = Nat.max 1 (trailing_newlines (chars "disk full")).
Proof.
  apply (record_ends_in_newline (startup 1024) EXTENSION_LOG_WARNING
           1793374320 42 (Some (chars "Thu Oct 30 15:32:00 2026" ++ [LF]))
           (chars "UTC") (chars "disk full")).
  - apply Z.le_ge, Z.leb_le. reflexivity.
  - apply Z.ltb_lt. vm_compute. reflexivity.
Defined.

(** ** C7: what counts as a repeat *)

(** C7, at the input where the code departs from it.  The stored message
    has the body "a", newline, "b", newline; the next record has the body
    "a", newline: another text, one line shorter.  [add_log_entry] compares
    only as many bytes as the new body has, finds them equal, counts the
    record as a repeat and appends nothing. *)
Lemma shorter_body_counts_as_repeat :
  lastlog_buffer (lastlog (state_of
     (add_log_entry (startup 1024) (chars "3: a" ++ [LF] ++ chars "b" ++ [LF]) 3)))
  = chars "3: a" ++ [LF] ++ chars "b" ++ [LF] ++ repeat NUL 505 /\
  add_log_entry
    (state_of (add_log_entry (startup 1024)
                 (chars "3: a" ++ [LF] ++ chars "b" ++ [LF]) 3))
    (chars "3: a" ++ [LF]) 3
  = Done (set_lastlog
            (state_of (add_log_entry (startup 1024)
                         (chars "3: a" ++ [LF] ++ chars "b" ++ [LF]) 3))
            (mk_lastlog
               (chars "3: a" ++ [LF] ++ chars "b" ++ [LF] ++ repeat NUL 505)
               1 3)).
Proof. split; vm_compute; reflexivity. Qed.

(** ** C1: runs of identical records *)




(** ** C5: the retry loop of the flusher *)

Lemma flush_pending_io_some_iff dev fuel s h this :
  0 < offset (buffers (shared s) this) ->
  is_Some (flush_pending_io dev fuel s (Some h) this) <->
  is_Some (write_pending dev fuel (disk s) h (data (buffers (shared s) this))
             (offset (buffers (shared s) this))).
Proof.
  intros Hpos. unfold flush_pending_io.
  destruct (Z.gtb_spec (offset (buffers (shared s) this)) 0); [|lia].
  destruct (write_pending _ _ _ _ _ _); split; intros [x Hx]; eauto; discriminate.
Qed.

(** The result of [write] is kept in an [int]: with 2 GiB or more to
    write and a device that takes all of it at each call, the count read
    back is negative, no byte is counted as written and the loop goes
    round for ever. *)
Lemma write_pending_wraps dev fuel : forall st h ptr towrite,
  2 ^ 31 <= towrite < 2 ^ 32 ->
  (forall k, towrite <= write_result dev k) ->
  write_pending dev fuel st h ptr towrite = None.
Proof.
  induction fuel as [|fuel IH]; intros st h ptr towrite Hrange Hdev.
  - simpl. destruct (Z.gtb_spec towrite 0); [reflexivity|lia].
  - cbn [write_pending]. destruct (Z.gtb_spec towrite 0); [|lia].
    unfold iops_write. pose proof (Hdev (writes st)) as Hk.
    destruct (Z.gtb_spec (write_result dev (writes st)) 0); [|lia].
    rewrite Z.min_r by lia.
    assert (Hneg : int towrite = towrite - 2 ^ 32).
    { unfold int.
      replace (towrite + 2 ^ 31) with (towrite - 2 ^ 31 + 1 * 2 ^ 32) by lia.
      rewrite Z.mod_add by lia. rewrite Z.mod_small by lia. lia. }
    rewrite Hneg. destruct (Z.gtb_spec (towrite - 2 ^ 32) 0); [lia|].
    apply IH; assumption.
Qed.

(** C5, the part that does not hold.  The log file is open and the buffer
    holds the four bytes of one entry; every [write] fails, for ever:
    however many calls the loop is given, it does not come to an end. *)
Lemma failed_write_is_retried_for_ever :
  fp logged_once = Some "memcached.0.txt" /\
  files (disk logged_once) !! "memcached.0.txt" = Some (mk_file [] []) /\
  contents (buffers (shared logged_once) 0) = chars "one " /\
  ~ exists fuel r,
      flush_pending_io failing_device fuel logged_once (Some "memcached.0.txt") 0
      = Some r.
Proof.
  split; [reflexivity|]. split; [reflexivity|]. split; [reflexivity|].
  intros (fuel & r & Hrun).
  assert (Hsome : is_Some (flush_pending_io failing_device fuel logged_once
                             (Some "memcached.0.txt") 0)) by eauto.
  apply flush_pending_io_some_iff in Hsome; [|reflexivity].
  rewrite write_pending_stuck in Hsome by reflexivity.
  destruct Hsome as [x Hx]. discriminate.
Qed.

(** C5, as it holds.  For a buffer that holds bytes, fewer than 2^31 of
    them, and whatever the write primitive answers call after call: the
    loop of [flush_pending_io] ends within a number of calls exactly when
    the device has offered that many bytes within those calls; when it ends
    the file has gained all the bytes of the buffer and the buffer is
    empty; a call that takes nothing or fails (a negative value) is retried
    with the same pointer and count, and a short write is followed up
    behind the bytes taken.  A negative value does not end the loop. *)
Theorem flush_retries_until_all_is_written dev s h this :
  0 < offset (buffers (shared s) this) <= len (data (buffers (shared s) this)) ->
  offset (buffers (shared s) this) < 2 ^ 31 ->
  (forall fuel,
     is_Some (flush_pending_io dev fuel s (Some h) this) <->
     offset (buffers (shared s) this) <= taken dev (writes (disk s)) fuel) /\
  (forall fuel n s',
     flush_pending_io dev fuel s (Some h) this = Some (n, s') ->
     n = offset (buffers (shared s) this) /\
     offset (buffers (shared s') this) = 0 /\
     files (disk s')
     = alter flush_file h
         (alter (write_file (contents (buffers (shared s) this))) h
            (files (disk s)))) /\
  (forall fuel st ptr towrite,
     0 < towrite ->
     write_result dev (writes st) <= 0 ->
     write_pending dev (S fuel) st h ptr towrite
     = write_pending dev fuel
         (mk_storage (files st) (created st) (open_handles st) (S (writes st))
            (opens st)) h ptr towrite) /\
  (forall fuel st ptr towrite,
     0 < towrite < 2 ^ 31 ->
     0 < write_result dev (writes st) < towrite ->
     write_pending dev (S fuel) st h ptr towrite
     = write_pending dev fuel
         (mk_storage
            (alter (write_file
                      (firstn (Z.to_nat (write_result dev (writes st))) ptr))
               h (files st))
            (created st) (open_handles st) (S (writes st)) (opens st))
         h (skipn (Z.to_nat (write_result dev (writes st))) ptr)
         (towrite - write_result dev (writes st))).
Proof.
  intros Hoff Hmax.
  assert (Hr : 0 <= offset (buffers (shared s) this)
               <= len (data (buffers (shared s) this))) by lia.
  split; [|split; [|split]].
  - intros fuel. rewrite flush_pending_io_some_iff by lia. split.
    + intros [st Hst].
      exact (proj2 (proj2 (proj2 (proj2
               (write_pending_effect dev fuel _ _ _ _ _ Hr Hmax Hst))))).
    + intros Htaken.
      destruct (write_pending_terminates dev fuel (disk s) h
                  (data (buffers (shared s) this))
                  (offset (buffers (shared s) this))) as [st Hst];
        [lia | exact Htaken | eauto].
  - intros fuel n s' Hrun. unfold flush_pending_io in Hrun.
    destruct (Z.gtb_spec (offset (buffers (shared s) this)) 0); [|lia].
    destruct (write_pending _ _ _ _ _ _) as [st|] eqn:E; [|discriminate].
    injection Hrun as <- <-. simpl.
    rewrite buffers_set_buffer_same.
    destruct (write_pending_effect dev fuel _ _ _ _ _ Hr Hmax E) as (Hf & _).
    rewrite Hf. auto.
  - intros fuel st ptr towrite Hpos Hres. apply write_pending_retry; assumption.
  - intros fuel st ptr towrite Hpos Hres.
    rewrite write_pending_progress by lia.
    rewrite Z.min_l by lia. reflexivity.
Qed.

Lemma flush_retries_until_all_is_written_witness :
  (forall fuel,
     is_Some (flush_pending_io slow_device fuel logged_once
                (Some "memcached.0.txt") 0) <->
     offset (buffers (shared logged_once) 0)
     <= taken slow_device (writes (disk logged_once)) fuel) /\
  (forall fuel n s',
     flush_pending_io slow_device fuel logged_once (Some "memcached.0.txt") 0
     = Some (n, s') ->
     n = offset (buffers (shared logged_once) 0) /\
     offset (buffers (shared s') 0) = 0 /\
     files (disk s')
     = alter flush_file "memcached.0.txt"
         (alter (write_file (contents (buffers (shared logged_once) 0)))
            "memcached.0.txt" (files (disk logged_once)))) /\
  (forall fuel st ptr towrite,
     0 < towrite ->
     write_result slow_device (writes st) <= 0 ->
     write_pending slow_device (S fuel) st "memcached.0.txt" ptr towrite
     = write_pending slow_device fuel
         (mk_storage (files st) (created st) (open_handles st) (S (writes st))
            (opens st)) "memcached.0.txt" ptr towrite) /\
  (forall fuel st ptr towrite,
     0 < towrite < 2 ^ 31 ->
     0 < write_result slow_device (writes st) < towrite ->
     write_pending slow_device (S fuel) st "memcached.0.txt" ptr towrite
     = write_pending slow_device fuel
         (mk_storage
            (alter (write_file
                      (firstn (Z.to_nat (write_result slow_device (writes st))) ptr))
               "memcached.0.txt" (files st))
            (created st) (open_handles st) (S (writes st)) (opens st))
         "memcached.0.txt"
         (skipn (Z.to_nat (write_result slow_device (writes st))) ptr)
         (towrite - write_result slow_device (writes st))).
Proof.
  apply (flush_retries_until_all_is_written slow_device logged_once
           "memcached.0.txt" 0).
  - split; [apply Z.ltb_lt | apply Z.leb_le]; vm_compute; reflexivity.
  - apply Z.ltb_lt. vm_compute. reflexivity.
Defined.

(** ** C4: rotation *)

(** C4.  In a reachable state whose current file has sequence number
    [id0]: when a pass of the flusher's loop brings the bytes written to
    that file above [cyclesz], the pass closes the file and opens the one
    with the first sequence number from [next_id] on whose name no file
    has; that number is above [id0], the name is new, and the byte counter
    is zero again; the new file is there, empty and open, as soon as the
    storage lets it be opened (and [fp] is null when it does not).
    Whatever a later pass writes, the closed file is not touched again. *)
Theorem rotation_opens_the_next_file dev fuel s this id0 s' :
  reachable dev s ->
  fp s = Some (logfile_name (arg s) id0) ->
  id0 < next_id s ->
  cyclesz (shared s) < size_t (currsize s + offset (buffers (shared s) this)) ->
  flush_cycle dev fuel s this = Some s' ->
  exists k : nat,
    id0 < next_id s + Z.of_nat k /\
    files (disk s) !! logfile_name (arg s) (uint (next_id s + Z.of_nat k)) = None /\
    next_id s' = uint (next_id s + Z.of_nat k + 1) /\
    (logfile_name (arg s) id0 ∉ open_handles (disk s')) /\
    currsize s' = 0 /\
    (open_result dev (opens (disk s)) = true ->
     fp s' = Some (logfile_name (arg s) (uint (next_id s + Z.of_nat k))) /\
     files (disk s') !! logfile_name (arg s) (uint (next_id s + Z.of_nat k))
     = Some (mk_file [] []) /\
     logfile_name (arg s) (uint (next_id s + Z.of_nat k)) ∈ open_handles (disk s') /\
     last (created (disk s'))
     = Some (logfile_name (arg s) (uint (next_id s + Z.of_nat k)))) /\
    (open_result dev (opens (disk s)) = false -> fp s' = None) /\
    (forall s2 fuel2 this2 s3,
       system_ok s2 -> fp s2 = fp s' -> disk s2 = disk s' ->
       flush_cycle dev fuel2 s2 this2 = Some s3 ->
       files (disk s3) !! logfile_name (arg s) id0
       = files (disk s') !! logfile_name (arg s) id0).
Proof.
  intros Hreach Hcur Hid0 Hover Hcycle.
  destruct (reachable_ok dev s Hreach) as (Hb & (_ & Hfp & _ & Hd) & Hid).
  set (h := logfile_name (arg s) id0) in *.
  unfold flush_cycle in Hcycle.
  destruct (flush_pending_io dev fuel s (fp s) this) as [[n s2]|] eqn:Hrun;
    [|discriminate].
  destruct (flush_pending_io_ok _ _ _ _ _ _ Hb Hd Hfp Hrun)
    as (Hn & Hs2 & Hd2 & Hc2 & _ & Hkeep2 & Hsame2 & _).
  assert (Hsz : currsize s2 = currsize s) by (rewrite Hs2; reflexivity).
  assert (Hcy : cyclesz (shared s2) = cyclesz (shared s))
    by (rewrite Hs2; apply set_buffer_frame).
  assert (Hfp2 : fp s2 = Some h) by (rewrite Hs2; exact Hcur).
  assert (Harg2 : arg s2 = arg s) by (rewrite Hs2; reflexivity).
  assert (Hnid2 : next_id s2 = next_id s) by (rewrite Hs2; reflexivity).
  rewrite Hsz, Hcy, Hn in Hcycle.
  destruct (Z.gtb_spec (size_t (currsize s + offset (buffers (shared s) this)))
              (cyclesz (shared s))); [|lia].
  destruct (reopen_logfile dev fuel s2 (fp s2)) as [[r s3]|] eqn:Hre;
    [|discriminate].
  injection Hcycle as <-.
  assert (Hfpc2 : forall h', fp s2 = Some h' -> last (created (disk s2)) = Some h').
  { intros h' Hh'. rewrite Hc2. apply Hfp. congruence. }
  destruct (reopen_logfile_ok dev fuel s2 r s3 Hd2 Hfpc2) as
    (_ & _ & _ & Hd3 & Hlast3 & _ & _ & Hclosed & Hkeep3);
    [rewrite Hnid2; exact Hid | exact Hre |].
  pose proof (last_created_elem _ _ (Hfp h Hcur)) as Hin.
  destruct (disk_ok_lookup _ _ Hd Hin) as (f & Hf & _).
  destruct (Hkeep2 h f Hf) as [f2 Hf2].
  unfold reopen_logfile in Hre. rewrite Hfp2 in Hre. simpl in Hre.
  set (s0 := set_disk s2 (iops_close (disk s2) h)) in *.
  assert (Hin2 : h ∈ created (disk s2)) by (rewrite Hc2; exact Hin).
  pose proof (iops_close_files _ _ Hd2 Hin2) as Hfiles0.
  destruct (open_logfile_spec dev fuel s0 r s3) as
    (k & name & Hname & Hnew & Hnext & _ & _ & _ & _ & Hcase);
    [simpl; rewrite Hnid2; exact Hid | exact Hre |].
  simpl in Hname, Hnext. rewrite Harg2, Hnid2 in Hname. rewrite Hnid2 in Hnext.
  change (files (disk s0)) with (files (iops_close (disk s2) h)) in Hnew.
  rewrite Hfiles0 in Hnew.
  assert (Hne : h <> name) by (intros ->; congruence).
  exists k. rewrite <- Hname.
  split; [lia|]. split.
  { rewrite <- Hsame2; [exact Hnew|]. rewrite Hcur. congruence. }
  split; [exact Hnext|].
  split; [apply (Hclosed h); exact Hfp2|].
  split; [reflexivity|].
  assert (Hold : files (disk s3) !! h = Some f2) by (apply Hkeep3; exact Hf2).
  assert (Hopens : opens (disk s0) = opens (disk s)).
  { simpl. exact (flush_pending_io_opens _ _ _ _ _ _ _ Hrun). }
  rewrite Hopens in Hcase.
  split.
  { intros Hopen.
    destruct Hcase as [(_ & -> & _ & Hdisk) | (Hfail & _)]; [|congruence].
    simpl. split; [reflexivity|]. rewrite Hdisk. simpl.
    split; [apply lookup_insert_eq|]. split; [|apply last_snoc].
    apply elem_of_union. left. apply elem_of_singleton. reflexivity. }
  split.
  { intros Hclosed'.
    destruct Hcase as [(Hgood & _) | (_ & -> & _)]; [congruence|reflexivity]. }
  intros s4 fuel2 this2 s5 Hok4 Hfp4 Hdisk4 Hcycle4. simpl in Hfp4, Hdisk4.
  simpl. rewrite Hold.
  apply (flush_cycle_frame dev fuel2 s4 this2 s5 h f2 Hok4 Hcycle4).
  - rewrite Hdisk4. exact Hold.
  - rewrite Hfp4.
    destruct Hcase as [(_ & -> & _) | (_ & -> & _)]; congruence.
Qed.

Lemma rotation_opens_the_next_file_witness :
  exists s s',
    replay willing_device
      [DoStart 1; DoAppend (repeat "a"%char 250); DoWake true]
      (booted (configured 512 200)) = Some s /\
    flush_cycle willing_device 1 s 0 = Some s' /\
    exists k : nat,
      0 < next_id s + Z.of_nat k /\
      files (disk s) !! logfile_name (arg s) (uint (next_id s + Z.of_nat k)) = None /\
      next_id s' = uint (next_id s + Z.of_nat k + 1) /\
      (logfile_name (arg s) 0 ∉ open_handles (disk s')) /\
      currsize s' = 0 /\
      (open_result willing_device (opens (disk s)) = true ->
       fp s' = Some (logfile_name (arg s) (uint (next_id s + Z.of_nat k))) /\
       files (disk s') !! logfile_name (arg s) (uint (next_id s + Z.of_nat k))
       = Some (mk_file [] []) /\
       logfile_name (arg s) (uint (next_id s + Z.of_nat k)) ∈ open_handles (disk s') /\
       last (created (disk s'))
       = Some (logfile_name (arg s) (uint (next_id s + Z.of_nat k)))) /\
      (open_result willing_device (opens (disk s)) = false -> fp s' = None) /\
      (forall s2 fuel2 this2 s3,
         system_ok s2 -> fp s2 = fp s' -> disk s2 = disk s' ->
         flush_cycle willing_device fuel2 s2 this2 = Some s3 ->
         files (disk s3) !! logfile_name (arg s) 0
         = files (disk s') !! logfile_name (arg s) 0).
Proof.
  eexists. eexists.
  split; [vm_compute; reflexivity|].
  split; [vm_compute; reflexivity|].
  apply (rotation_opens_the_next_file willing_device 1 _ 0 0 _).
  - apply (replay_reachable willing_device
             [DoStart 1; DoAppend (repeat "a"%char 250); DoWake true]
             (booted (configured 512 200))).
    + apply booted_initial. split; [apply Z.leb_le | apply Z.ltb_lt]; reflexivity.
    + vm_compute. reflexivity.
  - vm_compute. reflexivity.
  - apply Z.ltb_lt. vm_compute. reflexivity.
  - apply Z.ltb_lt. vm_compute. reflexivity.
  - vm_compute. reflexivity.
Defined.

(** ** C2: the buffers never overflow *)

(** C2.  In every state the logger can reach, each buffer's offset lies
    within the buffer's capacity, which is [buffersz] bytes and stays so.
    An entry that would reach or pass the capacity of the current buffer
    waits and changes no buffer; it goes on waiting through every step of
    the system except a swap of the buffers by the flusher.  An entry that
    has room is copied whole behind what the buffer holds, and the buffer
    keeps its size. *)
Theorem buffers_never_overflow dev s :
  reachable dev s ->
  (forall i,
     0 <= offset (buffers (shared s) i) <= buffersz (shared s) /\
     len (data (buffers (shared s) i)) = buffersz (shared s)) /\
  (forall msg, len msg < 2048 ->
     offset (buffers (shared s) (currbuffer (shared s))) + len msg
       >= buffersz (shared s) ->
     exists l, do_add_log_entry (shared s) msg = Waiting l /\
               same_buffers (shared s) l) /\
  (forall msg, len msg < 2048 ->
     offset (buffers (shared s) (currbuffer (shared s))) + len msg
       < buffersz (shared s) ->
     exists l, do_add_log_entry (shared s) msg = Done l /\
       currbuffer l = currbuffer (shared s) /\
       buffersz l = buffersz (shared s) /\
       contents (buffers l (currbuffer l))
       = contents (buffers (shared s) (currbuffer (shared s))) ++ msg /\
       len (data (buffers l (currbuffer l))) = buffersz (shared s) /\
       buffers l (other l) = buffers (shared s) (other (shared s))) /\
  (forall msg l ev s' l', len msg < 2048 ->
     do_add_log_entry (shared s) msg = Waiting l ->
     step dev s ev s' ->
     do_add_log_entry (shared s') msg = Done l' ->
     ev = Quiet /\ currbuffer (shared s') = other (shared s)).
Proof.
  intros Hreach. pose proof (reachable_ok dev s Hreach) as Hok.
  destruct Hok as (Hb & Hrest).
  split; [intros i; exact (buffers_ok_at _ i Hb)|].
  split; [|split].
  - intros msg Hlen Hfull.
    apply (do_add_log_entry_blocked _ _ Hb Hlen) in Hfull as [l Hl].
    exists l. split; [exact Hl|]. exact (do_add_log_entry_waiting _ _ _ Hl).
  - intros msg Hlen Hroom.
    destruct (do_add_log_entry (shared s) msg) as [l|l|l] eqn:E;
      [|rewrite do_add_log_entry_room in E by assumption; discriminate..].
    exists l. split; [reflexivity|].
    destruct (do_add_log_entry_ok _ _ _ Hb Hroom E)
      as (Hb' & Hc & Hz & _ & _ & _ & Hct & Hoth).
    split; [exact Hc|]. split; [exact Hz|]. rewrite Hc.
    split; [exact Hct|]. split.
    + rewrite <- Hc, <- Hz. exact (proj2 (buffers_ok_current _ Hb')).
    + unfold other in *. rewrite Hc. exact Hoth.
  - intros msg l ev s' l' Hlen Hwait Hstep Hdone.
    pose proof (step_ok dev s ev s' (conj Hb Hrest) Hstep) as (Hb' & _).
    apply (waiting_until_swap dev s ev s' msg (conj Hb Hrest) Hlen).
    + apply (do_add_log_entry_blocked _ _ Hb Hlen). eauto.
    + exact Hstep.
    + exact (do_add_log_entry_done_room _ _ _ Hb' Hlen Hdone).
Qed.

Lemma buffers_never_overflow_witness :
  exists s,
    replay willing_device
      [DoStart 1; DoAppend (chars "hello "); DoWake true;
       DoAppend (chars "world")] (booted (startup 16)) = Some s /\
    (forall i,
       0 <= offset (buffers (shared s) i) <= buffersz (shared s) /\
       len (data (buffers (shared s) i)) = buffersz (shared s)) /\
    (forall msg, len msg < 2048 ->
       offset (buffers (shared s) (currbuffer (shared s))) + len msg
         >= buffersz (shared s) ->
       exists l, do_add_log_entry (shared s) msg = Waiting l /\
                 same_buffers (shared s) l) /\
    (forall msg, len msg < 2048 ->
       offset (buffers (shared s) (currbuffer (shared s))) + len msg
         < buffersz (shared s) ->
       exists l, do_add_log_entry (shared s) msg = Done l /\
         currbuffer l = currbuffer (shared s) /\
         buffersz l = buffersz (shared s) /\
         contents (buffers l (currbuffer l))
         = contents (buffers (shared s) (currbuffer (shared s))) ++ msg /\
         len (data (buffers l (currbuffer l))) = buffersz (shared s) /\
         buffers l (other l) = buffers (shared s) (other (shared s))) /\
    (forall msg l ev s' l', len msg < 2048 ->
       do_add_log_entry (shared s) msg = Waiting l ->
       step willing_device s ev s' ->
       do_add_log_entry (shared s') msg = Done l' ->
       ev = Quiet /\ currbuffer (shared s') = other (shared s)).
Proof.
  eexists. split; [vm_compute; reflexivity|].
  apply (buffers_never_overflow willing_device).
  apply (replay_reachable willing_device
           [DoStart 1; DoAppend (chars "hello "); DoWake true;
            DoAppend (chars "world")] (booted (startup 16))).
  - apply booted_initial. split; [apply Z.leb_le | apply Z.ltb_lt]; reflexivity.
  - vm_compute. reflexivity.
Defined.
(** ** C3: shutdown *)

(** C3, where it does not hold.  First: no file can be opened; a record is
    logged, the logger is shut down, the worker exits, and the record is
    still in its buffer; nothing was written anywhere.  Second: a record
    is logged four times and the logger is shut down; the worker writes
    the record and the summary, closes the file, frees both buffers and
    returns.  Shutdown is then called again: the count of repeats still
    stands at three, and the call copies the summary line into the buffer
    the worker has freed. *)
Lemma unopened_log_and_second_shutdown :
  (exists s',
     replay closed_device
       [DoStart 1; DoAppend (chars "hello"); DoStop; DoExit 1]
       (booted (startup 64)) = Some s' /\
     pc s' = Exited /\
     contents (buffers (shared s') 0) = chars "hello" /\
     persisted (disk s') = [] /\
     files (disk s') = ∅) /\
  (exists l1 l2 s2 l3,
     log_run (shared (started 64)) disk_full
       [chars "15:32:00 3: "; chars "15:32:01 3: "; chars "15:32:02 3: ";
        chars "15:32:03 3: "] = Done l1 /\
     logger_shutdown l1 = (Done l2, 1) /\
     replay willing_device [DoExit 2] (set_shared (started 64) l2) = Some s2 /\
     pc s2 = Exited /\
     persisted (disk s2) = (chars "15:32:00 3: " ++ disk_full) ++ repeated_line 3 /\
     offset (buffers0 (shared s2)) = 0 /\ offset (buffers1 (shared s2)) = 0 /\
     logger_shutdown (shared s2) = (Done l3, 0) /\
     contents (buffers l3 (currbuffer l3)) = repeated_line 3).
Proof.
  split.
  - eexists. split; [vm_compute; reflexivity|].
    repeat split; vm_compute; reflexivity.
  - eexists. eexists. eexists. eexists.
    split; [vm_compute; reflexivity|].
    split; [vm_compute; reflexivity|].
    split; [vm_compute; reflexivity|].
    repeat split; vm_compute; reflexivity.
Qed.

(** C3, as it holds.  Take any run of the logger from its initial state,
    with buffers below 2 GiB.  (1) The part of the shutdown entry point
    under the mutex, its waits for room included, adds the pending
    summary, if the repeat count is above one, and clears [run]; when no
    other producer is at work nothing else is added meanwhile, and a
    worker that was running has not returned when the call leaves the
    mutex.  (2) When the worker then leaves its loop with a log file open,
    it writes and flushes everything that was ever added to either buffer,
    in the order it was added, so that the persisted output is exactly
    what the producers added; both buffers are empty and the file is
    closed.  (3) Once the worker has returned no step writes to the
    storage.  (4) A shutdown call made when [run] is already clear and no
    summary is pending (the repeat count is at most one) changes nothing,
    adds nothing and does not join the worker again.  (5) A worker that
    leaves its loop with no log file open returns without writing the
    buffers. *)
Theorem shutdown_drains_into_the_open_file dev s0 evs s :
  initial s0 -> exec dev s0 evs s -> buffersz (shared s0) < 2 ^ 31 ->
  (forall alone evs1 s1 running,
     logger_shutdown_returns dev alone s evs1 s1 running ->
     run (shared s1) = 0 /\ exec dev s evs1 s1 /\
     exists before,
       appended evs1 = before ++ pending_summary (shared s) /\
       (alone = true ->
        before = [] /\ running = run (shared s) /\
        (run (shared s) <> 0 -> pc s1 <> Exited))) /\
  (forall fuel s' h,
     pc s = Idle -> run (shared s) = 0 -> fp s = Some h ->
     thread_exit dev fuel s = Some s' ->
     pc s' = Exited /\
     persisted (disk s') = appended evs /\
     offset (buffers0 (shared s')) = 0 /\ offset (buffers1 (shared s')) = 0 /\
     (h ∉ open_handles (disk s')) /\
     (forall n, n ∈ created (disk s') ->
        exists f, files (disk s') !! n = Some f /\ unflushed f = [])) /\
  (pc s = Exited ->
   forall ev s', step dev s ev s' -> disk s' = disk s /\ pc s' = Exited) /\
  (forall alone evs1 s1 running,
     run (shared s) = 0 -> lastlog_count (lastlog (shared s)) <= 1 ->
     logger_shutdown_returns dev alone s evs1 s1 running ->
     running = 0 /\ s1 = s /\ appended evs1 = []) /\
  (forall fuel,
     pc s = Idle -> fp s = None ->
     thread_exit dev fuel s = Some (set_pc s Exited)).
Proof.
  intros Hinit Hex Hsmall.
  pose proof (initial_ok s0 Hinit) as Hok0.
  pose proof (exec_ok dev s0 evs s Hex Hok0) as Hok.
  pose proof (exec_stream dev s0 evs s Hex Hok0 Hsmall) as Hstream.
  rewrite (stream_initial s0 Hinit) in Hstream. simpl in Hstream.
  split; [|split; [|split; [|split]]].
  - intros alone evs1 s1 running Hshut.
    destruct (logger_shutdown_returns_exec _ _ _ _ _ _ Hshut)
      as (Hrun & Hex1 & before & Happ & Halone).
    split; [exact Hrun|]. split; [exact Hex1|].
    exists before. split; [exact Happ|].
    intros Ha. destruct (Halone Ha) as (Hb & Hr & Hstay).
    split; [exact Hb|]. split; [exact Hr|].
    intros Hnz. apply Hstay; [exact Hnz|].
    intros Hpc. exact (Hnz (exec_exited_run dev s0 evs s Hinit Hex Hpc)).
  - intros fuel s' h Hpc Hrun Hfp Hexit.
    destruct (thread_exit_ok dev fuel s s' Hok Hpc Hexit) as (_ & Hpc' & _ & Hfile).
    destruct (Hfile h Hfp) as (H0 & H1 & Hclosed & Hflushed & Hp).
    split; [exact Hpc'|]. split.
    { rewrite Hp, Hstream; [reflexivity|].
      rewrite (exec_buffersz dev s0 evs s Hex Hok0). exact Hsmall. }
    auto.
  - intros Hpc ev s' Hstep.
    destruct Hstep; simpl; try (split; [reflexivity|exact Hpc]); congruence.
  - intros alone evs1 s1 running Hrun Hcount (e & t & Hfl & -> & -> & ->).
    unfold flush_last_log_returns in Hfl.
    destruct (Z.gtb_spec (lastlog_count (lastlog (shared s))) 1); [lia|].
    destruct Hfl as [-> ->].
    split; [exact Hrun|]. split; [|reflexivity].
    rewrite (set_run_same _ Hrun). apply set_shared_same.
  - intros fuel Hpc Hfp. unfold thread_exit. rewrite Hfp. reflexivity.
Qed.

Lemma shutdown_drains_into_the_open_file_witness :
  exists s,
    replay willing_device
      [DoStart 1; DoAppend (chars "hello "); DoWake true;
       DoAppend (chars "world"); DoFlush 1; DoStop]
      (booted (startup 64)) = Some s /\
    (forall alone evs1 s1 running,
       logger_shutdown_returns willing_device alone s evs1 s1 running ->
       run (shared s1) = 0 /\ exec willing_device s evs1 s1 /\
       exists before,
         appended evs1 = before ++ pending_summary (shared s) /\
         (alone = true ->
          before = [] /\ running = run (shared s) /\
          (run (shared s) <> 0 -> pc s1 <> Exited))) /\
    (forall fuel s' h,
       pc s = Idle -> run (shared s) = 0 -> fp s = Some h ->
       thread_exit willing_device fuel s = Some s' ->
       pc s' = Exited /\
       persisted (disk s')
       = appended (map event_of
           [DoStart 1; DoAppend (chars "hello "); DoWake true;
            DoAppend (chars "world"); DoFlush 1; DoStop]) /\
       offset (buffers0 (shared s')) = 0 /\ offset (buffers1 (shared s')) = 0 /\
       (h ∉ open_handles (disk s')) /\
       (forall n, n ∈ created (disk s') ->
          exists f, files (disk s') !! n = Some f /\ unflushed f = [])) /\
    (pc s = Exited ->
     forall ev s', step willing_device s ev s' ->
                   disk s' = disk s /\ pc s' = Exited) /\
    (forall alone evs1 s1 running,
       run (shared s) = 0 -> lastlog_count (lastlog (shared s)) <= 1 ->
       logger_shutdown_returns willing_device alone s evs1 s1 running ->
       running = 0 /\ s1 = s /\ appended evs1 = []) /\
    (forall fuel,
       pc s = Idle -> fp s = None ->
       thread_exit willing_device fuel s = Some (set_pc s Exited)).
Proof.
  eexists. split; [vm_compute; reflexivity|].
  apply (shutdown_drains_into_the_open_file willing_device
           (booted (startup 64))
           (map event_of
              [DoStart 1; DoAppend (chars "hello "); DoWake true;
               DoAppend (chars "world"); DoFlush 1; DoStop])).
  - apply booted_initial. split; [apply Z.leb_le | apply Z.ltb_lt]; reflexivity.
  - apply replay_exec. vm_compute. reflexivity.
  - apply Z.ltb_lt. vm_compute. reflexivity.
Defined.

(** * Further properties *)

(** ** X1: a record that differs from the stored one *)

(** X1.  A record below 512 bytes in which the comparison with the
    stored message finds a difference, logged by a producer that is alone:
    whatever waits for room the call goes through, it is a run of the
    system that adds the pending summary (if any) and then the record,
    and nothing else, and the record becomes the stored message: its
    bytes at the start of the comparison buffer, its prefix length as the
    offset, a count of zero.  The summary line thus stands before the
    record that set it off. *)
Theorem differing_record_is_stored dev s msg prefixlen r evs s' :
  len msg < 512 ->
  memcmp (skipn (Z.to_nat (lastlog_offset (lastlog (shared s))))
            (lastlog_memory (lastlog (shared s))))
         (skipn (Z.to_nat prefixlen) msg)
         (Z.to_nat (size_t (len msg - prefixlen))) = Some r ->
  r <> 0 ->
  add_log_entry_returns dev true s msg prefixlen evs s' ->
  exec dev s evs s' /\
  appended evs = pending_summary (shared s) ++ msg /\
  lastlog (shared s')
  = mk_lastlog (memcpy (lastlog_buffer (lastlog (shared s))) 0 msg) 0 prefixlen.
Proof.
  intros Hlen Hcmp Hr Hret.
  assert (Hfit : len msg < 2048) by lia.
  split; [exact (add_log_entry_returns_exec _ _ _ _ _ _ _ Hfit Hret)|].
  unfold add_log_entry_returns in Hret.
  destruct (Z.ltb_spec (len msg) 512); [|lia].
  rewrite Hcmp in Hret. destruct (Z.eqb_spec r 0); [contradiction|].
  destruct Hret as (evs1 & s1 & evs2 & s2 & Hfl & Hadd & -> & ->).
  destruct (flush_last_log_returns_exec _ _ _ _ _ Hfl) as (_ & b1 & Ha1 & Hb1).
  destruct (do_add_log_entry_returns_exec _ _ _ _ _ _ Hfit Hadd)
    as (_ & b2 & Ha2 & Hb2).
  rewrite (Hb1 eq_refl) in Ha1. rewrite (Hb2 eq_refl) in Ha2.
  destruct (flush_last_log_returns_vars _ _ _ _ Hfl) as [Hl1 _].
  destruct (do_add_log_entry_returns_vars _ _ _ _ _ Hadd) as [Hl2 _].
  split.
  - rewrite !appended_app, Ha1, Ha2. change (appended [Quiet]) with (@nil ascii).
    rewrite !app_nil_r. reflexivity.
  - cbn. rewrite Hl2, Hl1. reflexivity.
Qed.

Lemma differing_record_is_stored_witness :
  exec willing_device crowded
    ([] ++ (Quiet :: map event_of [DoWake true; DoFlush 1]
              ++ [Appended (chars "15:32:00 3: " ++ disk_full)]) ++ [Quiet])
    first_logged /\
  appended ([] ++ (Quiet :: map event_of [DoWake true; DoFlush 1]
                     ++ [Appended (chars "15:32:00 3: " ++ disk_full)]) ++ [Quiet])
  = pending_summary (shared crowded) ++ (chars "15:32:00 3: " ++ disk_full) /\
  lastlog (shared first_logged)
  = mk_lastlog (memcpy (lastlog_buffer (lastlog (shared crowded))) 0
                  (chars "15:32:00 3: " ++ disk_full)) 0 12.
Proof.
  apply (differing_record_is_stored willing_device crowded
           (chars "15:32:00 3: " ++ disk_full) 12 (-100)).
  - apply Z.ltb_lt. vm_compute. reflexivity.
  - vm_compute. reflexivity.
  - discriminate.
  - exact crowded_call_returns.
Defined.

(** ** X2: a record too long to compare *)

(** X2.  A record of 512 bytes or more is never compared: it is appended
    behind the pending summary (if any) every time, and the stored message
    is cleared (empty text, offset and count zero). *)
Theorem long_record_bypasses_the_comparison l msg prefixlen :
  buffers_ok l ->
  512 <= len msg ->
  offset (buffers l (currbuffer l)) + len (pending_summary l) + len msg
    < buffersz l ->
  exists l',
    add_log_entry l msg prefixlen = Done l' /\
    contents (buffers l' (currbuffer l'))
    = contents (buffers l (currbuffer l)) ++ pending_summary l ++ msg /\
    currbuffer l' = currbuffer l /\
    lastlog l' = mk_lastlog (memcpy (lastlog_buffer (lastlog l)) 0 [NUL]) 0 0.
Proof.
  intros Hok Hlen Hroom. unfold add_log_entry.
  destruct (Z.ltb_spec (len msg) 512); [lia|].
  pose proof (len_nonneg msg) as Hm.
  pose proof (len_nonneg (pending_summary l)) as Hp.
  destruct (flush_last_log_pending l Hok) as
    (l1 & E1 & Hok1 & Hc1 & Hz1 & Hll1 & _ & _ & Hct1 & _); [lia|].
  rewrite E1. cbn [and_then].
  assert (Hoff1 : offset (buffers l1 (currbuffer l1))
                  = offset (buffers l (currbuffer l)) + len (pending_summary l)).
  { rewrite Hc1.
    destruct (buffers_ok_current l Hok) as [Ho Hd].
    destruct (buffers_ok_current l1 Hok1) as [Ho1 Hd1]. rewrite Hc1 in Ho1, Hd1.
    apply (f_equal len) in Hct1. rewrite len_app in Hct1.
    unfold contents, len in Hct1. rewrite !length_firstn in Hct1.
    unfold len in *. lia. }
  set (l1' := set_lastlog l1 _).
  assert (Hok1' : buffers_ok l1') by exact Hok1.
  destruct (do_add_log_entry l1' msg) as [l2|l2|l2] eqn:E2;
    [|rewrite do_add_log_entry_room in E2
        by (try assumption; change (buffers l1' (currbuffer l1'))
              with (buffers l1 (currbuffer l1));
            change (buffersz l1') with (buffersz l1); lia);
      discriminate..].
  destruct (do_add_log_entry_ok l1' msg l2 Hok1') as
    (_ & Hc2 & _ & Hll2 & _ & _ & Hct2 & _);
    [change (buffers l1' (currbuffer l1')) with (buffers l1 (currbuffer l1));
     change (buffersz l1') with (buffersz l1); lia | assumption |].
  exists l2. split; [reflexivity|].
  change (currbuffer l1') with (currbuffer l1) in *.
  change (buffers l1' (currbuffer l1)) with (buffers l1 (currbuffer l1)) in Hct2.
  split; [|split].
  - rewrite Hc2, Hct2, Hc1, Hct1, <- app_assoc. reflexivity.
  - congruence.
  - rewrite Hll2. subst l1'. cbn. rewrite Hll1. reflexivity.
Qed.

Lemma long_record_bypasses_the_comparison_witness :
  exists l',
    add_log_entry (startup 2048) (chars "15:32:00 3: " ++ repeat "x"%char 587 ++ [LF]) 12
    = Done l' /\
    contents (buffers l' (currbuffer l'))
    = contents (buffers (startup 2048) (currbuffer (startup 2048)))
        ++ pending_summary (startup 2048)
        ++ (chars "15:32:00 3: " ++ repeat "x"%char 587 ++ [LF]) /\
    currbuffer l' = currbuffer (startup 2048) /\
    lastlog l'
    = mk_lastlog (memcpy (lastlog_buffer (lastlog (startup 2048))) 0 [NUL]) 0 0.
Proof.
  apply (long_record_bypasses_the_comparison (startup 2048)
           (chars "15:32:00 3: " ++ repeat "x"%char 587 ++ [LF]) 12).
  - unfold buffers_ok. repeat split; try (left; reflexivity);
      first [apply Z.leb_le | apply Z.ltb_lt | idtac]; vm_compute; reflexivity.
  - apply Z.leb_le. vm_compute. reflexivity.
  - apply Z.ltb_lt. vm_compute. reflexivity.
Defined.

(** ** X3: the clock cannot be read *)

(** X3.  When [cb_get_timeofday] fails, a call that passes the severity
    test writes "gettimeofday failed: ..." to the standard error stream
    and returns: nothing is formatted, buffered or counted. *)
Theorem clock_failure_drops_the_record l severity err msg :
  severity >= current_log_level l \/ severity >= output_level l ->
  logger_log l severity (TodFail err) msg = Done (eprint l (timeofday_line err)).
Proof.
  intros Hgate. unfold logger_log.
  destruct (Z.geb_spec severity (current_log_level l)),
           (Z.geb_spec severity (output_level l)); simpl; try reflexivity; lia.
Qed.

Lemma clock_failure_drops_the_record_witness :
  logger_log (startup 1024) EXTENSION_LOG_WARNING
    (TodFail (chars "Operation not permitted")) (chars "disk full")
  = Done (eprint (startup 1024) (timeofday_line (chars "Operation not permitted"))).
Proof.
  apply (clock_failure_drops_the_record (startup 1024) EXTENSION_LOG_WARNING
           (chars "Operation not permitted") (chars "disk full")).
  left. apply Z.le_ge, Z.leb_le. reflexivity.
Defined.

(** ** X4: the order of the logged bytes *)

(** X4.  Along every run from the initial state (buffers below 2 GiB), the
    persisted output, followed by the buffer the flusher is writing,
    followed by the current buffer, is exactly the entries the producers
    added, in the order they added them: the flusher loses, repeats and
    reorders nothing, across swaps and rotations. *)
Theorem logged_bytes_keep_their_order dev s0 evs s :
  initial s0 -> exec dev s0 evs s -> buffersz (shared s0) < 2 ^ 31 ->
  stream s = appended evs.
Proof.
  intros Hinit Hex Hsmall.
  rewrite (exec_stream dev s0 evs s Hex (initial_ok s0 Hinit) Hsmall).
  rewrite (stream_initial s0 Hinit). reflexivity.
Qed.

Lemma logged_bytes_keep_their_order_witness :
  exists s,
    replay willing_device
      [DoStart 1; DoAppend (chars "one "); DoWake true; DoAppend (chars "two ");
       DoFlush 1; DoAppend (chars "three")]
      (booted (configured 64 6)) = Some s /\
    stream s
    = appended (map event_of
        [DoStart 1; DoAppend (chars "one "); DoWake true; DoAppend (chars "two ");
         DoFlush 1; DoAppend (chars "three")]).
Proof.
  eexists. split; [vm_compute; reflexivity|].
  apply (logged_bytes_keep_their_order willing_device (booted (configured 64 6))).
  - apply booted_initial. split; [apply Z.leb_le | apply Z.ltb_lt]; reflexivity.
  - apply replay_exec. vm_compute. reflexivity.
  - apply Z.ltb_lt. vm_compute. reflexivity.
Defined.

(** ** X5: repeats among records of one line *)

Lemma single_line_prefix x y u :
  single_line x -> single_line y -> y = x ++ u -> u = [].
Proof.
  intros (tx & -> & Hx) (ty & -> & Hy) Heq.
  destruct u as [|c0 u0]; [reflexivity|]. exfalso.
  assert (Hne : c0 :: u0 <> []) by discriminate.
  destruct (exists_last Hne) as (u' & c & Hu). rewrite Hu in Heq.
  rewrite !app_assoc in Heq.
  apply app_inj_tail in Heq as [Heq _].
  apply Hy. rewrite Heq. apply in_or_app. left. apply in_or_app. right.
  left. reflexivity.
Qed.

(** X5.  When the stored message and the new record (below 512 bytes) both
    have a body of one line, the record counts as a repeat and nothing is
    appended exactly when the two bodies are equal, byte for byte and in
    length; otherwise the pending summary is flushed, the record is
    appended and becomes the stored message. *)
Theorem single_line_repeats_are_exact l p0 b0 rest c p b :
  lastlog l = mk_lastlog (p0 ++ b0 ++ rest) c (len p0) ->
  single_line b0 -> single_line b ->
  len (p ++ b) < 512 ->
  (b = b0 ->
   add_log_entry l (p ++ b) (len p)
   = Done (set_lastlog l (mk_lastlog (p0 ++ b0 ++ rest) (int (c + 1)) (len p0)))) /\
  (b <> b0 ->
   add_log_entry l (p ++ b) (len p)
   = flush_last_log l >>> fun s =>
     do_add_log_entry s (p ++ b) >>> fun s =>
     Done (set_lastlog s
             (mk_lastlog (memcpy (lastlog_buffer (lastlog s)) 0 (p ++ b))
                0 (len p)))).
Proof.
  intros Hll Hb0 Hb Hlen.
  rewrite add_log_entry_short by exact Hlen.
  rewrite Hll. unfold lastlog_memory.
  cbn [lastlog_offset lastlog_buffer lastlog_count].
  rewrite <- !app_assoc, skipn_len_app.
  split.
  - intros ->. rewrite memcmp_prefix. reflexivity.
  - intros Hne.
    destruct (first_difference b0 b)
      as [(a & c1 & t1 & c2 & t2 & -> & -> & Hc)|[[u Hu]|[u Hu]]].
    + rewrite <- app_assoc. cbn [app].
      destruct (memcmp_differs a c1 (t1 ++ rest ++ le32 c ++ le32 (len p0)) c2 t2
                  (length (a ++ c2 :: t2)) Hc) as [-> Hnz].
      { rewrite length_app. simpl. lia. }
      destruct (Z.eqb_spec (Z.of_nat (nat_of_ascii c1)
                            - Z.of_nat (nat_of_ascii c2)) 0);
        [contradiction|reflexivity].
    + exfalso. apply Hne.
      rewrite (single_line_prefix b0 b u Hb0 Hb Hu), app_nil_r in Hu. exact Hu.
    + exfalso. apply Hne.
      rewrite (single_line_prefix b b0 u Hb Hb0 Hu), app_nil_r in Hu.
      symmetry. exact Hu.
Qed.

Lemma single_line_repeats_are_exact_witness :
  (chars "disk full" ++ [LF] = chars "disk full" ++ [LF] ->
   add_log_entry
     (set_lastlog (startup 1024)
        (mk_lastlog (chars "15:32:00 3: " ++ (chars "disk full" ++ [LF])
                       ++ repeat NUL 490) 0 (len (chars "15:32:00 3: "))))
     (chars "15:32:01 3: " ++ chars "disk full" ++ [LF])
     (len (chars "15:32:01 3: "))
   = Done (set_lastlog
             (set_lastlog (startup 1024)
                (mk_lastlog (chars "15:32:00 3: " ++ (chars "disk full" ++ [LF])
                               ++ repeat NUL 490) 0 (len (chars "15:32:00 3: "))))
             (mk_lastlog (chars "15:32:00 3: " ++ (chars "disk full" ++ [LF])
                            ++ repeat NUL 490) (int (0 + 1))
                (len (chars "15:32:00 3: "))))) /\
  (chars "disk full" ++ [LF] <> chars "disk full" ++ [LF] ->
   add_log_entry
     (set_lastlog (startup 1024)
        (mk_lastlog (chars "15:32:00 3: " ++ (chars "disk full" ++ [LF])
                       ++ repeat NUL 490) 0 (len (chars "15:32:00 3: "))))
     (chars "15:32:01 3: " ++ chars "disk full" ++ [LF])
     (len (chars "15:32:01 3: "))
   = flush_last_log
       (set_lastlog (startup 1024)
          (mk_lastlog (chars "15:32:00 3: " ++ (chars "disk full" ++ [LF])
                         ++ repeat NUL 490) 0 (len (chars "15:32:00 3: "))))
     >>> fun s =>
     do_add_log_entry s (chars "15:32:01 3: " ++ chars "disk full" ++ [LF])
     >>> fun s =>
     Done (set_lastlog s
             (mk_lastlog
                (memcpy (lastlog_buffer (lastlog s)) 0
                   (chars "15:32:01 3: " ++ chars "disk full" ++ [LF]))
                0 (len (chars "15:32:01 3: "))))).
Proof.
  apply (single_line_repeats_are_exact
           (set_lastlog (startup 1024)
              (mk_lastlog (chars "15:32:00 3: " ++ (chars "disk full" ++ [LF])
                             ++ repeat NUL 490) 0 (len (chars "15:32:00 3: "))))
           (chars "15:32:00 3: ") (chars "disk full" ++ [LF]) (repeat NUL 490) 0
           (chars "15:32:01 3: ") (chars "disk full" ++ [LF])).
  - reflexivity.
  - exists (chars "disk full"). split; [reflexivity|].
    vm_compute. intuition discriminate.
  - exists (chars "disk full"). split; [reflexivity|].
    vm_compute. intuition discriminate.
  - apply Z.ltb_lt. vm_compute. reflexivity.
Defined.

(** ** X6: the name of a new log file *)

(** X6.  [open_logfile] settles on the first sequence number, from
    [next_id] on, whose name does not exist: when number [next_id + k] is
    free and all before it are taken, the probe ends there, [next_id]
    moves behind it, the file opened (if the open succeeds) has that name,
    and every file that existed keeps its contents.  A restart thus never
    writes over the files of an earlier run. *)
Theorem first_unused_name_is_chosen dev fuel s (k : nat) :
  0 <= next_id s < 2 ^ 32 ->
  (k < fuel)%nat ->
  files (disk s) !! logfile_name (arg s) (uint (next_id s + Z.of_nat k)) = None ->
  (forall j : nat, (j < k)%nat ->
     is_Some (files (disk s) !! logfile_name (arg s) (uint (next_id s + Z.of_nat j)))) ->
  exists ret s1,
    open_logfile dev fuel s = Some (ret, s1) /\
    next_id s1 = uint (next_id s + Z.of_nat k + 1) /\
    ret = (if open_result dev (opens (disk s))
           then Some (logfile_name (arg s) (uint (next_id s + Z.of_nat k)))
           else None) /\
    (forall name f, files (disk s) !! name = Some f ->
       files (disk s1) !! name = Some f).
Proof.
  intros Hid Hk Hfree Hused.
  destruct (open_logfile_probe_terminates fuel (disk s) (arg s) (next_id s) Hid)
    as [[name id'] Hp]; [exists k; split; assumption|].
  destruct (open_logfile_probe_spec fuel _ _ _ _ _ Hid Hp)
    as (k2 & _ & Hn2 & Hi2 & Hf2 & Hj2).
  assert (Hsame : k2 = k).
  { destruct (Nat.lt_trichotomy k2 k) as [Hlt|[Heq|Hgt]]; [|exact Heq|].
    - apply Hused in Hlt. rewrite <- Hn2, Hf2 in Hlt. destruct Hlt; discriminate.
    - apply Hj2 in Hgt. rewrite Hfree in Hgt. destruct Hgt; discriminate. }
  subst k2. unfold open_logfile. rewrite Hp. unfold iops_open.
  destruct (open_result dev (opens (disk s))).
  - eexists _, _. split; [reflexivity|]. cbn [next_id disk files].
    split; [exact Hi2|]. split; [rewrite Hn2; reflexivity|].
    intros n f Hnf. rewrite lookup_insert_ne; [exact Hnf|].
    intros ->. rewrite Hf2 in Hnf. discriminate.
  - eexists _, _. split; [reflexivity|]. cbn [next_id disk files].
    split; [exact Hi2|]. split; [reflexivity|].
    intros n f Hnf. exact Hnf.
Qed.

Lemma first_unused_name_is_chosen_witness :
  exists ret s1,
    open_logfile willing_device 5 (restarted (startup 1024)) = Some (ret, s1) /\
    next_id s1 = uint (next_id (restarted (startup 1024)) + Z.of_nat 2 + 1) /\
    ret = (if open_result willing_device (opens (disk (restarted (startup 1024))))
           then Some (logfile_name (arg (restarted (startup 1024)))
                        (uint (next_id (restarted (startup 1024)) + Z.of_nat 2)))
           else None) /\
    (forall name f, files (disk (restarted (startup 1024))) !! name = Some f ->
       files (disk s1) !! name = Some f).
Proof.
  apply (first_unused_name_is_chosen willing_device 5 (restarted (startup 1024)) 2).
  - split; [apply Z.leb_le | apply Z.ltb_lt]; reflexivity.
  - apply Nat.ltb_lt. reflexivity.
  - vm_compute. reflexivity.
  - intros j Hj.
    destruct j as [|[|j]]; [| |exfalso; apply Nat.ltb_lt in Hj; discriminate].
    + exists (mk_file (chars "earlier") []). vm_compute. reflexivity.
    + exists (mk_file (chars "later") []). vm_compute. reflexivity.
Defined.

(** ** X7: the names of the log levels *)

Lemma tolower_NUL c : tolower c = NUL <-> c = NUL.
Proof.
  destruct c as [[] [] [] [] [] [] [] []]; vm_compute; split; congruence.
Qed.

Lemma c_str_cons c t :
  c_str (c :: t) = if Ascii.eqb c NUL then [] else c :: c_str t.
Proof. reflexivity. Qed.

(** [strcasecmp] returns zero exactly when the two C strings agree once
    their letters are in lower case. *)
Lemma strcasecmp_zero_iff s1 : forall s2,
  strcasecmp s1 s2 = 0 <-> lower s1 = lower s2.
Proof.
  unfold lower.
  induction s1 as [|c1 t1 IH]; intros [|c2 t2];
    cbn [strcasecmp]; rewrite ?c_str_cons.
  - split; reflexivity.
  - destruct (Ascii.eqb_spec c2 NUL) as [->|Hc2].
    + split; reflexivity.
    + split; [|discriminate]. intros H. exfalso.
      assert (Hz : nat_of_ascii (tolower c2) = 0%nat) by lia.
      apply Hc2, tolower_NUL.
      rewrite <- (ascii_nat_embedding (tolower c2)), Hz. reflexivity.
  - destruct (Ascii.eqb_spec c1 NUL) as [->|Hc1].
    + split; reflexivity.
    + split; [|discriminate]. intros H. exfalso.
      assert (Hz : nat_of_ascii (tolower c1) = 0%nat) by lia.
      apply Hc1, tolower_NUL.
      rewrite <- (ascii_nat_embedding (tolower c1)), Hz. reflexivity.
  - destruct (Ascii.eqb (tolower c1) (tolower c2)) eqn:E.
    + apply Ascii.eqb_eq in E.
      destruct (Ascii.eqb_spec c1 NUL) as [->|Hc1].
      * assert (c2 = NUL) as -> by (apply tolower_NUL; rewrite <- E; reflexivity).
        split; reflexivity.
      * destruct (Ascii.eqb_spec c2 NUL) as [->|Hc2].
        { exfalso. apply Hc1, tolower_NUL. rewrite E. reflexivity. }
        rewrite IH. cbn [map]. rewrite E. split.
        -- intros ->. reflexivity.
        -- intros [= H]. exact H.
    + split.
      * intros H. exfalso. exact (ascii_diff_nonzero _ _ E H).
      * intros H. exfalso.
        destruct (Ascii.eqb_spec c1 NUL) as [->|Hc1];
          destruct (Ascii.eqb_spec c2 NUL) as [->|Hc2];
          cbn [map] in H; try discriminate.
        apply Ascii.eqb_neq in E. apply E. congruence.
Qed.

Lemma match_loglevel_tests name loglevel :
  lower (chars name) = chars name ->
  (strcasecmp (chars name) loglevel =? 0)
  = bool_decide (lower loglevel = chars name).
Proof.
  intros Hn.
  destruct (Z.eqb_spec (strcasecmp (chars name) loglevel) 0) as [H|H];
    rewrite strcasecmp_zero_iff, Hn in H; symmetry.
  - apply bool_decide_eq_true. symmetry. exact H.
  - apply bool_decide_eq_false. intros H'. apply H. symmetry. exact H'.
Qed.

(** X7.  The [loglevel] setting is matched against the four names without
    regard to case, and as a whole: a text is taken for a level exactly
    when, with its letters in lower case, it is "warning", "info", "debug"
    or "detail"; no other text (an abbreviation, a number, a name with a
    blank around it, the empty text) names a level. *)
Theorem loglevel_is_matched_without_case loglevel :
  match_loglevel loglevel
  = if bool_decide (lower loglevel = chars "warning")
    then Some EXTENSION_LOG_WARNING
    else if bool_decide (lower loglevel = chars "info")
    then Some EXTENSION_LOG_INFO
    else if bool_decide (lower loglevel = chars "debug")
    then Some EXTENSION_LOG_DEBUG
    else if bool_decide (lower loglevel = chars "detail")
    then Some EXTENSION_LOG_DETAIL
    else None.
Proof.
  unfold match_loglevel.
  rewrite !match_loglevel_tests by reflexivity. reflexivity.
Qed.

(** ** X8 to X11: initialisation *)

(** What the [if (config != NULL)] block leaves alone, and what it sets. *)
Lemma read_config_spec api config s s1 fname :
  read_config api config s = inl (s1, fname) ->
  let items := match config with
               | Some c => fst (parse_config api c)
               | None => no_items
               end in
  buffers0 s1 = buffers0 s /\ buffers1 s1 = buffers1 s /\
  currbuffer s1 = currbuffer s /\ lastlog s1 = lastlog s /\ run s1 = run s /\
  stderr s1 = stderr s /\ current_log_level s1 = current_log_level s /\
  buffersz s1 = from_option size_t (buffersz s) (cfg_buffersize items) /\
  cyclesz s1 = from_option size_t (cyclesz s) (cfg_cyclesize items) /\
  sleeptime s1 = from_option size_t (sleeptime s) (cfg_sleeptime items) /\
  prettyprint s1 = default (prettyprint s) (cfg_prettyprint items) /\
  unit_test s1 = default (unit_test s) (cfg_unit_test items) /\
  fname = cfg_filename items /\
  (forall loglevel, cfg_loglevel items = Some loglevel ->
     match_loglevel loglevel = Some (output_level s1)) /\
  (cfg_loglevel items = None -> output_level s1 = output_level s).
Proof.
  unfold read_config. destruct config as [c|].
  - destruct (parse_config api c) as [items success]. cbn [fst].
    destruct success; [|discriminate].
    destruct (cfg_loglevel items) as [loglevel|] eqn:El.
    + destruct (match_loglevel loglevel) as [level|] eqn:Em; [|discriminate].
      intros [= <- <-]. cbn.
      repeat (split; [reflexivity|]). split.
      * intros t [= <-]. exact Em.
      * discriminate.
    + intros [= <- <-]. cbn.
      repeat (split; [reflexivity|]). split; [discriminate|reflexivity].
  - intros [= <- <-]. cbn.
    repeat (split; [reflexivity|]). split; [discriminate|reflexivity].
Qed.

(** X8.  A [loglevel] setting that names no level makes the initialisation
    fail: it returns [EXTENSION_FATAL], prints "Unknown loglevel: ..." with
    the text as given, allocates no buffer and creates no thread. *)
Theorem unknown_loglevel_is_fatal pf api config items loglevel s :
  parse_config api config = (items, true) ->
  cfg_loglevel items = Some loglevel ->
  lower loglevel <> chars "warning" -> lower loglevel <> chars "info" ->
  lower loglevel <> chars "debug" -> lower loglevel <> chars "detail" ->
  code (memcached_extensions_initialize pf (Some config) (Some api) s)
  = EXTENSION_FATAL /\
  thread (memcached_extensions_initialize pf (Some config) (Some api) s) = None /\
  stderr (vars (memcached_extensions_initialize pf (Some config) (Some api) s))
  = stderr s ++ unknown_loglevel_line loglevel /\
  buffers0 (vars (memcached_extensions_initialize pf (Some config) (Some api) s))
  = buffers0 s /\
  buffers1 (vars (memcached_extensions_initialize pf (Some config) (Some api) s))
  = buffers1 s.
Proof.
  intros Hp Hl Hw Hi Hd Ht.
  assert (Hm : match_loglevel loglevel = None).
  { unfold match_loglevel.
    rewrite !match_loglevel_tests by reflexivity.
    rewrite !bool_decide_eq_false_2 by assumption. reflexivity. }
  unfold memcached_extensions_initialize, read_config.
  rewrite Hp, Hl, Hm. cbn. repeat split; reflexivity.
Qed.

Lemma unknown_loglevel_is_fatal_witness :
  code (memcached_extensions_initialize sample_platform
          (Some (chars "loglevel=verbose"))
          (Some (sample_server
                   (mk_config_items None None None (Some (chars "verbose"))
                      None None None) true))
          static_init)
  = EXTENSION_FATAL /\
  thread (memcached_extensions_initialize sample_platform
            (Some (chars "loglevel=verbose"))
            (Some (sample_server
                     (mk_config_items None None None (Some (chars "verbose"))
                        None None None) true))
            static_init) = None /\
  stderr (vars (memcached_extensions_initialize sample_platform
                  (Some (chars "loglevel=verbose"))
                  (Some (sample_server
                           (mk_config_items None None None
                              (Some (chars "verbose")) None None None) true))
                  static_init))
  = stderr static_init ++ unknown_loglevel_line (chars "verbose") /\
  buffers0 (vars (memcached_extensions_initialize sample_platform
                    (Some (chars "loglevel=verbose"))
                    (Some (sample_server
                             (mk_config_items None None None
                                (Some (chars "verbose")) None None None) true))
                    static_init))
  = buffers0 static_init /\
  buffers1 (vars (memcached_extensions_initialize sample_platform
                    (Some (chars "loglevel=verbose"))
                    (Some (sample_server
                             (mk_config_items None None None
                                (Some (chars "verbose")) None None None) true))
                    static_init))
  = buffers1 static_init.
Proof.
  apply (unknown_loglevel_is_fatal sample_platform
           (sample_server
              (mk_config_items None None None (Some (chars "verbose"))
                 None None None) true)
           (chars "loglevel=verbose")
           (mk_config_items None None None (Some (chars "verbose"))
              None None None)
           (chars "verbose") static_init);
    try reflexivity; intros H; vm_compute in H; discriminate H.
Defined.

(** X9.  When the initialisation gets as far as creating the flusher
    thread, the system it leaves is an initial state of the transition
    system: both buffers allocated with [buffersz] bytes and empty, buffer
    0 current, nothing stored in the de-duplicator, [run] set, the thread
    not yet started and no file opened.  ([malloc] is taken by its
    contract.) *)
Theorem initialisation_leaves_an_initial_state pf config api d fname :
  malloc_contract pf ->
  thread (memcached_extensions_initialize pf config api static_init) = Some fname ->
  created d = [] -> open_handles d = ∅ ->
  exists sys,
    spawned (memcached_extensions_initialize pf config api static_init) d
    = Some sys /\
    initial sys /\ arg sys = fname /\ disk sys = d.
Proof.
  intros Hmalloc Hthread Hcr Hop.
  unfold spawned. rewrite Hthread. eexists. split; [reflexivity|].
  cbn [arg disk]. split; [|split; reflexivity].
  unfold memcached_extensions_initialize in *.
  destruct api as [api|]; [|discriminate].
  destruct (read_config api config static_init) as [[s1 f]|] eqn:Er; [|discriminate].
  destruct (read_config_spec _ _ _ _ _ Er)
    as (H0 & H1 & Hc & Hll & Hrun & _ & _ & Hsz & _).
  destruct (malloc pf 0 (buffersz s1)) as [d0|] eqn:E0; [|discriminate].
  destruct (malloc pf 1 (buffersz s1)) as [d1|] eqn:E1;
    [|destruct f; try destruct (strdup pf _); discriminate].
  destruct (Hmalloc _ _ _ E0) as [L0 Hlt].
  destruct (Hmalloc _ _ _ E1) as [L1 _].
  assert (Hge : 0 <= buffersz s1) by (rewrite <- L0; apply len_nonneg).
  assert (Hinit : forall level,
            initial (mk_system (set_current_log_level (set_data s1 d0 d1) level)
                       Starting None 0 0 fname d)).
  { intros level. unfold initial. cbn.
    rewrite H0, H1, Hc, Hll, Hrun. cbn.
    repeat split; try assumption; try reflexivity. }
  destruct (match f with Some f0 => Some f0 | None => strdup pf "memcached" end);
    [|discriminate].
  destruct (cb_create_thread pf); [|discriminate].
  destruct (register_extension api); cbn [vars]; apply Hinit.
Qed.

Lemma initialisation_leaves_an_initial_state_witness :
  exists sys,
    spawned (memcached_extensions_initialize sample_platform
               (Some (chars "buffersize=1024;loglevel=Info"))
               (Some (sample_server
                        (mk_config_items None (Some 1024) None
                           (Some (chars "Info")) None None None) true))
               static_init) used_disk
    = Some sys /\
    initial sys /\ arg sys = "memcached" /\ disk sys = used_disk.
Proof.
  apply (initialisation_leaves_an_initial_state sample_platform
           (Some (chars "buffersize=1024;loglevel=Info"))
           (Some (sample_server
                    (mk_config_items None (Some 1024) None
                       (Some (chars "Info")) None None None) true))
           used_disk "memcached").
  - intros k n d0. unfold sample_platform. cbn [malloc].
    destruct (Z.leb_spec 0 n); [|discriminate].
    destruct (Z.ltb_spec n (2 ^ 63)); [|discriminate].
    intros [= <-]. split; [|assumption].
    unfold len. rewrite repeat_length. apply Z2Nat.id. assumption.
  - vm_compute. reflexivity.
  - reflexivity.
  - reflexivity.
Defined.

(** X10.  When the flusher thread is created, every setting has the value
    the configuration gave it (sizes as [size_t]) and otherwise the value
    it had, which is its default: [buffersize], [cyclesize], [sleeptime],
    [prettyprint], [unit_test]; the two buffers are blocks obtained for
    [buffersz] bytes; the file name is the one configured, or "memcached".
    The [loglevel] setting becomes the console threshold [output_level]
    only; the record threshold [current_log_level] is the level the server
    reports, whatever the configuration says. *)
Theorem settings_follow_the_configuration pf config api s fname items :
  thread (memcached_extensions_initialize pf config (Some api) s) = Some fname ->
  items = match config with
          | Some c => fst (parse_config api c)
          | None => no_items
          end ->
  exists l,
    vars (memcached_extensions_initialize pf config (Some api) s) = l /\
    buffersz l = from_option size_t (buffersz s) (cfg_buffersize items) /\
    cyclesz l = from_option size_t (cyclesz s) (cfg_cyclesize items) /\
    sleeptime l = from_option size_t (sleeptime s) (cfg_sleeptime items) /\
    prettyprint l = default (prettyprint s) (cfg_prettyprint items) /\
    unit_test l = default (unit_test s) (cfg_unit_test items) /\
    malloc pf 0 (buffersz l) = Some (data (buffers0 l)) /\
    malloc pf 1 (buffersz l) = Some (data (buffers1 l)) /\
    Some fname = match cfg_filename items with
                 | Some f => Some f
                 | None => strdup pf "memcached"
                 end /\
    (forall loglevel, cfg_loglevel items = Some loglevel ->
       match_loglevel loglevel = Some (output_level l)) /\
    (cfg_loglevel items = None -> output_level l = output_level s) /\
    current_log_level l = get_level api.
Proof.
  intros Hthread ->. eexists. split; [reflexivity|].
  unfold memcached_extensions_initialize in *.
  destruct (read_config api config s) as [[s1 f]|] eqn:Er; [|discriminate].
  destruct (read_config_spec _ _ _ _ _ Er)
    as (_ & _ & _ & _ & _ & _ & _ & Hsz & Hcy & Hsl & Hpp & Hut & Hf & Hlv & Hno).
  destruct (malloc pf 0 (buffersz s1)) as [d0|] eqn:E0; [|discriminate].
  destruct (malloc pf 1 (buffersz s1)) as [d1|] eqn:E1;
    [|destruct f; try destruct (strdup pf _); discriminate].
  rewrite <- Hf.
  destruct (match f with Some f0 => Some f0 | None => strdup pf "memcached" end)
    as [name|] eqn:En; [|discriminate].
  destruct (cb_create_thread pf); [|discriminate].
  assert (Hname : Some fname = Some name)
    by (destruct (register_extension api); cbn [thread] in Hthread; congruence).
  destruct (register_extension api); cbn;
    (repeat (split; [first [assumption | reflexivity]|])); reflexivity.
Qed.

Lemma settings_follow_the_configuration_witness :
  exists l,
    vars (memcached_extensions_initialize sample_platform
            (Some (chars "buffersize=1024;loglevel=Info;filename=log"))
            (Some (sample_server
                     (mk_config_items (Some "log") (Some 1024) None
                        (Some (chars "Info")) None None None) true))
            static_init) = l /\
    buffersz l = from_option size_t (buffersz static_init) (Some 1024) /\
    cyclesz l = from_option size_t (cyclesz static_init) None /\
    sleeptime l = from_option size_t (sleeptime static_init) None /\
    prettyprint l = default (prettyprint static_init) None /\
    unit_test l = default (unit_test static_init) None /\
    malloc sample_platform 0 (buffersz l) = Some (data (buffers0 l)) /\
    malloc sample_platform 1 (buffersz l) = Some (data (buffers1 l)) /\
    Some "log" = Some "log" /\
    (forall loglevel, Some (chars "Info") = Some loglevel ->
       match_loglevel loglevel = Some (output_level l)) /\
    (Some (chars "Info") = None -> output_level l = output_level static_init) /\
    current_log_level l = EXTENSION_LOG_INFO.
Proof.
  apply (settings_follow_the_configuration sample_platform
           (Some (chars "buffersize=1024;loglevel=Info;filename=log"))
           (sample_server
              (mk_config_items (Some "log") (Some 1024) None
                 (Some (chars "Info")) None None None) true)
           static_init "log"
           (mk_config_items (Some "log") (Some 1024) None
              (Some (chars "Info")) None None None)).
  - vm_compute. reflexivity.
  - reflexivity.
Defined.

(** X11.  The thread is created before the extension is registered, and a
    failed registration undoes nothing: the call returns [EXTENSION_FATAL]
    with the flusher thread created and the variables exactly as on
    success.  With a registration that succeeds the call returns
    [EXTENSION_SUCCESS] exactly when the thread was created. *)
Theorem worker_outlives_a_failed_registration pf config level parse s :
  thread (memcached_extensions_initialize pf config
            (Some (mk_server level parse false)) s)
  = thread (memcached_extensions_initialize pf config
              (Some (mk_server level parse true)) s) /\
  vars (memcached_extensions_initialize pf config
          (Some (mk_server level parse false)) s)
  = vars (memcached_extensions_initialize pf config
            (Some (mk_server level parse true)) s) /\
  code (memcached_extensions_initialize pf config
          (Some (mk_server level parse false)) s) = EXTENSION_FATAL /\
  (code (memcached_extensions_initialize pf config
           (Some (mk_server level parse true)) s) = EXTENSION_SUCCESS <->
   thread (memcached_extensions_initialize pf config
             (Some (mk_server level parse true)) s) <> None).
Proof.
  unfold memcached_extensions_initialize.
  assert (Hr : read_config (mk_server level parse false) config s
               = read_config (mk_server level parse true) config s)
    by reflexivity.
  rewrite Hr.
  destruct (read_config (mk_server level parse true) config s) as [[s1 f]|];
    [|cbn; repeat split; try reflexivity; try discriminate; intros H; exfalso; apply H; reflexivity].
  destruct (malloc pf 0 (buffersz s1)), (malloc pf 1 (buffersz s1)),
    (match f with Some f0 => Some f0 | None => strdup pf "memcached" end),
    (cb_create_thread pf);
    cbn; repeat split; try reflexivity; try discriminate;
    intros H; exfalso; apply H; reflexivity.
Qed.

(** ** X12 and X13: the entry points as runs of the system *)

(** X12.  In a state the logger can reach (buffers below 2 GiB), each
    entry point takes the system to a state it can reach.  A call of
    [logger_log] that returns, whatever the clock answers (its time stamp
    and severity tag taking at most 2047 bytes when it answers), through
    whatever waits for room and whatever the other threads do meanwhile,
    only adds entries behind the bytes logged so far; when no other
    producer is at work it adds nothing, or the pending summary followed
    by the record.  [on_log_level] and [exit_handler] leave the logged
    bytes as they were. *)
Theorem entry_points_are_runs dev s :
  reachable dev s -> buffersz (shared s) < 2 ^ 31 ->
  (forall alone severity tod msg evs s',
     (forall tv_sec tv_usec str tz, tod = TodOk tv_sec tv_usec str tz ->
        len (prefix_of (shared s) severity tv_sec tv_usec str tz) <= 2047) ->
     logger_log_returns dev alone s severity tod msg evs s' ->
     reachable dev s' /\
     stream s' = stream s ++ appended evs /\
     (alone = true ->
      appended evs = [] \/
      exists tv_sec tv_usec str tz,
        tod = TodOk tv_sec tv_usec str tz /\
        appended evs
        = pending_summary (shared s)
            ++ terminate_line
                 (prefix_of (shared s) severity tv_sec tv_usec str tz ++ msg))) /\
  (forall api,
     reachable dev (set_shared s (on_log_level api (shared s))) /\
     stream (set_shared s (on_log_level api (shared s))) = stream s) /\
  (reachable dev (set_shared s (exit_handler (shared s))) /\
   stream (set_shared s (exit_handler (shared s))) = stream s).
Proof.
  intros Hreach Hsmall.
  pose proof (reachable_ok dev s Hreach) as Hok.
  split; [|split].
  - intros alone severity tod msg evs s' Hfit Hlog.
    destruct (logger_log_returns_exec _ _ _ _ _ _ _ _ Hfit Hlog) as (Hex & Happ).
    split; [exact (exec_reachable dev s evs _ Hex Hreach)|].
    split; [exact (exec_stream dev s evs _ Hex Hok Hsmall) | exact Happ].
  - intros [api|].
    + split; [|reflexivity].
      apply (reachable_step dev s Quiet); [exact Hreach|].
      replace (on_log_level (Some api) (shared s))
        with (bookkeeping (shared s) (lastlog (shared s)) (get_level api) []).
      * apply step_bookkeeping.
      * unfold bookkeeping, on_log_level, set_current_log_level.
        rewrite app_nil_r. reflexivity.
    + split; [|reflexivity]. destruct s. exact Hreach.
  - split; [|reflexivity].
    exact (reachable_step dev s Quiet _ Hreach (step_stop dev s)).
Qed.

Lemma entry_points_are_runs_witness :
  (forall alone severity tod msg evs s',
     (forall tv_sec tv_usec str tz, tod = TodOk tv_sec tv_usec str tz ->
        len (prefix_of (shared logged_once) severity tv_sec tv_usec str tz)
        <= 2047) ->
     logger_log_returns willing_device alone logged_once severity tod msg evs s' ->
     reachable willing_device s' /\
     stream s' = stream logged_once ++ appended evs /\
     (alone = true ->
      appended evs = [] \/
      exists tv_sec tv_usec str tz,
        tod = TodOk tv_sec tv_usec str tz /\
        appended evs
        = pending_summary (shared logged_once)
            ++ terminate_line
                 (prefix_of (shared logged_once) severity tv_sec tv_usec str tz
                  ++ msg))) /\
  (forall api,
     reachable willing_device
       (set_shared logged_once (on_log_level api (shared logged_once))) /\
     stream (set_shared logged_once (on_log_level api (shared logged_once)))
     = stream logged_once) /\
  (reachable willing_device
     (set_shared logged_once (exit_handler (shared logged_once))) /\
   stream (set_shared logged_once (exit_handler (shared logged_once)))
   = stream logged_once).
Proof.
  apply (entry_points_are_runs willing_device logged_once).
  - apply (replay_reachable willing_device
             [DoStart 1; DoAppend (chars "one ")] (booted (configured 64 6))).
    + apply booted_initial. split; [apply Z.leb_le | apply Z.ltb_lt]; reflexivity.
    + vm_compute. reflexivity.
  - apply Z.ltb_lt. vm_compute. reflexivity.
Defined.

(** X13.  Take a run from the initial state, with buffers below 2 GiB,
    and let no other thread call into the logger from then on.  When the
    worker is stopped by [exit_handler] and leaves its loop with a log
    file open, the persisted output is exactly what the producers added:
    a summary pending in the de-duplicator is not written.  When it is
    stopped by [logger_shutdown], followed through its waits for room,
    and then leaves its loop with a log file open, the pending summary is
    the last thing persisted. *)
Theorem exit_handler_loses_the_summary dev s0 evs s :
  initial s0 -> exec dev s0 evs s -> buffersz (shared s0) < 2 ^ 31 ->
  (forall evs2 s2 fuel h s',
     meanwhile dev true (set_shared s (exit_handler (shared s))) evs2 s2 ->
     pc s2 = Idle -> fp s2 = Some h ->
     thread_exit dev fuel s2 = Some s' ->
     persisted (disk s') = appended evs) /\
  (forall evs1 s1 running evs2 s2 fuel h s',
     logger_shutdown_returns dev true s evs1 s1 running ->
     meanwhile dev true s1 evs2 s2 ->
     pc s2 = Idle -> fp s2 = Some h ->
     thread_exit dev fuel s2 = Some s' ->
     persisted (disk s') = appended evs ++ pending_summary (shared s)).
Proof.
  intros Hinit Hex Hsmall.
  pose proof (initial_ok s0 Hinit) as Hok0.
  pose proof (exec_ok dev s0 evs s Hex Hok0) as Hok.
  pose proof (exec_buffersz dev s0 evs s Hex Hok0) as Hsz.
  pose proof (exec_stream dev s0 evs s Hex Hok0 Hsmall) as Hst.
  rewrite (stream_initial s0 Hinit) in Hst. cbn [app] in Hst.
  assert (Hrun : forall evs1 s1 fuel h s',
            exec dev s evs1 s1 -> pc s1 = Idle -> fp s1 = Some h ->
            thread_exit dev fuel s1 = Some s' ->
            persisted (disk s') = appended evs ++ appended evs1).
  { intros evs1 s1 fuel h s' Hex1 Hpc1 Hfp1 Hexit.
    pose proof (exec_ok dev s evs1 s1 Hex1 Hok) as Hok1.
    destruct (thread_exit_ok dev fuel s1 s' Hok1 Hpc1 Hexit) as (_ & _ & _ & Hh).
    destruct (Hh h Hfp1) as (_ & _ & _ & _ & Hper).
    rewrite Hper
      by (rewrite (exec_buffersz dev s evs1 s1 Hex1 Hok), Hsz; exact Hsmall).
    rewrite (exec_stream dev s evs1 s1 Hex1 Hok) by (rewrite Hsz; exact Hsmall).
    rewrite Hst. reflexivity. }
  split.
  - intros evs2 s2 fuel h s' Hmean Hpc Hfp Hexit.
    destruct (meanwhile_alone _ _ _ _ Hmean) as (Ha2 & _).
    rewrite (Hrun ([Quiet] ++ evs2) s2 fuel h s'
               (exec_app dev s [Quiet] _ evs2 s2
                  (exec_one dev s Quiet _ (step_stop dev s))
                  (meanwhile_exec _ _ _ _ _ Hmean)) Hpc Hfp Hexit).
    rewrite appended_app, Ha2. change (appended [Quiet]) with (@nil ascii).
    apply app_nil_r.
  - intros evs1 s1 running evs2 s2 fuel h s' Hshut Hmean Hpc Hfp Hexit.
    destruct (logger_shutdown_returns_exec _ _ _ _ _ _ Hshut)
      as (_ & Hex1 & before & Happ & Halone).
    destruct (Halone eq_refl) as (-> & _).
    destruct (meanwhile_alone _ _ _ _ Hmean) as (Ha2 & _).
    rewrite (Hrun (evs1 ++ evs2) s2 fuel h s'
               (exec_app dev s evs1 s1 evs2 s2 Hex1
                  (meanwhile_exec _ _ _ _ _ Hmean)) Hpc Hfp Hexit).
    rewrite appended_app, Happ, Ha2, app_nil_r. reflexivity.
Qed.

Lemma exit_handler_loses_the_summary_witness :
  pending_summary (shared (with_repeats logged_once 3)) = repeated_line 3 /\
  ((forall evs2 s2 fuel h s',
      meanwhile willing_device true
        (set_shared (with_repeats logged_once 3)
           (exit_handler (shared (with_repeats logged_once 3)))) evs2 s2 ->
      pc s2 = Idle -> fp s2 = Some h ->
      thread_exit willing_device fuel s2 = Some s' ->
      persisted (disk s')
      = appended (map event_of [DoStart 1; DoAppend (chars "one ")] ++ [Quiet])) /\
   (forall evs1 s1 running evs2 s2 fuel h s',
      logger_shutdown_returns willing_device true (with_repeats logged_once 3)
        evs1 s1 running ->
      meanwhile willing_device true s1 evs2 s2 ->
      pc s2 = Idle -> fp s2 = Some h ->
      thread_exit willing_device fuel s2 = Some s' ->
      persisted (disk s')
      = appended (map event_of [DoStart 1; DoAppend (chars "one ")] ++ [Quiet])
          ++ pending_summary (shared (with_repeats logged_once 3)))).
Proof.
  split; [vm_compute; reflexivity|].
  apply (exit_handler_loses_the_summary willing_device (booted (configured 64 6))
           (map event_of [DoStart 1; DoAppend (chars "one ")] ++ [Quiet])
           (with_repeats logged_once 3)).
  - apply booted_initial. split; [apply Z.leb_le | apply Z.ltb_lt]; reflexivity.
  - eapply exec_app.
    + apply replay_exec. vm_compute. reflexivity.
    + apply exec_set_lastlog.
  - apply Z.ltb_lt. vm_compute. reflexivity.
Defined.

(** ** X14 to X16: producers *)

(** X14.  An entry as large as a buffer, or larger, never fits: in every
    state the logger can reach, [do_add_log_entry] waits for space and
    changes no buffer, also when the current buffer is empty.  No swap of
    the buffers helps, so the producer waits for ever. *)
Theorem entry_as_large_as_the_buffer_never_fits dev s (msg : list ascii) :
  reachable dev s ->
  buffersz (shared s) <= len msg -> len msg < 2 ^ 63 ->
  exists l, do_add_log_entry (shared s) msg = Waiting l /\
            same_buffers (shared s) l.
Proof.
  intros Hreach Hbig Hlen.
  destruct (reachable_ok dev s Hreach) as (Hok & _).
  destruct (buffers_ok_current _ Hok) as [Ho _].
  destruct Hok as (_ & Hsz & _).
  assert (Hfull : size_t (offset (buffers (shared s) (currbuffer (shared s)))
                          + len msg) >= buffersz (shared s)).
  { rewrite size_t_small by lia. lia. }
  rewrite (do_add_log_entry_full _ _ Hfull).
  eexists. split; [reflexivity|].
  destruct (unit_test (shared s));
    [apply same_buffers_refl | apply same_buffers_eprint].
Qed.

Lemma entry_as_large_as_the_buffer_never_fits_witness :
  exists l, do_add_log_entry (shared (booted (configured 64 6)))
              (repeat "a"%char 64) = Waiting l /\
            same_buffers (shared (booted (configured 64 6))) l.
Proof.
  apply (entry_as_large_as_the_buffer_never_fits willing_device).
  - apply reachable_initial, booted_initial.
    split; [apply Z.leb_le | apply Z.ltb_lt]; reflexivity.
  - apply Z.leb_le. vm_compute. reflexivity.
  - apply Z.ltb_lt. vm_compute. reflexivity.
Defined.

(** X15.  With buffers of 8192 bytes or more, a producer of a record
    (below 2048 bytes) that waits for space has left the current buffer
    more than three quarters full.  So whenever the idle worker next runs
    its loop, timer due or not, it swaps the buffers and goes to write the
    full one, and the record then fits the buffer that has become
    current. *)
Theorem blocked_producer_is_released_on_wake dev s (msg : list ascii) l timer_due :
  reachable dev s -> pc s = Idle ->
  8192 <= buffersz (shared s) -> len msg < 2048 ->
  do_add_log_entry (shared s) msg = Waiting l ->
  pc (inner_loop timer_due (set_shared s l))
  = Flushing (currbuffer (shared s)) /\
  currbuffer (shared (inner_loop timer_due (set_shared s l))) = other (shared s) /\
  exists l',
    do_add_log_entry (shared (inner_loop timer_due (set_shared s l))) msg = Done l'.
Proof.
  intros Hreach Hpc Hbig Hlen Hwait.
  destruct (reachable_ok dev s Hreach) as (Hok & (Hother & _) & _).
  rewrite Hpc in Hother.
  pose proof (do_add_log_entry_waiting _ _ _ Hwait) as Hsame.
  assert (Hblocked : offset (buffers (shared s) (currbuffer (shared s))) + len msg
                     >= buffersz (shared s)).
  { apply do_add_log_entry_blocked; [assumption..|]. eauto. }
  destruct Hsame as (H0 & H1 & Hc & Hz).
  assert (Hb : forall i, buffers l i = buffers (shared s) i)
    by (intros i; unfold buffers; rewrite H0, H1; reflexivity).
  unfold inner_loop. cbn [shared set_shared].
  rewrite Hb, Hc, Hz.
  replace (4 * offset (buffers (shared s) (currbuffer (shared s)))
           >? 3 * buffersz (shared s)) with true
    by (symmetry; apply Z.gtb_lt; lia).
  rewrite orb_true_r. cbn [pc shared set_pc set_shared].
  split; [reflexivity|].
  assert (Hcur : currbuffer (flip l) = other (shared s))
    by (unfold flip, other; cbn; rewrite Hc; reflexivity).
  split; [exact Hcur|].
  assert (Hok' : buffers_ok (flip l)).
  { destruct Hok as (Hcb & Hs & Hb0 & Hb1).
    unfold buffers_ok, flip. cbn. rewrite H0, H1, Hz, Hc.
    split; [destruct Hcb as [-> | ->]; cbn; auto|]. auto. }
  assert (Hoff : offset (buffers (flip l) (currbuffer (flip l))) = 0).
  { rewrite Hcur. unfold flip, buffers. cbn [buffers0 buffers1 set_currbuffer].
    rewrite H0, H1. exact Hother. }
  rewrite (do_add_log_entry_room (flip l) msg Hok')
    by (rewrite Hoff; unfold flip; cbn; rewrite Hz; lia).
  eexists. reflexivity.
Qed.

Lemma blocked_producer_is_released_on_wake_witness :
  pc (inner_loop false
        (set_shared nearly_full (eprint (shared nearly_full) space_warning)))
  = Flushing (currbuffer (shared nearly_full)) /\
  currbuffer
    (shared (inner_loop false
               (set_shared nearly_full
                  (eprint (shared nearly_full) space_warning))))
  = other (shared nearly_full) /\
  exists l',
    do_add_log_entry
      (shared (inner_loop false
                 (set_shared nearly_full
                    (eprint (shared nearly_full) space_warning))))
      (repeat "e"%char 2047) = Done l'.
Proof.
  apply (blocked_producer_is_released_on_wake willing_device nearly_full
           (repeat "e"%char 2047)
           (eprint (shared nearly_full) space_warning) false).
  - apply (replay_reachable willing_device
             [DoStart 1; DoAppend (repeat "a"%char 2047);
              DoAppend (repeat "b"%char 2047); DoAppend (repeat "c"%char 2047);
              DoAppend (repeat "d"%char 2047)]
             (booted (configured 8192 (100 * 1024 * 1024)))).
    + apply booted_initial. split; [apply Z.leb_le | apply Z.ltb_lt]; reflexivity.
    + vm_compute. reflexivity.
  - vm_compute. reflexivity.
  - apply Z.leb_le. vm_compute. reflexivity.
  - apply Z.ltb_lt. vm_compute. reflexivity.
  - vm_compute. reflexivity.
Defined.

(** X16.  A record at or above the record threshold but below the console
    threshold is handed to the buffered path as it is and nothing of it
    reaches the standard error stream: a call that returns leaves the
    stream as it was, and one that has to wait has printed the warning
    about log space at most. *)
Theorem record_below_output_level_is_silent l severity tv_sec tv_usec str tz msg :
  severity >= current_log_level l -> severity < output_level l ->
  len (prefix_of l severity tv_sec tv_usec str tz) + len msg < 2047 ->
  logger_log l severity (TodOk tv_sec tv_usec str tz) msg
  = add_log_entry l
      (terminate_line (prefix_of l severity tv_sec tv_usec str tz ++ msg))
      (len (prefix_of l severity tv_sec tv_usec str tz)) /\
  exists w,
    stderr (state_of (logger_log l severity (TodOk tv_sec tv_usec str tz) msg))
    = stderr l ++ w /\
    (w = [] \/ w = space_warning) /\
    (forall l', logger_log l severity (TodOk tv_sec tv_usec str tz) msg = Done l' ->
                w = []).
Proof.
  intros Hrec Hout Hfit.
  pose proof (len_nonneg msg) as Hm.
  assert (Heq : logger_log l severity (TodOk tv_sec tv_usec str tz) msg
                = add_log_entry l
                    (terminate_line
                       (prefix_of l severity tv_sec tv_usec str tz ++ msg))
                    (len (prefix_of l severity tv_sec tv_usec str tz))).
  { rewrite logger_log_formatted by lia.
    replace (severity >=? current_log_level l) with true
      by (symmetry; apply Z.geb_le; lia).
    replace (severity >=? output_level l) with false
      by (symmetry; rewrite Z.geb_leb; apply Z.leb_gt; lia).
    cbn [orb].
    replace (len msg <? 2047 - len (prefix_of l severity tv_sec tv_usec str tz))
      with true by (symmetry; apply Z.ltb_lt; lia).
    reflexivity. }
  split; [exact Heq|]. rewrite Heq. apply add_log_entry_stderr.
Qed.

Lemma record_below_output_level_is_silent_witness :
  logger_log (set_output_level (set_current_log_level (startup 1024)
                                  EXTENSION_LOG_INFO) EXTENSION_LOG_WARNING)
    EXTENSION_LOG_INFO half_past_three (chars "hello")
  = add_log_entry
      (set_output_level (set_current_log_level (startup 1024)
                           EXTENSION_LOG_INFO) EXTENSION_LOG_WARNING)
      (terminate_line
         (prefix_of (set_output_level (set_current_log_level (startup 1024)
                                         EXTENSION_LOG_INFO) EXTENSION_LOG_WARNING)
            EXTENSION_LOG_INFO 1793374320 42
            (Some (chars "Thu Oct 30 15:32:00 2026" ++ [LF])) (chars "UTC")
          ++ chars "hello"))
      (len (prefix_of (set_output_level (set_current_log_level (startup 1024)
                                           EXTENSION_LOG_INFO) EXTENSION_LOG_WARNING)
              EXTENSION_LOG_INFO 1793374320 42
              (Some (chars "Thu Oct 30 15:32:00 2026" ++ [LF])) (chars "UTC"))) /\
  exists w,
    stderr (state_of
              (logger_log
                 (set_output_level (set_current_log_level (startup 1024)
                                      EXTENSION_LOG_INFO) EXTENSION_LOG_WARNING)
                 EXTENSION_LOG_INFO half_past_three (chars "hello")))
    = stderr (set_output_level (set_current_log_level (startup 1024)
                                  EXTENSION_LOG_INFO) EXTENSION_LOG_WARNING) ++ w /\
    (w = [] \/ w = space_warning) /\
    (forall l',
       logger_log
         (set_output_level (set_current_log_level (startup 1024)
                              EXTENSION_LOG_INFO) EXTENSION_LOG_WARNING)
         EXTENSION_LOG_INFO half_past_three (chars "hello") = Done l' ->
       w = []).
Proof.
  apply (record_below_output_level_is_silent
           (set_output_level (set_current_log_level (startup 1024)
                                EXTENSION_LOG_INFO) EXTENSION_LOG_WARNING)
           EXTENSION_LOG_INFO 1793374320 42
           (Some (chars "Thu Oct 30 15:32:00 2026" ++ [LF])) (chars "UTC")
           (chars "hello")).
  - apply Z.ge_le_iff, Z.leb_le. vm_compute. reflexivity.
  - apply Z.ltb_lt. vm_compute. reflexivity.
  - apply Z.ltb_lt. vm_compute. reflexivity.
Defined.

(** ** X19: what counts as a repeat at the entry point *)

(** The record [logger_log] makes of a text: prefix, text, and a newline
    where the text does not end in one. *)
Lemma record_shape l severity tv_sec tv_usec str tz msg :
  terminate_line (prefix_of l severity tv_sec tv_usec str tz ++ msg)
  = prefix_of l severity tv_sec tv_usec str tz
      ++ (msg ++ if Nat.eqb (trailing_newlines msg) 0 then [LF] else []).
Proof.
  assert (Htr : trailing_newlines (prefix_of l severity tv_sec tv_usec str tz ++ msg)
                = trailing_newlines msg).
  { unfold prefix_of.
    destruct (severity_tag_ends (prettyprint l) severity) as [t ->].
    rewrite (app_assoc (timestamp tv_sec tv_usec str tz)).
    apply trailing_newlines_after_blank. }
  rewrite terminate_line_spec, Htr, <- app_assoc. reflexivity.
Qed.

(** X19.  The de-duplicator compares what follows the prefix, so the time
    and the severity of a record play no part: when the stored message is
    the record of a text, logged at any time with any severity, a call
    with the same text at or above the record threshold (the record below
    512 bytes) adds nothing to the buffers and only counts one more
    repeat, whatever its own time and severity are.  The call still shows
    the record on the console when its severity reaches the console
    threshold. *)
Theorem repeats_ignore_time_and_severity l buf count
    sev1 sec1 usec1 str1 tz1 sev2 sec2 usec2 str2 tz2 msg :
  lastlog l
  = mk_lastlog
      (memcpy buf 0 (terminate_line (prefix_of l sev1 sec1 usec1 str1 tz1 ++ msg)))
      count (len (prefix_of l sev1 sec1 usec1 str1 tz1)) ->
  sev2 >= current_log_level l ->
  len (prefix_of l sev2 sec2 usec2 str2 tz2) + len msg + 1 < 512 ->
  exists l',
    logger_log l sev2 (TodOk sec2 usec2 str2 tz2) msg = Done l' /\
    buffers0 l' = buffers0 l /\ buffers1 l' = buffers1 l /\
    currbuffer l' = currbuffer l /\
    lastlog l'
    = mk_lastlog (lastlog_buffer (lastlog l)) (int (count + 1))
        (lastlog_offset (lastlog l)) /\
    stderr l'
    = stderr l
        ++ (if sev2 >=? output_level l
            then c_str (terminate_line
                          (prefix_of l sev2 sec2 usec2 str2 tz2 ++ msg))
            else []).
Proof.
  intros Hll Hsev Hfit.
  pose proof (len_nonneg msg) as Hm.
  pose proof (len_nonneg (prefix_of l sev2 sec2 usec2 str2 tz2)) as Hp.
  rewrite logger_log_formatted by lia.
  destruct (Z.geb_spec sev2 (current_log_level l)); [|lia].
  rewrite orb_true_l.
  destruct (Z.ltb_spec (len msg)
              (2047 - len (prefix_of l sev2 sec2 usec2 str2 tz2))); [|lia].
  cbv zeta. rewrite !record_shape.
  set (body := msg ++ if Nat.eqb (trailing_newlines msg) 0 then [LF] else []).
  assert (Hbody : len body <= len msg + 1).
  { subst body. rewrite len_app. destruct (Nat.eqb _ 0); unfold len; simpl; lia. }
  set (l1 := if sev2 >=? output_level l
             then eprint l (c_str (prefix_of l sev2 sec2 usec2 str2 tz2 ++ body))
             else l).
  assert (Hl1 : lastlog l1 = lastlog l /\ buffers0 l1 = buffers0 l /\
                buffers1 l1 = buffers1 l /\ currbuffer l1 = currbuffer l /\
                stderr l1
                = stderr l
                    ++ (if sev2 >=? output_level l
                        then c_str (prefix_of l sev2 sec2 usec2 str2 tz2 ++ body)
                        else [])).
  { subst l1. destruct (sev2 >=? output_level l); cbn;
      rewrite ?app_nil_r; auto. }
  destruct Hl1 as (Hl & Hb0 & Hb1 & Hc & Herr).
  rewrite (add_log_entry_repeat l1 _ body
             (skipn (0 + length (prefix_of l sev1 sec1 usec1 str1 tz1 ++ body)) buf)).
  - eexists. split; [reflexivity|]. cbn.
    rewrite Hl, Hll. cbn. rewrite record_shape. fold body. auto.
  - rewrite len_app. lia.
  - rewrite Hl, Hll. cbn [lastlog_offset lastlog_buffer].
    rewrite record_shape. fold body. apply stored_body.
Qed.

Lemma repeats_ignore_time_and_severity_witness :
  exists l',
    logger_log
      (set_lastlog (startup 1024)
         (mk_lastlog
            (memcpy (repeat NUL 512) 0
               (terminate_line
                  (prefix_of (startup 1024) EXTENSION_LOG_INFO 1793374320 42
                     (Some (chars "Thu Oct 30 15:32:00 2026" ++ [LF]))
                     (chars "UTC") ++ chars "disk full")))
            0
            (len (prefix_of (startup 1024) EXTENSION_LOG_INFO 1793374320 42
                    (Some (chars "Thu Oct 30 15:32:00 2026" ++ [LF]))
                    (chars "UTC")))))
      EXTENSION_LOG_WARNING
      (TodOk 1793374395 7 (Some (chars "Thu Oct 30 15:33:15 2026" ++ [LF]))
         (chars "UTC"))
      (chars "disk full") = Done l' /\
    buffers0 l' = buffers0 (startup 1024) /\
    buffers1 l' = buffers1 (startup 1024) /\
    currbuffer l' = currbuffer (startup 1024) /\
    lastlog l'
    = mk_lastlog
        (memcpy (repeat NUL 512) 0
           (terminate_line
              (prefix_of (startup 1024) EXTENSION_LOG_INFO 1793374320 42
                 (Some (chars "Thu Oct 30 15:32:00 2026" ++ [LF]))
                 (chars "UTC") ++ chars "disk full")))
        (int (0 + 1))
        (len (prefix_of (startup 1024) EXTENSION_LOG_INFO 1793374320 42
                (Some (chars "Thu Oct 30 15:32:00 2026" ++ [LF]))
                (chars "UTC"))) /\
    stderr l'
    = stderr (startup 1024)
        ++ (if EXTENSION_LOG_WARNING >=? output_level (startup 1024)
            then c_str (terminate_line
                          (prefix_of (startup 1024) EXTENSION_LOG_WARNING
                             1793374395 7
                             (Some (chars "Thu Oct 30 15:33:15 2026" ++ [LF]))
                             (chars "UTC") ++ chars "disk full"))
            else []).
Proof.
  apply (repeats_ignore_time_and_severity
           (set_lastlog (startup 1024)
              (mk_lastlog
                 (memcpy (repeat NUL 512) 0
                    (terminate_line
                       (prefix_of (startup 1024) EXTENSION_LOG_INFO 1793374320 42
                          (Some (chars "Thu Oct 30 15:32:00 2026" ++ [LF]))
                          (chars "UTC") ++ chars "disk full")))
                 0
                 (len (prefix_of (startup 1024) EXTENSION_LOG_INFO 1793374320 42
                         (Some (chars "Thu Oct 30 15:32:00 2026" ++ [LF]))
                         (chars "UTC")))))
           (repeat NUL 512) 0
           EXTENSION_LOG_INFO 1793374320 42
           (Some (chars "Thu Oct 30 15:32:00 2026" ++ [LF])) (chars "UTC")
           EXTENSION_LOG_WARNING 1793374395 7
           (Some (chars "Thu Oct 30 15:33:15 2026" ++ [LF])) (chars "UTC")
           (chars "disk full")).
  - reflexivity.
  - apply Z.ge_le_iff, Z.leb_le. vm_compute. reflexivity.
  - apply Z.ltb_lt. vm_compute. reflexivity.
Defined.

(** ** X21 and X22: the fixed buffers *)

Lemma fmt_06u_length v : len (fmt_06u v) <= 10.
Proof.
  unfold fmt_06u. rewrite len_app. pose proof (fmt_u_length v) as H.
  unfold len in *. rewrite repeat_length. lia.
Qed.

Lemma severity2string_length sev : len (severity2string sev) <= 7.
Proof.
  unfold severity2string.
  repeat (destruct (_ =? _); [vm_compute; discriminate|]).
  vm_compute. discriminate.
Qed.

(** X21.  The prefix of a record is short: with a calendar text that fits
    the 40-byte array [str], the time stamp and the severity tag take at
    most 64 bytes and the name of the time zone.  So any zone name of up
    to 1983 bytes leaves the prefix within the 2047 bytes of the scratch
    buffer, whatever the time, the severity and the setting of
    [prettyprint] are. *)
Theorem prefix_fits_the_scratch_buffer l severity tv_sec tv_usec str tz :
  (forall text, str = Some text -> len (c_str text) <= 39) ->
  len (prefix_of l severity tv_sec tv_usec str tz) <= 64 + len (c_str tz) /\
  (len (c_str tz) <= 1983 ->
   len (prefix_of l severity tv_sec tv_usec str tz) <= 2047).
Proof.
  intros Hstr.
  assert (Hb : len (prefix_of l severity tv_sec tv_usec str tz)
               <= 64 + len (c_str tz)).
  { unfold prefix_of. rewrite len_app.
    assert (Htag : len (severity_tag (prettyprint l) severity) <= 13).
    { unfold severity_tag. destruct (prettyprint l); rewrite !len_app.
      - pose proof (severity2string_length severity).
        change (len (chars " ")) with 1. change (len (chars ": ")) with 2. lia.
      - pose proof (fmt_u_length severity).
        change (len (chars " ")) with 1. change (len (chars ": ")) with 2. lia. }
    pose proof (fmt_06u_length tv_usec) as Hus.
    pose proof (len_nonneg (c_str tz)) as Htz.
    unfold timestamp. destruct str as [text|].
    - specialize (Hstr text eq_refl). rewrite !len_app.
      change (len (chars ".")) with 1. change (len (chars " ")) with 1.
      assert (len (firstn (length (c_str text) - 6) (c_str text)) <= 39).
      { unfold len in *. rewrite length_firstn. lia. }
      lia.
    - rewrite !len_app. change (len (chars ".")) with 1.
      pose proof (fmt_u_length tv_sec). lia. }
  split; [exact Hb|]. intros Htz. lia.
Qed.

Lemma prefix_fits_the_scratch_buffer_witness :
  len (prefix_of (startup 1024) EXTENSION_LOG_WARNING 1793374320 42
         (Some (chars "Thu Oct 30 15:32:00 2026" ++ [LF])) (chars "UTC"))
  <= 64 + len (c_str (chars "UTC")) /\
  (len (c_str (chars "UTC")) <= 1983 ->
   len (prefix_of (startup 1024) EXTENSION_LOG_WARNING 1793374320 42
          (Some (chars "Thu Oct 30 15:32:00 2026" ++ [LF])) (chars "UTC"))
   <= 2047).
Proof.
  apply (prefix_fits_the_scratch_buffer (startup 1024) EXTENSION_LOG_WARNING
           1793374320 42 (Some (chars "Thu Oct 30 15:32:00 2026" ++ [LF]))
           (chars "UTC")).
  intros text [= <-]. apply Z.leb_le. vm_compute. reflexivity.
Defined.

(** X22.  The de-duplicator never writes past its comparison buffer: the
    512 bytes of [lastlog.buffer] are 512 bytes after every call of
    [add_log_entry], whether the call returns or waits, since a record is
    copied there only when it is shorter than the buffer.  Nor does
    [flush_last_log] fill its array of 80 bytes, whatever the count. *)
Theorem comparison_buffer_is_never_overrun l msg prefixlen :
  len (lastlog_buffer (lastlog l)) = 512 ->
  len (lastlog_buffer (lastlog (state_of (add_log_entry l msg prefixlen)))) = 512 /\
  len (repeated_line (lastlog_count (lastlog l))) + 1 <= 80.
Proof.
  intros Hlen. split;
    [|pose proof (repeated_line_fits (lastlog_count (lastlog l))); lia].
  pose proof (len_nonneg msg) as Hm.
  pose proof (flush_last_log_lastlog l) as Hfl.
  unfold add_log_entry.
  destruct (Z.ltb_spec (len msg) 512) as [Hshort|Hlong].
  - destruct (memcmp _ _ _) as [r|]; [|exact Hlen].
    destruct (r =? 0); [exact Hlen|].
    destruct (flush_last_log l) as [l1|l1|l1]; cbn [and_then state_of] in *;
      [|rewrite Hfl; exact Hlen..].
    pose proof (do_add_log_entry_lastlog l1 msg) as Hadd.
    destruct (do_add_log_entry l1 msg) as [l2|l2|l2]; cbn [and_then state_of] in *;
      [|rewrite Hadd, Hfl; exact Hlen..].
    cbn [lastlog set_lastlog lastlog_buffer]. rewrite Hadd, Hfl.
    unfold len in *. rewrite memcpy_length; unfold len; lia.
  - destruct (flush_last_log l) as [l1|l1|l1]; cbn [and_then state_of] in *;
      [|rewrite Hfl; exact Hlen..].
    rewrite do_add_log_entry_lastlog.
    cbn [lastlog set_lastlog lastlog_buffer]. rewrite Hfl.
    unfold len in *. rewrite memcpy_length; unfold len; cbn [length]; lia.
Qed.

Lemma comparison_buffer_is_never_overrun_witness :
  len (lastlog_buffer
         (lastlog (state_of
                     (add_log_entry (startup 1024)
                        (chars "15:32:00 3: disk full" ++ [LF]) 12)))) = 512 /\
  len (repeated_line (lastlog_count (lastlog (startup 1024)))) + 1 <= 80.
Proof.
  apply (comparison_buffer_is_never_overrun (startup 1024)
           (chars "15:32:00 3: disk full" ++ [LF]) 12).
  reflexivity.
Defined.

(** ** X17: the handles the logger holds *)

Lemma open_logfile_handles dev fuel s ret s1 :
  open_logfile dev fuel s = Some (ret, s1) ->
  pc s1 = pc s /\ fp s1 = fp s /\
  open_handles (disk s1) = handle_set ret ∪ open_handles (disk s).
Proof.
  unfold open_logfile.
  destruct (open_logfile_probe fuel (disk s) (arg s) (next_id s))
    as [[fname id]|]; [|discriminate].
  unfold iops_open. destruct (open_result dev (opens (disk s)));
    intros [= <- <-]; cbn; (split; [reflexivity|]); (split; [reflexivity|]).
  - reflexivity.
  - symmetry. apply union_empty_l_L.
Qed.

Lemma flush_pending_io_handles dev fuel s file this n s' :
  flush_pending_io dev fuel s file this = Some (n, s') ->
  pc s' = pc s /\ fp s' = fp s /\ currsize s' = currsize s /\
  cyclesz (shared s') = cyclesz (shared s) /\
  open_handles (disk s') = open_handles (disk s).
Proof.
  unfold flush_pending_io. destruct (offset _ >? 0).
  - destruct file as [h|]; [|discriminate].
    destruct (write_pending _ _ _ _ _ _) as [st|] eqn:E; [|discriminate].
    intros [= _ <-]. cbn.
    destruct (write_pending_frame _ _ _ _ _ _ _ E) as (_ & _ & Ho & _).
    rewrite (proj1 (proj2 (proj2 (set_buffer_frame _ _ _)))). auto.
  - intros [= _ <-]. auto.
Qed.

Lemma close_logfile_handles s :
  open_handles (disk s) = handle_set (fp s) ->
  open_handles (disk (close_logfile s (fp s))) = ∅.
Proof.
  unfold close_logfile, handle_set. destruct (fp s) as [h|]; cbn.
  - intros ->. apply difference_diag_L.
  - intros ->. reflexivity.
Qed.

Lemma flush_cycle_handles dev fuel s this s1 :
  flush_cycle dev fuel s this = Some s1 ->
  open_handles (disk s) = handle_set (fp s) ->
  pc s1 = pc s /\ open_handles (disk s1) = handle_set (fp s1).
Proof.
  unfold flush_cycle. intros Hrun Hh.
  destruct (flush_pending_io dev fuel s (fp s) this) as [[n s2]|] eqn:Hfl;
    [|discriminate].
  destruct (flush_pending_io_handles _ _ _ _ _ _ _ Hfl) as (Hpc & Hfp & _ & _ & Ho).
  destruct (size_t (currsize s2 + n) >? cyclesz (shared s2)).
  - unfold reopen_logfile in Hrun.
    destruct (open_logfile dev fuel (close_logfile s2 (fp s2))) as [[f s3]|] eqn:Hop;
      [|discriminate].
    injection Hrun as <-.
    destruct (open_logfile_handles _ _ _ _ _ Hop) as (Hpc3 & _ & Ho3).
    rewrite close_logfile_handles in Ho3 by (rewrite Ho, Hfp; exact Hh).
    cbn [pc fp disk set_file]. split.
    + rewrite Hpc3, <- Hpc. unfold close_logfile. destruct (fp s2); reflexivity.
    + rewrite Ho3. apply union_empty_r_L.
  - injection Hrun as <-. cbn [pc fp disk set_file]. split; [exact Hpc|].
    rewrite Ho, Hfp. exact Hh.
Qed.

Lemma inner_loop_held timer_due s :
  pc s <> Exited ->
  disk (inner_loop timer_due s) = disk s /\
  held (inner_loop timer_due s) = handle_set (fp s).
Proof.
  intros _. unfold inner_loop, held.
  destruct (timer_due || _); cbn; auto.
Qed.

(** X17.  In every state the logger can reach, the handles that are open
    are exactly the one the flusher thread holds in [fp]: none before the
    thread has opened its first file or when an open failed, one while it
    runs (rotation closes the old file before it opens the new one), and
    none once the thread has exited. *)
Theorem at_most_one_log_file_is_open dev s :
  reachable dev s -> open_handles (disk s) = held s.
Proof.
  induction 1 as [s Hinit | s ev s' Hreach IH Hstep].
  - destruct Hinit as (_ & _ & _ & _ & _ & _ & _ & _ & Hpc & Hfp & _ & _ & Ho).
    unfold held. rewrite Hpc, Hfp, Ho. reflexivity.
  - pose proof (reachable_ok dev s Hreach) as Hok.
    destruct Hstep as
      [s msg l Hlen Hadd | s msg l Hwait | s ll level text | s
      | s fuel ret s1 Hpc Hopen | s timer_due Hpc Hrun
      | s this fuel s1 Hpc Hcycle | s fuel s1 Hpc Hrun Hexit];
      try exact IH.
    + destruct Hok as (_ & (_ & _ & Hst & _) & _).
      destruct (Hst Hpc) as [Hnone _].
      unfold held in IH. rewrite Hpc, Hnone in IH.
      destruct (open_logfile_handles _ _ _ _ _ Hopen) as (_ & _ & Ho).
      unfold held. cbn [pc fp disk set_pc set_file].
      rewrite Ho, IH. apply union_empty_r_L.
    + destruct (inner_loop_held timer_due s) as [Hd Hh];
        [rewrite Hpc; discriminate|].
      rewrite Hd, Hh, IH. unfold held. rewrite Hpc. reflexivity.
    + unfold held in IH. rewrite Hpc in IH.
      destruct (flush_cycle_handles _ _ _ _ _ Hcycle IH) as [Hpc1 Ho1].
      destruct (inner_loop_held false s1) as [Hd Hh];
        [rewrite Hpc1, Hpc; discriminate|].
      rewrite Hd, Hh. exact Ho1.
    + unfold held in IH. rewrite Hpc in IH.
      destruct Hok as (Hb & (Hpass & Hfp & Hst & Hd) & Hid).
      rewrite Hpc in Hpass.
      unfold thread_exit in Hexit.
      destruct (fp s) as [h|] eqn:E in Hexit.
      * rewrite <- E in Hexit.
        destruct (drain dev fuel s (fp s)) as [s2|] eqn:Hdr; [|discriminate].
        injection Hexit as <-.
        destruct (drain_ok dev fuel s s2 Hb Hd Hfp Hpass Hdr)
          as (_ & _ & _ & _ & _ & Hfp2 & _ & _ & _ & Ho2 & _).
        unfold held. cbn [pc set_pc disk].
        assert (Hh2 : open_handles (disk s2) = handle_set (fp s2))
          by (rewrite Ho2, Hfp2; exact IH).
        exact (close_logfile_handles s2 Hh2).
      * injection Hexit as <-. unfold held. cbn. rewrite IH, E. reflexivity.
Qed.

Lemma at_most_one_log_file_is_open_witness :
  exists s,
    replay willing_device
      [DoStart 1; DoAppend (chars "one "); DoWake true; DoFlush 1;
       DoAppend (chars "two "); DoWake true; DoFlush 1]
      (booted (configured 64 6)) = Some s /\
    created (disk s) = ["memcached.0.txt"; "memcached.1.txt"] /\
    open_handles (disk s) = held s.
Proof.
  eexists. split; [vm_compute; reflexivity|]. split; [vm_compute; reflexivity|].
  apply (at_most_one_log_file_is_open willing_device).
  apply (replay_reachable willing_device
           [DoStart 1; DoAppend (chars "one "); DoWake true; DoFlush 1;
            DoAppend (chars "two "); DoWake true; DoFlush 1]
           (booted (configured 64 6))).
  - apply booted_initial. split; [apply Z.leb_le | apply Z.ltb_lt]; reflexivity.
  - vm_compute. reflexivity.
Defined.

(** ** X18: the size of the log files *)

Lemma len_contents b :
  0 <= offset b <= len (data b) -> len (contents b) = offset b.
Proof.
  intros H. unfold contents, len in *. rewrite length_firstn. lia.
Qed.

Lemma file_size_files st st' n :
  files st' !! n = files st !! n -> file_size st' n = file_size st n.
Proof. unfold file_size, file_bytes. intros ->. reflexivity. Qed.

(** What one call of [flush_pending_io] does to the sizes of the files. *)
Lemma flush_pending_io_sizes dev fuel s this n s2 :
  buffers_ok (shared s) -> disk_ok (disk s) ->
  (forall h, fp s = Some h -> last (created (disk s)) = Some h) ->
  buffersz (shared s) < 2 ^ 31 ->
  flush_pending_io dev fuel s (fp s) this = Some (n, s2) ->
  0 <= n <= buffersz (shared s) /\
  (forall x, fp s <> Some x -> file_size (disk s2) x = file_size (disk s) x) /\
  (forall h, fp s = Some h -> file_size (disk s2) h = file_size (disk s) h + n).
Proof.
  intros Hb Hd Hfp Hsmall Hfl.
  destruct (flush_pending_io_ok _ _ _ _ _ _ Hb Hd Hfp Hfl)
    as (Hn & _ & _ & _ & _ & _ & Hframe & _).
  destruct (buffers_ok_at _ this Hb) as [Hoff Hlen].
  split; [lia|]. split.
  - intros x Hx. apply file_size_files. exact (Hframe x Hx).
  - intros h Hh. rewrite Hh in Hfl.
    pose proof (last_created_elem _ _ (Hfp h Hh)) as Hin.
    destruct (disk_ok_lookup _ _ Hd Hin) as (f & Hf & Hu).
    pose proof (flush_pending_io_bytes dev fuel s h this n s2 f Hfl) as Hbytes.
    rewrite Hlen in Hbytes. specialize (Hbytes Hoff ltac:(lia) Hf Hu).
    unfold file_size.
    rewrite (file_bytes_insert _ _ _ _ Hbytes). cbn [stored].
    unfold file_bytes at 1. rewrite Hf, len_app, len_contents by lia. lia.
Qed.

(** What [reopen_logfile] does to them: the files there are keep their
    bytes, and the file opened, if one is, is new and empty. *)
Lemma reopen_logfile_sizes dev fuel s ret s1 :
  disk_ok (disk s) ->
  (forall h, fp s = Some h -> last (created (disk s)) = Some h) ->
  0 <= next_id s < 2 ^ 32 ->
  reopen_logfile dev fuel s (fp s) = Some (ret, s1) ->
  cyclesz (shared s1) = cyclesz (shared s) /\
  (forall n, n ∈ created (disk s1) -> n ∈ created (disk s) \/ ret = Some n) /\
  (forall n, n ∈ created (disk s) -> file_size (disk s1) n = file_size (disk s) n) /\
  (forall h, ret = Some h -> file_size (disk s1) h = 0).
Proof.
  intros Hd Hfp Hid Hre.
  destruct (reopen_logfile_ok dev fuel s ret s1 Hd Hfp Hid Hre)
    as (_ & _ & _ & _ & _ & _ & _ & _ & Hkeep).
  unfold reopen_logfile in Hre.
  set (s0 := close_logfile s (fp s)) in *.
  assert (Hs0 : shared s0 = shared s /\ next_id s0 = next_id s /\
                created (disk s0) = created (disk s)).
  { subst s0. unfold close_logfile. destruct (fp s); auto. }
  destruct Hs0 as (Hsh & Hnid & Hcr).
  destruct (open_logfile_spec dev fuel s0 ret s1) as
    (k & name & _ & _ & _ & _ & _ & _ & _ & Hcase);
    [rewrite Hnid; exact Hid | exact Hre |].
  assert (Hold : forall n, n ∈ created (disk s) ->
                   file_size (disk s1) n = file_size (disk s) n).
  { intros n Hin. destruct (disk_ok_lookup _ _ Hd Hin) as (f & Hf & _).
    apply file_size_files. rewrite Hf. exact (Hkeep n f Hf). }
  destruct Hcase as [(_ & -> & Hsh1 & Hdisk1) | (_ & -> & Hsh1 & Hdisk1)].
  - split; [rewrite Hsh1, Hsh; reflexivity|]. split; [|split; [exact Hold|]].
    + intros n Hin. rewrite Hdisk1 in Hin. cbn [created] in Hin.
      apply elem_of_app in Hin as [Hin|Hin].
      * left. rewrite <- Hcr. exact Hin.
      * right. apply list_elem_of_singleton in Hin. congruence.
    + intros h [= <-]. rewrite Hdisk1. unfold file_size, file_bytes.
      cbn [files]. rewrite lookup_insert_eq. reflexivity.
  - split; [rewrite Hsh1, Hsh; reflexivity|]. split; [|split; [exact Hold|]].
    + intros n Hin. rewrite Hdisk1 in Hin. cbn [created] in Hin.
      left. rewrite <- Hcr. exact Hin.
    + intros h [=].
Qed.

(** One pass of the flusher keeps the accounts: [currsize] is the size of
    the file behind [fp] and does not pass [cyclesz]; no file is larger
    than [cyclesz] and one buffer. *)
Lemma flush_cycle_sizes dev fuel s this s1 :
  buffers_ok (shared s) -> disk_ok (disk s) ->
  (forall h, fp s = Some h -> last (created (disk s)) = Some h) ->
  0 <= next_id s < 2 ^ 32 ->
  buffersz (shared s) < 2 ^ 31 ->
  cyclesz (shared s) + buffersz (shared s) < 2 ^ 64 ->
  0 <= currsize s <= cyclesz (shared s) ->
  (forall h, fp s = Some h -> file_size (disk s) h = currsize s) ->
  (forall n, n ∈ created (disk s) ->
     file_size (disk s) n <= cyclesz (shared s) + buffersz (shared s)) ->
  flush_cycle dev fuel s this = Some s1 ->
  0 <= currsize s1 <= cyclesz (shared s) /\
  (forall h, fp s1 = Some h -> file_size (disk s1) h = currsize s1) /\
  (forall n, n ∈ created (disk s1) ->
     file_size (disk s1) n <= cyclesz (shared s) + buffersz (shared s)).
Proof.
  intros Hb Hd Hfp Hid Hsmall Hwide Hcs Hacc Hbound. unfold flush_cycle.
  destruct (flush_pending_io dev fuel s (fp s) this) as [[n s2]|] eqn:Hfl;
    [|discriminate].
  destruct (flush_pending_io_ok _ _ _ _ _ _ Hb Hd Hfp Hfl)
    as (_ & Hs2 & Hd2 & Hc2 & _).
  destruct (flush_pending_io_handles _ _ _ _ _ _ _ Hfl)
    as (_ & Hfp2 & Hcs2 & Hcz2 & _).
  destruct (flush_pending_io_sizes _ _ _ _ _ _ Hb Hd Hfp Hsmall Hfl)
    as (Hn & Hother & Hmine).
  assert (Hnid2 : next_id s2 = next_id s) by (rewrite Hs2; reflexivity).
  assert (Hfpc2 : forall h, fp s2 = Some h -> last (created (disk s2)) = Some h).
  { intros h Hh. rewrite Hc2. apply Hfp. congruence. }
  assert (Hall2 : forall x, x ∈ created (disk s) ->
            file_size (disk s2) x <= cyclesz (shared s) + buffersz (shared s) /\
            (fp s = Some x -> file_size (disk s2) x = currsize s + n)).
  { intros x Hin. destruct (decide (fp s = Some x)) as [Hx|Hx].
    - rewrite (Hmine x Hx), (Hacc x Hx). split; [lia|reflexivity].
    - rewrite (Hother x Hx). split; [exact (Hbound x Hin)|contradiction]. }
  rewrite Hcs2, Hcz2, size_t_small by lia.
  destruct (Z.gtb_spec (currsize s + n) (cyclesz (shared s))) as [Hgt|Hle].
  - destruct (reopen_logfile dev fuel s2 (fp s2)) as [[f s3]|] eqn:Hre;
      [|discriminate].
    intros [= <-].
    destruct (reopen_logfile_sizes dev fuel s2 f s3 Hd2 Hfpc2) as
      (_ & Hcr3 & Hold3 & Hnew3); [rewrite Hnid2; exact Hid | exact Hre |].
    cbn [currsize fp disk set_file].
    split; [lia|]. split; [exact Hnew3|].
    intros x Hin. destruct (Hcr3 x Hin) as [Hin2|Hx].
    + rewrite (Hold3 x Hin2). rewrite Hc2 in Hin2. exact (proj1 (Hall2 x Hin2)).
    + rewrite (Hnew3 x Hx). lia.
  - intros [= <-]. cbn [currsize fp disk set_file].
    split; [lia|]. split.
    + intros h Hh. rewrite Hfp2 in Hh.
      pose proof (last_created_elem _ _ (Hfp h Hh)) as Hin.
      exact (proj2 (Hall2 h Hin) Hh).
    + intros x Hin. rewrite Hc2 in Hin. exact (proj1 (Hall2 x Hin)).
Qed.

Lemma do_add_log_entry_cyclesz l msg :
  cyclesz (state_of (do_add_log_entry l msg)) = cyclesz l.
Proof.
  unfold do_add_log_entry. destruct (_ >=? _); cbn [state_of].
  - destruct (unit_test l); reflexivity.
  - apply set_buffer_frame.
Qed.

Lemma drain_cyclesz dev fuel : forall s file s1,
  drain dev fuel s file = Some s1 -> cyclesz (shared s1) = cyclesz (shared s).
Proof.
  induction fuel as [|fuel IH]; intros s file s1; cbn [drain];
    destruct (offset (buffers (shared s) (currbuffer (shared s))) =? 0);
    try discriminate; try (intros [= <-]; reflexivity).
  destruct (flush_pending_io dev (S fuel) (set_shared s (flip (shared s))) file
              (currbuffer (shared s))) as [[n s3]|] eqn:Hfl; [|discriminate].
  intros Hrun. rewrite (IH _ _ _ Hrun).
  destruct (flush_pending_io_handles _ _ _ _ _ _ _ Hfl) as (_ & _ & _ & Hcz & _).
  exact Hcz.
Qed.

Lemma inner_loop_cyclesz timer_due s :
  cyclesz (shared (inner_loop timer_due s)) = cyclesz (shared s).
Proof. unfold inner_loop. destruct (timer_due || _); reflexivity. Qed.

(** No step changes the rotation size. *)
Lemma step_cyclesz dev s ev s' :
  system_ok s -> step dev s ev s' -> cyclesz (shared s') = cyclesz (shared s).
Proof.
  intros Hok Hstep. destruct Hstep as
    [s msg l Hlen Hadd | s msg l Hwait | s ll level text | s
    | s fuel ret s1 Hpc Hopen | s timer_due Hpc Hrun
    | s this fuel s1 Hpc Hcycle | s fuel s1 Hpc Hrun Hexit];
    destruct Hok as (Hb & (Hpass & Hfp & Hst & Hd) & Hid).
  - pose proof (do_add_log_entry_cyclesz (shared s) msg) as H.
    rewrite Hadd in H. exact H.
  - pose proof (do_add_log_entry_cyclesz (shared s) msg) as H.
    rewrite Hwait in H. exact H.
  - reflexivity.
  - reflexivity.
  - destruct (Hst Hpc) as [Hnone _].
    assert (Hre : reopen_logfile dev fuel s (fp s) = Some (ret, s1))
      by (unfold reopen_logfile; rewrite Hnone; exact Hopen).
    exact (proj1 (reopen_logfile_sizes dev fuel s ret s1 Hd Hfp Hid Hre)).
  - apply inner_loop_cyclesz.
  - rewrite inner_loop_cyclesz. unfold flush_cycle in Hcycle.
    destruct (flush_pending_io dev fuel s (fp s) this) as [[n s2]|] eqn:Hfl;
      [|discriminate].
    destruct (flush_pending_io_ok _ _ _ _ _ _ Hb Hd Hfp Hfl)
      as (_ & Hs2 & Hd2 & Hc2 & _).
    destruct (flush_pending_io_handles _ _ _ _ _ _ _ Hfl)
      as (_ & Hfp2 & _ & Hcz2 & _).
    destruct (size_t (currsize s2 + n) >? cyclesz (shared s2)).
    + destruct (reopen_logfile dev fuel s2 (fp s2)) as [[f s3]|] eqn:Hre;
        [|discriminate].
      injection Hcycle as <-.
      destruct (reopen_logfile_sizes dev fuel s2 f s3 Hd2) as (Hcz3 & _);
        [intros h Hh; rewrite Hc2; apply Hfp; congruence
        |rewrite Hs2; exact Hid | exact Hre |].
      cbn [shared set_file]. rewrite Hcz3. exact Hcz2.
    + injection Hcycle as <-. exact Hcz2.
  - unfold thread_exit in Hexit. destruct (fp s) as [h|].
    + destruct (drain dev fuel s (Some h)) as [s2|] eqn:Hdr; [|discriminate].
      injection Hexit as <-.
      rewrite <- (drain_cyclesz _ _ _ _ _ Hdr).
      unfold close_logfile. destruct (fp s2); reflexivity.
    + injection Hexit as <-. reflexivity.
Qed.

(** From an idle state the drain writes one buffer at most: the other one
    is empty. *)
Lemma drain_once dev fuel s s1 :
  buffers_ok (shared s) ->
  offset (buffers (shared s) (other (shared s))) = 0 ->
  drain dev fuel s (fp s) = Some s1 ->
  s1 = s \/
  exists fuel' n,
    flush_pending_io dev fuel' (set_shared s (flip (shared s))) (fp s)
      (currbuffer (shared s)) = Some (n, s1).
Proof.
  intros Hb Hpass Hrun.
  destruct (Z.eqb_spec (offset (buffers (shared s) (currbuffer (shared s)))) 0)
    as [H0|H0].
  { left. rewrite drain_empty in Hrun by exact H0. congruence. }
  right. destruct fuel as [|fuel]; cbn [drain] in Hrun;
    destruct (Z.eqb_spec (offset (buffers (shared s) (currbuffer (shared s)))) 0);
    try contradiction; try discriminate.
  destruct (flush_pending_io dev (S fuel) (set_shared s (flip (shared s))) (fp s)
              (currbuffer (shared s))) as [[n' s3]|] eqn:Hfl; [|discriminate].
  exists (S fuel), n'.
  destruct (buffers_ok_at _ (currbuffer (shared s)) Hb) as [Hoff _].
  destruct (flush_pending_io_shared dev (S fuel) (set_shared s (flip (shared s)))
              (fp s) (currbuffer (shared s)) n' s3) as [_ Hs3];
    [cbn [shared set_shared]; rewrite buffers_flip; lia | exact Hfl |].
  cbn [shared set_shared pc fp currsize next_id arg] in Hs3.
  rewrite buffers_flip in Hs3.
  destruct Hb as (Hcur & Hbrest).
  destruct (other_flip _ Hcur) as [Hcf Hof].
  assert (Hcur0 : offset (buffers (shared s3) (currbuffer (shared s3))) = 0).
  { rewrite Hs3. cbn [shared].
    rewrite (proj1 (set_buffer_frame _ _ _)), Hcf.
    rewrite buffers_set_buffer_other, buffers_flip; [exact Hpass|].
    intros E. apply (other_differs _ Hcur). symmetry. exact E. }
  rewrite drain_empty in Hrun by exact Hcur0. congruence.
Qed.

Lemma inner_loop_frame timer_due s :
  disk (inner_loop timer_due s) = disk s /\
  fp (inner_loop timer_due s) = fp s /\
  currsize (inner_loop timer_due s) = currsize s.
Proof. unfold inner_loop. destruct (timer_due || _); cbn; auto. Qed.

(** X18.  In every state the logger can reach, with buffers below 2 GiB
    and a rotation size that leaves room for one buffer below 2^64: no log
    file holds more than [cyclesz] bytes and one buffer, since the
    rotation test follows each write of a buffer and the drain at exit
    writes one buffer at most; and while the flusher thread runs, its
    counter [currsize] is the size of the file behind [fp] and has not
    passed [cyclesz]. *)
Theorem log_files_stay_within_cycle_and_buffer dev s :
  reachable dev s ->
  buffersz (shared s) < 2 ^ 31 ->
  0 <= cyclesz (shared s) ->
  cyclesz (shared s) + buffersz (shared s) < 2 ^ 64 ->
  (forall n, n ∈ created (disk s) ->
     file_size (disk s) n <= cyclesz (shared s) + buffersz (shared s)) /\
  (pc s <> Starting -> pc s <> Exited ->
   0 <= currsize s <= cyclesz (shared s) /\
   forall h, fp s = Some h -> file_size (disk s) h = currsize s).
Proof.
  induction 1 as [s Hinit | s ev s' Hreach IH Hstep]; intros Hsmall Hcz0 Hwide.
  - destruct Hinit as (_ & _ & _ & _ & _ & _ & _ & _ & Hpc & _ & _ & Hcr & _).
    split.
    + intros n Hin. rewrite Hcr in Hin. apply elem_of_nil in Hin. destruct Hin.
    + intros Hne. contradiction.
  - pose proof (reachable_ok dev s Hreach) as Hok.
    pose proof (step_buffersz dev s ev s' Hok Hstep) as Hbz.
    pose proof (step_cyclesz dev s ev s' Hok Hstep) as Hcz.
    rewrite Hbz in Hsmall, Hwide. rewrite Hcz in Hcz0, Hwide. rewrite Hbz, Hcz.
    destruct (IH Hsmall Hcz0 Hwide) as [Hbound Hacc]. clear IH Hbz Hcz.
    pose proof Hok as Hok0.
    destruct Hok as (Hb & (Hpass & Hfp & Hst & Hd) & Hid).
    assert (Hbz0 : 0 <= buffersz (shared s)) by (destruct Hb as (_ & Hz & _); lia).
    destruct Hstep as
      [s msg l Hlen Hadd | s msg l Hwait | s ll level text | s
      | s fuel ret s1 Hpc Hopen | s timer_due Hpc Hrun
      | s this fuel s1 Hpc Hcycle | s fuel s1 Hpc Hrun Hexit];
      try exact (conj Hbound Hacc).
    + destruct (Hst Hpc) as [Hnone Hnil].
      assert (Hre : reopen_logfile dev fuel s (fp s) = Some (ret, s1))
        by (unfold reopen_logfile; rewrite Hnone; exact Hopen).
      destruct (reopen_logfile_sizes dev fuel s ret s1 Hd Hfp Hid Hre)
        as (_ & Hcr1 & _ & Hnew1).
      cbn [pc fp currsize disk set_pc set_file]. split.
      * intros n Hin. destruct (Hcr1 n Hin) as [Hin0|Hn].
        -- rewrite Hnil in Hin0. apply elem_of_nil in Hin0. destruct Hin0.
        -- rewrite (Hnew1 n Hn). lia.
      * intros _ _. split; [lia|exact Hnew1].
    + destruct (inner_loop_frame timer_due s) as (-> & -> & ->).
      split; [exact Hbound|]. intros _ _.
      apply Hacc; rewrite Hpc; discriminate.
    + rewrite Hpc in Hpass.
      assert (Hns : pc s <> Starting) by (rewrite Hpc; discriminate).
      assert (Hne : pc s <> Exited) by (rewrite Hpc; discriminate).
      destruct (Hacc Hns Hne) as [Hcs Hmine].
      destruct (flush_cycle_sizes dev fuel s this s1 Hb Hd Hfp Hid Hsmall Hwide
                  Hcs Hmine Hbound Hcycle) as (Hcs1 & Hmine1 & Hbound1).
      destruct (inner_loop_frame false s1) as (-> & -> & ->).
      split; [exact Hbound1|]. intros _ _. split; assumption.
    + rewrite Hpc in Hpass.
      assert (Hns : pc s <> Starting) by (rewrite Hpc; discriminate).
      assert (Hne : pc s <> Exited) by (rewrite Hpc; discriminate).
      destruct (Hacc Hns Hne) as [Hcs Hmine].
      destruct (thread_exit_ok dev fuel s s1 Hok0 Hpc Hexit) as (_ & Hpc1 & _).
      split; [|intros _ Hne1; contradiction].
      unfold thread_exit in Hexit.
      destruct (fp s) as [h|] eqn:E in Hexit;
        [|injection Hexit as <-; exact Hbound].
      rewrite <- E in Hexit.
      destruct (drain dev fuel s (fp s)) as [s2|] eqn:Hdr; [|discriminate].
      injection Hexit as <-.
      destruct (drain_ok dev fuel s s2 Hb Hd Hfp Hpass Hdr)
        as (_ & _ & _ & _ & _ & Hfp2 & _ & Hd2 & Hc2 & _).
      assert (Hin : h ∈ created (disk s2)).
      { rewrite Hc2. apply last_created_elem. apply Hfp. exact E. }
      rewrite Hfp2, E. cbn [close_logfile disk set_pc set_disk].
      intros n Hn.
      assert (Hn2 : n ∈ created (disk s)) by (rewrite <- Hc2; exact Hn).
      rewrite (file_size_files (disk s2) _ n)
        by (rewrite (iops_close_files _ _ Hd2 Hin); reflexivity).
      destruct (drain_once dev fuel s s2 Hb Hpass Hdr) as [-> | (fuel' & n0 & Hfl)];
        [exact (Hbound n Hn2)|].
      destruct (flush_pending_io_sizes dev fuel' (set_shared s (flip (shared s)))
                  (currbuffer (shared s)) n0 s2
                  (buffers_ok_flip _ Hb) Hd Hfp Hsmall Hfl)
        as (Hn0 & Hother & Hadd).
      cbn [fp disk shared set_shared] in Hother, Hadd, Hn0.
      change (buffersz (flip (shared s))) with (buffersz (shared s)) in Hn0.
      destruct (decide (fp s = Some n)) as [Hx|Hx].
      * rewrite (Hadd n Hx), (Hmine n Hx). lia.
      * rewrite (Hother n Hx). exact (Hbound n Hn2).
Qed.

Lemma log_files_stay_within_cycle_and_buffer_witness :
  exists s,
    replay willing_device
      [DoStart 1; DoAppend (chars "one "); DoWake true; DoFlush 1;
       DoAppend (chars "two "); DoWake true; DoFlush 1;
       DoAppend (chars "three")]
      (booted (configured 64 6)) = Some s /\
    map (file_size (disk s)) (created (disk s)) = [8; 0] /\
    ((forall n, n ∈ created (disk s) ->
        file_size (disk s) n <= cyclesz (shared s) + buffersz (shared s)) /\
     (pc s <> Starting -> pc s <> Exited ->
      0 <= currsize s <= cyclesz (shared s) /\
      forall h, fp s = Some h -> file_size (disk s) h = currsize s)).
Proof.
  eexists. split; [vm_compute; reflexivity|]. split; [vm_compute; reflexivity|].
  apply (log_files_stay_within_cycle_and_buffer willing_device).
  - apply (replay_reachable willing_device
             [DoStart 1; DoAppend (chars "one "); DoWake true; DoFlush 1;
              DoAppend (chars "two "); DoWake true; DoFlush 1;
              DoAppend (chars "three")]
             (booted (configured 64 6))).
    + apply booted_initial. split; [apply Z.leb_le | apply Z.ltb_lt]; reflexivity.
    + vm_compute. reflexivity.
  - apply Z.ltb_lt. vm_compute. reflexivity.
  - apply Z.leb_le. vm_compute. reflexivity.
  - apply Z.ltb_lt. vm_compute. reflexivity.
Defined.

(** ** X20: entries and log files *)

Lemma groups_frame st st' names : forall groups,
  Forall2 (fun name g => file_bytes st name = concat g) names groups ->
  (forall n, n ∈ names -> file_bytes st' n = file_bytes st n) ->
  Forall2 (fun name g => file_bytes st' name = concat g) names groups.
Proof.
  induction names as [|n names IH]; intros groups HF Hsame;
    inversion HF as [|? g ? gs Hn Hrest]; subst; constructor.
  - rewrite Hsame by (left). exact Hn.
  - apply IH; [exact Hrest|]. intros x Hx. apply Hsame. right. exact Hx.
Qed.

Lemma groups_new_file st names groups name :
  Forall2 (fun name g => file_bytes st name = concat g) names groups ->
  file_bytes st name = [] ->
  Forall2 (fun name g => file_bytes st name = concat g)
    (names ++ [name]) (groups ++ [[]]).
Proof.
  intros HF Hnew. apply Forall2_app; [exact HF|].
  constructor; [exact Hnew|constructor].
Qed.

(** The newest file gains the entries [fl]; the other files stay. *)
Lemma groups_extend_last st st' names groups h (fl : list (list ascii)) :
  NoDup names -> last names = Some h ->
  Forall2 (fun name g => file_bytes st name = concat g) names groups ->
  (forall x, x <> h -> file_bytes st' x = file_bytes st x) ->
  file_bytes st' h = file_bytes st h ++ concat fl ->
  exists groups',
    Forall2 (fun name g => file_bytes st' name = concat g) names groups' /\
    concat groups' = concat groups ++ fl.
Proof.
  intros Hnd Hlast HF Hother Hmine.
  apply last_Some in Hlast as [pre ->].
  apply Forall2_app_inv_l in HF as (gpre & glast & Hpre & Hl & ->).
  inversion Hl as [|? g ? gs Hg Hnil]; subst. inversion Hnil; subst.
  exists (gpre ++ [g ++ fl]). split.
  - apply Forall2_app.
    + apply (groups_frame st); [exact Hpre|].
      intros n Hn. apply Hother. intros ->.
      apply NoDup_app in Hnd as (_ & Hdis & _).
      apply (Hdis h Hn). left.
    + constructor; [|constructor].
      rewrite Hmine, Hg, concat_app. reflexivity.
  - rewrite !concat_app. cbn [concat]. rewrite !app_nil_r, app_assoc. reflexivity.
Qed.

Lemma entries_app evs1 evs2 : entries (evs1 ++ evs2) = entries evs1 ++ entries evs2.
Proof. unfold entries. apply flat_map_app. Qed.

Lemma in_flight_same_buffers s l' :
  same_buffers (shared s) l' -> in_flight (set_shared s l') = in_flight s.
Proof.
  intros Hsame. unfold in_flight. cbn [pc shared set_shared].
  destruct (pc s); try reflexivity.
  rewrite (same_buffers_buffers _ _ _ Hsame). reflexivity.
Qed.

(** A step of a producer that leaves the buffers alone leaves the layout
    alone. *)
Lemma laid_out_same_buffers s l' groups flying waiting :
  same_buffers (shared s) l' ->
  laid_out s groups flying waiting ->
  laid_out (set_shared s l') groups flying waiting.
Proof.
  intros Hsame (HF & Hfl & Hcur). split; [exact HF|]. split.
  - rewrite in_flight_same_buffers by exact Hsame. exact Hfl.
  - cbn [shared set_shared].
    destruct Hsame as (H0 & H1 & Hc & _). unfold buffers.
    rewrite H0, H1, Hc. exact Hcur.
Qed.

(** The test at the head of the flusher's loop, on a state in which no
    buffer is being written: a swap sends the waiting entries on their
    way. *)
Lemma inner_loop_laid_out timer_due s groups flying waiting :
  currbuffer (shared s) = 0 \/ currbuffer (shared s) = 1 ->
  offset (buffers (shared s) (other (shared s))) = 0 ->
  Forall2 (fun name g => file_bytes (disk s) name = concat g)
    (created (disk s)) groups ->
  concat flying = [] ->
  contents (buffers (shared s) (currbuffer (shared s))) = concat waiting ->
  exists flying' waiting',
    laid_out (inner_loop timer_due s) groups flying' waiting' /\
    flying' ++ waiting' = flying ++ waiting.
Proof.
  intros Hcur Hpass HF Hfl Hw. unfold inner_loop.
  destruct (timer_due || _).
  - exists (flying ++ waiting), []. split; [|apply app_nil_r].
    destruct (other_flip _ Hcur) as [Hcf _].
    split; [exact HF|]. split.
    + unfold in_flight. cbn [pc set_pc shared set_shared].
      rewrite buffers_flip, concat_app, Hfl. exact Hw.
    + cbn [shared set_pc set_shared].
      rewrite Hcf, buffers_flip, (contents_empty _ Hpass). reflexivity.
  - exists flying, waiting. split; [|reflexivity].
    split; [exact HF|]. split; [|exact Hw].
    unfold in_flight. cbn [pc set_pc]. symmetry. exact Hfl.
Qed.

(** One call of [flush_pending_io] with a file: the file gains the bytes
    of the buffer, the other files stay. *)
Lemma flush_pending_io_file dev fuel s this n s2 h :
  buffers_ok (shared s) -> disk_ok (disk s) ->
  (forall h, fp s = Some h -> last (created (disk s)) = Some h) ->
  buffersz (shared s) < 2 ^ 31 ->
  fp s = Some h ->
  flush_pending_io dev fuel s (fp s) this = Some (n, s2) ->
  created (disk s2) = created (disk s) /\
  (forall x, x <> h -> file_bytes (disk s2) x = file_bytes (disk s) x) /\
  file_bytes (disk s2) h
  = file_bytes (disk s) h ++ contents (buffers (shared s) this).
Proof.
  intros Hb Hd Hfp Hsmall Hh Hfl.
  destruct (flush_pending_io_ok _ _ _ _ _ _ Hb Hd Hfp Hfl)
    as (_ & _ & _ & Hc2 & _ & _ & Hframe & _).
  destruct (buffers_ok_at _ this Hb) as [Hoff Hlen].
  split; [exact Hc2|]. split.
  - intros x Hx. unfold file_bytes. rewrite Hframe; [reflexivity|].
    rewrite Hh. congruence.
  - rewrite Hh in Hfl.
    pose proof (last_created_elem _ _ (Hfp h Hh)) as Hin.
    destruct (disk_ok_lookup _ _ Hd Hin) as (f & Hf & Hu).
    pose proof (flush_pending_io_bytes dev fuel s h this n s2 f Hfl) as Hbytes.
    rewrite Hlen in Hbytes. specialize (Hbytes Hoff ltac:(lia) Hf Hu).
    rewrite (file_bytes_insert _ _ _ _ Hbytes). cbn [stored].
    unfold file_bytes. rewrite Hf. reflexivity.
Qed.

(** The files [reopen_logfile] leaves: those there were, with their bytes,
    and behind them the one it opened, empty. *)
Lemma reopen_logfile_created dev fuel s ret s1 :
  disk_ok (disk s) ->
  (forall h, fp s = Some h -> last (created (disk s)) = Some h) ->
  0 <= next_id s < 2 ^ 32 ->
  reopen_logfile dev fuel s (fp s) = Some (ret, s1) ->
  created (disk s1)
  = created (disk s) ++ match ret with Some n => [n] | None => [] end /\
  (forall n, n ∈ created (disk s) -> file_bytes (disk s1) n = file_bytes (disk s) n) /\
  (forall h, ret = Some h -> file_bytes (disk s1) h = []).
Proof.
  intros Hd Hfp Hid Hre.
  destruct (reopen_logfile_ok dev fuel s ret s1 Hd Hfp Hid Hre)
    as (_ & _ & _ & _ & _ & _ & _ & _ & Hkeep).
  unfold reopen_logfile in Hre.
  set (s0 := close_logfile s (fp s)) in *.
  assert (Hs0 : next_id s0 = next_id s /\ created (disk s0) = created (disk s)).
  { subst s0. unfold close_logfile. destruct (fp s); auto. }
  destruct Hs0 as (Hnid & Hcr).
  destruct (open_logfile_spec dev fuel s0 ret s1) as
    (k & name & _ & _ & _ & _ & _ & _ & _ & Hcase);
    [rewrite Hnid; exact Hid | exact Hre |].
  assert (Hold : forall n, n ∈ created (disk s) ->
                   file_bytes (disk s1) n = file_bytes (disk s) n).
  { intros n Hin. destruct (disk_ok_lookup _ _ Hd Hin) as (f & Hf & _).
    unfold file_bytes. rewrite Hf, (Hkeep n f Hf). reflexivity. }
  destruct Hcase as [(_ & -> & _ & Hdisk1) | (_ & -> & _ & Hdisk1)].
  - split; [rewrite Hdisk1; cbn [created]; rewrite Hcr; reflexivity|].
    split; [exact Hold|].
    intros h [= <-]. rewrite Hdisk1. unfold file_bytes. cbn [files].
    rewrite lookup_insert_eq. reflexivity.
  - split; [rewrite Hdisk1; cbn [created]; rewrite Hcr; symmetry; apply app_nil_r|].
    split; [exact Hold|]. intros h [=].
Qed.

(** One pass of the flusher outside the mutex: the entries on their way
    go to the newest file, whole; a file opened by the rotation starts
    with none. *)
Lemma flush_cycle_laid_out dev fuel s this s1 groups flying :
  buffers_ok (shared s) -> disk_ok (disk s) ->
  (forall h, fp s = Some h -> last (created (disk s)) = Some h) ->
  0 <= next_id s < 2 ^ 32 ->
  buffersz (shared s) < 2 ^ 31 ->
  Forall2 (fun name g => file_bytes (disk s) name = concat g)
    (created (disk s)) groups ->
  contents (buffers (shared s) this) = concat flying ->
  flush_cycle dev fuel s this = Some s1 ->
  exists groups' flying',
    Forall2 (fun name g => file_bytes (disk s1) name = concat g)
      (created (disk s1)) groups' /\
    concat flying' = [] /\
    concat groups' ++ flying' = concat groups ++ flying.
Proof.
  intros Hb Hd Hfp Hid Hsmall HF Hfly. unfold flush_cycle.
  destruct (flush_pending_io dev fuel s (fp s) this) as [[n s2]|] eqn:Hfl;
    [|discriminate].
  destruct (flush_pending_io_ok _ _ _ _ _ _ Hb Hd Hfp Hfl)
    as (_ & Hs2 & Hd2 & Hc2 & _).
  assert (Hnid2 : next_id s2 = next_id s) by (rewrite Hs2; reflexivity).
  assert (Hfp2 : fp s2 = fp s) by (rewrite Hs2; reflexivity).
  assert (Hfpc2 : forall h, fp s2 = Some h -> last (created (disk s2)) = Some h).
  { intros h Hh. rewrite Hc2. apply Hfp. congruence. }
  assert (Hmid : exists groups2 flying2,
            Forall2 (fun name g => file_bytes (disk s2) name = concat g)
              (created (disk s2)) groups2 /\
            concat flying2 = [] /\
            concat groups2 ++ flying2 = concat groups ++ flying).
  { destruct (fp s) as [h|] eqn:E.
    - rewrite <- E in Hfl.
      destruct (flush_pending_io_file dev fuel s this n s2 h Hb Hd)
        as (_ & Hother & Hmine); try assumption.
      { intros h' Hh'. apply Hfp. congruence. }
      rewrite Hfly in Hmine.
      destruct (groups_extend_last (disk s) (disk s2) (created (disk s)) groups
                  h flying (proj1 Hd) (Hfp h eq_refl) HF Hother Hmine)
        as (groups2 & HF2 & Hcat).
      exists groups2, []. rewrite Hc2, app_nil_r. auto.
    - assert (H0 : contents (buffers (shared s) this) = []).
      { unfold flush_pending_io in Hfl.
        destruct (Z.gtb_spec (offset (buffers (shared s) this)) 0); [discriminate|].
        destruct (buffers_ok_at _ this Hb) as [Hoff _].
        apply contents_empty. lia. }
      rewrite (flush_pending_io_null _ _ _ _ _ _ Hfl).
      exists groups, flying. split; [exact HF|]. split; [|reflexivity].
      rewrite <- Hfly. exact H0. }
  destruct Hmid as (groups2 & flying2 & HF2 & Hfl2 & Hcat2).
  destruct (size_t (currsize s2 + n) >? cyclesz (shared s2)).
  - destruct (reopen_logfile dev fuel s2 (fp s2)) as [[f s3]|] eqn:Hre;
      [|discriminate].
    intros [= <-].
    destruct (reopen_logfile_created dev fuel s2 f s3 Hd2 Hfpc2) as
      (Hcr3 & Hold3 & Hnew3); [rewrite Hnid2; exact Hid | exact Hre |].
    cbn [disk set_file]. rewrite Hcr3.
    pose proof (groups_frame (disk s2) (disk s3) _ _ HF2 Hold3) as HF3.
    destruct f as [name|].
    + exists (groups2 ++ [[]]), flying2. split; [|split; [exact Hfl2|]].
      * apply groups_new_file; [exact HF3|]. apply Hnew3. reflexivity.
      * rewrite concat_app. cbn [concat]. rewrite !app_nil_r. exact Hcat2.
    + exists groups2, flying2. rewrite app_nil_r. auto.
  - intros [= <-]. cbn [disk set_file]. eauto.
Qed.

(** The end of the thread: what waits in the current buffer goes to the
    open file, whole. *)
Lemma thread_exit_laid_out dev fuel s s1 groups flying waiting :
  system_ok s -> pc s = Idle -> buffersz (shared s) < 2 ^ 31 ->
  laid_out s groups flying waiting ->
  thread_exit dev fuel s = Some s1 ->
  exists groups' flying' waiting',
    laid_out s1 groups' flying' waiting' /\
    concat groups' ++ flying' ++ waiting' = concat groups ++ flying ++ waiting.
Proof.
  intros Hok Hpc Hsmall (HF & Hfly & Hw) Hexit.
  pose proof Hok as (Hb & (Hpass & Hfp & Hst & Hd) & Hid).
  rewrite Hpc in Hpass.
  unfold in_flight in Hfly. rewrite Hpc in Hfly.
  unfold thread_exit in Hexit.
  destruct (fp s) as [h|] eqn:E in Hexit.
  - rewrite <- E in Hexit.
    destruct (drain dev fuel s (fp s)) as [s2|] eqn:Hdr; [|discriminate].
    injection Hexit as <-.
    destruct (drain_ok dev fuel s s2 Hb Hd Hfp Hpass Hdr)
      as (_ & H20 & _ & _ & _ & Hfp2 & _ & Hd2 & Hc2 & _).
    assert (Hin : h ∈ created (disk s2)).
    { rewrite Hc2. apply last_created_elem. apply Hfp. exact E. }
    assert (Hclose : forall groups2,
              Forall2 (fun name g => file_bytes (disk s2) name = concat g)
                (created (disk s2)) groups2 ->
              Forall2 (fun name g =>
                         file_bytes (disk (set_pc (close_logfile s2 (fp s2)) Exited))
                           name = concat g)
                (created (disk (set_pc (close_logfile s2 (fp s2)) Exited))) groups2).
    { intros groups2 HF2. rewrite Hfp2, E.
      cbn [close_logfile disk set_pc set_disk].
      apply (groups_frame (disk s2)); [exact HF2|].
      intros n _. unfold file_bytes.
      rewrite (iops_close_files _ _ Hd2 Hin). reflexivity. }
    assert (Hshared : shared (set_pc (close_logfile s2 (fp s2)) Exited) = shared s2).
    { unfold close_logfile. destruct (fp s2); reflexivity. }
    destruct (drain_once dev fuel s s2 Hb Hpass Hdr) as [-> | (fuel' & n0 & Hfl)].
    + exists groups, flying, waiting. split; [|reflexivity].
      split; [exact (Hclose groups HF)|]. split.
      * unfold in_flight. cbn [pc set_pc]. exact Hfly.
      * rewrite Hshared. exact Hw.
    + destruct (flush_pending_io_file dev fuel' (set_shared s (flip (shared s)))
                  (currbuffer (shared s)) n0 s2 h (buffers_ok_flip _ Hb) Hd Hfp
                  Hsmall E Hfl) as (_ & Hother & Hmine).
      cbn [disk shared set_shared] in Hother, Hmine.
      rewrite buffers_flip, Hw in Hmine.
      assert (Hmine' : file_bytes (disk s2) h
                       = file_bytes (disk s) h ++ concat (flying ++ waiting))
        by (rewrite concat_app, <- Hfly; exact Hmine).
      destruct (groups_extend_last (disk s) (disk s2) (created (disk s)) groups
                  h (flying ++ waiting) (proj1 Hd) (Hfp h E) HF Hother Hmine')
        as (groups2 & HF2 & Hcat).
      rewrite <- Hc2 in HF2.
      exists groups2, [], []. split; [|rewrite Hcat, !app_nil_r; reflexivity].
      split; [exact (Hclose groups2 HF2)|]. split.
      * reflexivity.
      * rewrite Hshared. apply contents_empty. exact H20.
  - injection Hexit as <-.
    exists groups, flying, waiting. split; [|reflexivity].
    split; [exact HF|]. split; [|exact Hw].
    unfold in_flight. cbn [pc set_pc]. exact Hfly.
Qed.

(** Every step keeps the entries whole where they are, or moves them
    whole; an entry added goes behind all the others. *)
Lemma step_laid_out dev s ev s' groups flying waiting :
  system_ok s -> buffersz (shared s) < 2 ^ 31 ->
  laid_out s groups flying waiting ->
  step dev s ev s' ->
  exists groups' flying' waiting',
    laid_out s' groups' flying' waiting' /\
    concat groups' ++ flying' ++ waiting'
    = (concat groups ++ flying ++ waiting) ++ entries [ev].
Proof.
  intros Hok Hsmall Hlay Hstep.
  pose proof Hok as (Hb & (Hpass & Hfp & Hst & Hd) & Hid).
  destruct Hstep as
    [s msg l Hlen Hadd | s msg l Hwait | s ll level text | s
    | s fuel ret s1 Hpc Hopen | s timer_due Hpc Hrun
    | s this fuel s1 Hpc Hcycle | s fuel s1 Hpc Hrun Hexit];
    cbn [entries flat_map app]; rewrite ?app_nil_r.
  - pose proof (do_add_log_entry_done_room _ _ _ Hb Hlen Hadd) as Hroom.
    destruct (do_add_log_entry_ok _ _ _ Hb Hroom Hadd)
      as (_ & Hc & _ & _ & _ & _ & Hct & Hoth).
    destruct Hlay as (HF & Hfly & Hw).
    exists groups, flying, (waiting ++ [msg]). split.
    + split; [exact HF|]. split.
      * unfold in_flight in *. cbn [pc shared set_shared].
        destruct (pc s); try exact Hfly.
        rewrite Hpass, Hoth. rewrite Hpass in Hfly. exact Hfly.
      * cbn [shared set_shared]. rewrite Hc, Hct, Hw, concat_app.
        cbn [concat]. rewrite app_nil_r. reflexivity.
    + rewrite <- !app_assoc. reflexivity.
  - exists groups, flying, waiting. split; [|reflexivity].
    apply laid_out_same_buffers; [|exact Hlay].
    exact (do_add_log_entry_waiting _ _ _ Hwait).
  - exists groups, flying, waiting. split; [|reflexivity].
    apply laid_out_same_buffers; [apply same_buffers_bookkeeping|exact Hlay].
  - exists groups, flying, waiting. split; [|reflexivity].
    apply laid_out_same_buffers; [apply same_buffers_set_run|exact Hlay].
  - destruct (Hst Hpc) as [Hnone Hnil].
    assert (Hre : reopen_logfile dev fuel s (fp s) = Some (ret, s1))
      by (unfold reopen_logfile; rewrite Hnone; exact Hopen).
    destruct (reopen_logfile_ok dev fuel s ret s1 Hd Hfp Hid Hre) as (Hsame & _).
    destruct (reopen_logfile_created dev fuel s ret s1 Hd Hfp Hid Hre)
      as (Hcr1 & Hold1 & Hnew1).
    destruct Hlay as (HF & Hfly & Hw).
    rewrite Hnil in HF. inversion HF; subst.
    unfold in_flight in Hfly. rewrite Hpc in Hfly.
    exists (match ret with Some _ => [[]] | None => [] end), flying, waiting.
    split; [|destruct ret; reflexivity].
    split; [|split].
    + cbn [disk set_pc set_file]. rewrite Hcr1, Hnil.
      destruct ret as [name|]; cbn [app]; constructor; [|constructor].
      apply Hnew1. reflexivity.
    + unfold in_flight. cbn [pc set_pc]. exact Hfly.
    + cbn [shared set_pc set_file].
      destruct Hsame as (H0 & H1 & Hc & _). unfold buffers.
      rewrite H0, H1, Hc. exact Hw.
  - rewrite Hpc in Hpass. destruct Hlay as (HF & Hfly & Hw).
    unfold in_flight in Hfly. rewrite Hpc in Hfly.
    destruct (inner_loop_laid_out timer_due s groups flying waiting
                (proj1 Hb) Hpass HF (eq_sym Hfly) Hw)
      as (flying' & waiting' & Hlay' & Hcat).
    exists groups, flying', waiting'. split; [exact Hlay'|].
    rewrite Hcat. reflexivity.
  - rewrite Hpc in Hpass. destruct Hlay as (HF & Hfly & Hw).
    unfold in_flight in Hfly. rewrite Hpc in Hfly.
    destruct (flush_cycle_laid_out dev fuel s this s1 groups flying
                Hb Hd Hfp Hid Hsmall HF Hfly Hcycle)
      as (groups1 & flying1 & HF1 & Hfl1 & Hcat1).
    destruct (flush_cycle_ok dev fuel s this s1 Hb Hd Hfp Hid Hcycle)
      as (Hsame & _).
    pose proof (proj1 Hb) as Hcur.
    assert (Hbuf : forall i, buffers (shared s1) i
                   = buffers (set_buffer (shared s) this
                                (mk_logbuffer (data (buffers (shared s) this)) 0)) i)
      by (intros i; apply (same_buffers_buffers _ _ _ Hsame)).
    assert (Hc1 : currbuffer (shared s1) = currbuffer (shared s)).
    { destruct Hsame as (_ & _ & Hc & _). rewrite Hc. apply set_buffer_frame. }
    assert (Ho1 : other (shared s1) = this).
    { unfold other. rewrite Hc1. rewrite Hpass. reflexivity. }
    destruct (inner_loop_laid_out false s1 groups1 flying1 waiting)
      as (flying' & waiting' & Hlay' & Hcat); try assumption.
    + rewrite Hc1. exact Hcur.
    + rewrite Ho1, Hbuf, buffers_set_buffer_same. reflexivity.
    + rewrite Hc1, Hbuf, buffers_set_buffer_other; [exact Hw|].
      rewrite Hpass. apply other_differs. exact Hcur.
    + exists groups1, flying', waiting'. split; [exact Hlay'|].
      rewrite Hcat, app_assoc, Hcat1, <- app_assoc. reflexivity.
  - exact (thread_exit_laid_out dev fuel s s1 groups flying waiting
             Hok Hpc Hsmall Hlay Hexit).
Qed.

(** X20.  Along every run from the initial state (buffers below 2 GiB)
    no entry is split between two log files: the entries added, in the
    order they were added, fall into consecutive groups, one group for
    each log file in the order the files were created, then the entries
    of the buffer being written, then those of the current buffer; and
    each file and each buffer holds exactly its entries, whole, one after
    the other.  Rotation thus happens between entries only. *)
Theorem no_entry_is_split_between_files dev s0 evs s :
  initial s0 -> exec dev s0 evs s -> buffersz (shared s0) < 2 ^ 31 ->
  exists groups flying waiting,
    laid_out s groups flying waiting /\
    concat groups ++ flying ++ waiting = entries evs.
Proof.
  intros Hinit Hex Hsmall.
  pose proof (initial_ok s0 Hinit) as Hok0.
  induction Hex as [s | s evs s1 ev s2 Hex IH Hstep].
  - exists [], [], []. split; [|reflexivity].
    destruct Hinit as (Ho0 & _ & _ & _ & _ & Hc & _ & _ & Hpc & _ & _ & Hcr & _).
    split; [rewrite Hcr; constructor|]. split.
    + unfold in_flight. rewrite Hpc. reflexivity.
    + rewrite Hc. apply contents_empty. exact Ho0.
  - destruct (IH Hinit Hsmall Hok0) as (groups & flying & waiting & Hlay & Hcat).
    destruct (step_laid_out dev s1 ev s2 groups flying waiting) as
      (groups' & flying' & waiting' & Hlay' & Hcat'); try assumption.
    + exact (exec_ok dev s evs s1 Hex Hok0).
    + rewrite (exec_buffersz dev s evs s1 Hex Hok0). exact Hsmall.
    + exists groups', flying', waiting'. split; [exact Hlay'|].
      rewrite Hcat', Hcat, entries_app. reflexivity.
Qed.

Lemma no_entry_is_split_between_files_witness :
  exists s,
    replay willing_device
      [DoStart 1; DoAppend (chars "one "); DoAppend (chars "two ");
       DoWake true; DoFlush 1; DoAppend (chars "three "); DoWake true;
       DoFlush 1; DoAppend (chars "four")]
      (booted (configured 64 6)) = Some s /\
    map (file_bytes (disk s)) (created (disk s))
    = [chars "one two "; chars "three "] /\
    exists groups flying waiting,
      laid_out s groups flying waiting /\
      concat groups ++ flying ++ waiting
      = entries (map event_of
          [DoStart 1; DoAppend (chars "one "); DoAppend (chars "two ");
           DoWake true; DoFlush 1; DoAppend (chars "three "); DoWake true;
           DoFlush 1; DoAppend (chars "four")]).
Proof.
  eexists. split; [vm_compute; reflexivity|]. split; [vm_compute; reflexivity|].
  apply (no_entry_is_split_between_files willing_device (booted (configured 64 6))).
  - apply booted_initial. split; [apply Z.leb_le | apply Z.ltb_lt]; reflexivity.
  - apply replay_exec. vm_compute. reflexivity.
  - apply Z.ltb_lt. vm_compute. reflexivity.
Defined.
